(** * Adrian's Course Capture: the capture pipeline, embedded and verified

    A shallow embedding of the browser extension's content script
    (text filter, cross-frame flash relay) and background script
    (session aggregator, output serializer), followed by the properties
    of the capture pipeline proved on that embedding.

    JavaScript strings are sequences of UTF-16 code units; they are
    modelled as lists of [N].  Numbers that the code only ever uses as
    integers (lengths, byte counts, millisecond time values, tab ids, hop
    counters) are modelled as [Z]. *)

From Stdlib Require Import ZArith NArith List Bool Lia.
From Stdlib Require Import Strings.String Strings.Ascii.
From Stdlib Require Import DecimalString DecimalZ DecimalPos DecimalFacts.
From Stdlib Require Import QArith Qminmax.
From stdpp Require Import base decidable countable gmap.
Import ListNotations.

Local Open Scope Z_scope.

(** ** JavaScript strings *)

Module JS.

Abbreviation jsstring := (list N).

(** An ASCII literal of the source, as code units. *)
Definition lit (s : string) : jsstring :=
  List.map N_of_ascii (list_ascii_of_string s).

(** [s.length] *)
Definition String_length (s : jsstring) : Z := Z.of_nat (length s).

(** [s.substring(0, n)] for a non-negative integer [n]. *)
Definition substring0 (n : Z) (s : jsstring) : jsstring :=
  firstn (Z.to_nat n) s.

(** [c.repeat(n)] for a one-unit string. *)
Definition repeat_unit (c : N) (n : nat) : jsstring := List.repeat c n.

(** [String(n)] for an integer [n] (the decimal numeral, with a minus
    sign when negative; [-0] prints as [0]). *)
Definition String_of_Z (n : Z) : jsstring :=
  lit (NilZero.string_of_int (Z.to_int n)).

(** [s.padStart(width, c)] for a one-unit filler. *)
Definition padStart (width : nat) (c : N) (s : jsstring) : jsstring :=
  List.repeat c (width - length s) ++ s.

(** [set.has(key)] for a [Set] of strings. *)
Definition Set_has (key : jsstring) (set : gset (list N)) : bool :=
  bool_decide (key ∈ set).

(** [lines.join(sep)] *)
Fixpoint join (sep : jsstring) (parts : list jsstring) : jsstring :=
  match parts with
  | [] => []
  | [p] => p
  | p :: rest => p ++ sep ++ join sep rest
  end.

(** [Math.round(d / 1000)] for an integer [d]: the nearest integer, a tie
    going up.  (The engine computes the quotient in binary floating
    point; below 10^15 milliseconds, some thirty thousand years, the
    rounding of the quotient never crosses a half-integer, so the integer
    formula is exact.) *)
Definition round_div1000 (d : Z) : Z := (d + 500) / 1000.

(** [(n / 1024).toFixed(1)] for a non-negative integer [n]: [n / 1024] is
    exact in binary floating point, and [toFixed] picks the nearest
    multiple of one tenth, the larger one on a tie. *)
Definition toFixed1_div1024 (n : Z) : jsstring :=
  let tenths := (10 * n + 512) / 1024 in
  String_of_Z (tenths / 10) ++ lit "." ++ String_of_Z (tenths mod 10).

(** [(n / 1024 / 1024).toFixed(0)] for a non-negative integer [n]. *)
Definition toFixed0_div1048576 (n : Z) : jsstring :=
  String_of_Z ((n + 524288) / 1048576).

(** *** Dates

    A [Date] is its time value: milliseconds since the epoch, UTC. *)

Definition msPerDay : Z := 86400000.

(** Civil date (year, month, day) of a day number counted from the epoch,
    in the proleptic Gregorian calendar. *)
Definition civil_from_days (days : Z) : Z * Z * Z :=
  let z := days + 719468 in
  let era := z / 146097 in
  let doe := z - era * 146097 in
  let yoe := (doe - doe / 1460 + doe / 36524 - doe / 146096) / 365 in
  let y := yoe + era * 400 in
  let doy := doe - (365 * yoe + yoe / 4 - yoe / 100) in
  let mp := (5 * doy + 2) / 153 in
  let d := doy - (153 * mp + 2) / 5 + 1 in
  let m := if mp <? 10 then mp + 3 else mp - 9 in
  (if m <=? 2 then y + 1 else y, m, d).

Definition pad_num (width : nat) (n : Z) : jsstring :=
  padStart width 48%N (String_of_Z n).

(** The year field: four digits, or a sign and six digits outside
    0..9999. *)
Definition iso_year (y : Z) : jsstring :=
  if (0 <=? y) && (y <=? 9999) then pad_num 4 y
  else if y <? 0 then lit "-" ++ pad_num 6 (- y)
  else lit "+" ++ pad_num 6 y.

(** [date.toISOString()] of a valid date. *)
Definition toISOString (t : Z) : jsstring :=
  let '(y, m, d) := civil_from_days (t / msPerDay) in
  let ms := t mod msPerDay in
  iso_year y ++ lit "-" ++ pad_num 2 m ++ lit "-" ++ pad_num 2 d
  ++ lit "T" ++ pad_num 2 (ms / 3600000)
  ++ lit ":" ++ pad_num 2 (ms / 60000 mod 60)
  ++ lit ":" ++ pad_num 2 (ms / 1000 mod 60)
  ++ lit "." ++ pad_num 3 (ms mod 1000) ++ lit "Z".

End JS.

Import JS.

(** ** Regular expressions

    Every regular expression of the two scripts that the capture pipeline
    tests is a sequence of quantified character classes, optionally
    anchored.  [RegExp.prototype.test] asks whether some match exists,
    which for such patterns does not depend on the order in which the
    engine backtracks. *)

Module RegExp.

Inductive cclass :=
| CChar (c : N)                 (* a literal code unit *)
| CCharI (c : N)                (* a literal under the [i] flag *)
| CDigit                        (* \d *)
| CWord                         (* \w *)
| CSpace                        (* \s *)
| CAny                          (* [\s\S] *)
| CRange (lo hi : N)            (* lo-hi inside a bracket *)
| CUnion (a b : cclass).        (* a bracket listing both *)

Definition between (lo hi c : N) : bool := ((lo <=? c) && (c <=? hi))%N.

Definition is_digit (c : N) : bool := between 48 57 c.
Definition is_upper (c : N) : bool := between 65 90 c.
Definition is_lower (c : N) : bool := between 97 122 c.
Definition is_word (c : N) : bool :=
  is_lower c || is_upper c || is_digit c || (c =? 95)%N.

(** White space and line terminators of ECMAScript: what [\s] matches
    and what [trim] strips. *)
Definition is_space (c : N) : bool :=
  (between 9 13 c || (c =? 32) || (c =? 160) || (c =? 5760)
   || between 8192 8202 c || (c =? 8232) || (c =? 8233) || (c =? 8239)
   || (c =? 8287) || (c =? 12288) || (c =? 65279))%N.

(** Case folding of the [i] flag without the [u] flag: a unit outside
    ASCII never folds onto an ASCII one, so an ASCII letter matches
    exactly its two ASCII cases. *)
Definition fold_case (c : N) : N := if is_lower c then (c - 32)%N else c.

Fixpoint class_matches (k : cclass) (c : N) : bool :=
  match k with
  | CChar x => (c =? x)%N
  | CCharI x => if between 0 127 c then (fold_case c =? fold_case x)%N else (c =? x)%N
  | CDigit => is_digit c
  | CWord => is_word c
  | CSpace => is_space c
  | CAny => true
  | CRange lo hi => between lo hi c
  | CUnion a b => if class_matches a c then true else class_matches b c
  end.

Inductive quant := Once | ZeroOrMore | OneOrMore | Exactly (n : nat).

Record regexp := {
  from_start : bool;               (* a leading ^ *)
  pieces : list (cclass * quant);
  to_end : bool                    (* a trailing $ *)
}.

(** [k*] followed by the continuation [rest]. *)
Fixpoint match_star (k : cclass) (rest : jsstring -> bool) (s : jsstring) : bool :=
  if rest s then true
  else match s with
       | c :: s' => if class_matches k c then match_star k rest s' else false
       | [] => false
       end.

(** [k{n}] followed by the continuation [rest]. *)
Fixpoint match_times (n : nat) (k : cclass) (rest : jsstring -> bool) (s : jsstring) : bool :=
  match n with
  | O => rest s
  | S n' => match s with
            | c :: s' => if class_matches k c then match_times n' k rest s' else false
            | [] => false
            end
  end.

(** A match of the pieces that starts exactly at the head of [s]. *)
Fixpoint match_here (ps : list (cclass * quant)) (at_end : bool) (s : jsstring) : bool :=
  match ps with
  | [] => if at_end then match s with [] => true | _ => false end else true
  | (k, q) :: ps' =>
      match q with
      | Once => match_times 1 k (match_here ps' at_end) s
      | ZeroOrMore => match_star k (match_here ps' at_end) s
      | OneOrMore => match_times 1 k (match_star k (match_here ps' at_end)) s
      | Exactly n => match_times n k (match_here ps' at_end) s
      end
  end.

(** A match that starts at some position of [s]. *)
Fixpoint match_anywhere (ps : list (cclass * quant)) (at_end : bool) (s : jsstring) : bool :=
  if match_here ps at_end s then true
  else match s with
       | _ :: s' => match_anywhere ps at_end s'
       | [] => false
       end.

(** [re.test(s)] *)
Definition test (re : regexp) (s : jsstring) : bool :=
  if from_start re then match_here (pieces re) (to_end re) s
  else match_anywhere (pieces re) (to_end re) s.

(** A literal run of the pattern text, and the same under the [i] flag. *)
Definition str (s : string) : list (cclass * quant) :=
  List.map (fun c => (CChar c, Once)) (lit s).
Definition stri (s : string) : list (cclass * quant) :=
  List.map (fun c => (CCharI c, Once)) (lit s).

Definition anchored (ps : list (cclass * quant)) : regexp :=
  {| from_start := true; pieces := ps; to_end := false |}.
Definition floating (ps : list (cclass * quant)) : regexp :=
  {| from_start := false; pieces := ps; to_end := false |}.
Definition whole (ps : list (cclass * quant)) : regexp :=
  {| from_start := true; pieces := ps; to_end := true |}.

(** [(s.match(/[k]/g) || []).length]: the number of units in the class. *)
Definition count_class (k : cclass) (s : jsstring) : Z :=
  Z.of_nat (length (List.filter (class_matches k) s)).

(** [s.replace(/k+/g, by)]: every maximal run of the class becomes [by]. *)
Fixpoint replace_runs (k : cclass) (by_ : jsstring) (in_run : bool) (s : jsstring) : jsstring :=
  match s with
  | [] => []
  | c :: s' =>
      if class_matches k c
      then (if in_run then replace_runs k by_ true s'
            else by_ ++ replace_runs k by_ true s')
      else c :: replace_runs k by_ false s'
  end.

(** [s.replace(/[k]/g, '')]: every unit of the class is removed. *)
Definition remove_class (k : cclass) (s : jsstring) : jsstring :=
  List.filter (fun c => negb (class_matches k c)) s.

Fixpoint drop_while (p : N -> bool) (s : jsstring) : jsstring :=
  match s with
  | c :: s' => if p c then drop_while p s' else s
  | [] => []
  end.

Fixpoint take_while (p : N -> bool) (s : jsstring) : jsstring :=
  match s with
  | c :: s' => if p c then c :: take_while p s' else []
  | [] => []
  end.

(** What is left of [s] once its trailing units satisfying [p] are gone. *)
Fixpoint drop_end_while (p : N -> bool) (s : jsstring) : jsstring :=
  match s with
  | [] => []
  | c :: s' =>
      match drop_end_while p s' with
      | [] => if p c then [] else [c]
      | kept => c :: kept
      end
  end.

(** [s.trim()] *)
Definition trim (s : jsstring) : jsstring :=
  drop_end_while is_space (drop_while is_space s).

End RegExp.

Import RegExp.

(** ** Content script: text filter and cross-frame flash relay *)

Module ContentScript.

Definition MIN_TEXT_LENGTH : Z := 10.
Definition MAX_TEXT_LENGTH : Z := 100000.

Definition opt_space : cclass * quant := (CSpace, ZeroOrMore).
Definition word_or_dash : cclass := CUnion CWord (CChar 45).

(** Patterns that indicate code, CSS or technical noise, in source order. *)
Definition NOISE_PATTERNS : list regexp :=
  [ anchored (str "#" ++ [(word_or_dash, OneOrMore); opt_space] ++ str "{");
    anchored (str "." ++ [(word_or_dash, OneOrMore); opt_space] ++ str "{");
    anchored (stri "@keyframes" ++ [(CSpace, OneOrMore)]);
    anchored (stri "@media" ++ [opt_space] ++ stri "(");
    anchored (stri "@font-face" ++ [opt_space] ++ stri "{");
    floating (stri "box-sizing:" ++ [opt_space] ++ stri "inherit");
    floating (stri "font-family:" ++ [opt_space] ++ stri "inherit");
    floating (str "-webkit-" ++ [(word_or_dash, OneOrMore)] ++ str ":");
    whole ([opt_space] ++ str "{" ++ [(CAny, ZeroOrMore)] ++ str "}" ++ [opt_space]);
    floating (stri "w-css-reset");
    floating (stri "wistia_");
    anchored ([(CDigit, OneOrMore)] ++ str "%" ++ [opt_space] ++ str "{");
    floating (str "opacity:" ++ [opt_space; (CDigit, Once)]);
    floating (stri "animation:" ++ [opt_space; (word_or_dash, OneOrMore)]);
    floating (stri "transform:" ++ [opt_space; (CWord, OneOrMore)]);
    floating (stri "base64,");
    floating (stri "data:application/");
    floating (stri "data:image/");
    floating (stri "unicode-range:" ++ [opt_space] ++ stri "U+");
    floating (stri "font-feature-settings:");
    floating (stri "src:" ++ [opt_space] ++ stri "url(") ].

(** The indicator's own texts: [/^\d+$/], [/^\d{2}:\d{2}$/],
    [/^ACC\s*\d*/]. *)
Definition all_digits : regexp := whole [(CDigit, OneOrMore)].
Definition timer_text : regexp :=
  whole ([(CDigit, Exactly 2)] ++ str ":" ++ [(CDigit, Exactly 2)]).
Definition acc_label : regexp :=
  anchored (str "ACC" ++ [opt_space; (CDigit, ZeroOrMore)]).

(** [/[\u200B-\u200D\uFEFF]/] and [/[{};:]/] *)
Definition zero_width : cclass := CUnion (CRange 8203 8205) (CChar 65279).
Definition css_punct : cclass :=
  CUnion (CChar 123) (CUnion (CChar 125) (CUnion (CChar 59) (CChar 58))).

Definition truncation_marker : jsstring := lit " [too long to capture]".

Definition cleanText (text : jsstring) : jsstring :=
  trim (remove_class zero_width (replace_runs CSpace (lit " ") false text)).

Inductive source := initial | added | text_node | modified | mutation.

Record entry := {
  timestamp : jsstring;
  entry_source : source;
  frameId : jsstring;
  url : jsstring;
  text : jsstring
}.

(** The state of one frame's content script that the text filter and the
    flash relay read and write.  Elements and windows are identified by
    numbers; [iframes] lists each iframe element of the document with
    the window it contains. *)
Record frame := {
  isTopFrame : bool;
  pathname : jsstring;                   (* window.location.pathname *)
  href : jsstring;                       (* window.location.href *)
  isCapturing : bool;
  seenText : gset (list N);
  iframes : list (nat * nat);
  iframeFlashCooldowns : gmap nat Z
}.

Inductive effect :=
| SendCaptureText (e : entry)      (* browser.runtime.sendMessage captureText *)
| PostFlashToParent (depth : Z)    (* window.parent.postMessage ACC_FLASH_IFRAME *)
| FlashOverlay (iframe : nat).     (* createBorderOverlay *)

(** [path.split('/').pop()] *)
Definition last_segment (path : jsstring) : jsstring :=
  rev (take_while (fun c => negb (c =? 47)%N) (rev path)).

(** [name.replace(/\.[^.]+$/, '')] *)
Definition strip_extension (name : jsstring) : jsstring :=
  let r := rev name in
  let not_dot := fun c => negb (c =? 46)%N in
  match take_while not_dot r, drop_while not_dot r with
  | _ :: _, _ :: before => rev before
  | _, _ => name
  end.

Definition getFrameId (f : frame) : jsstring :=
  if isTopFrame f then lit "main"
  else
    let filename :=
      match last_segment (pathname f) with
      | [] => lit "frame"
      | seg => seg
      end in
    strip_extension filename.

(** The key of both deduplication layers: [t.substring(0, 100) + t.length]. *)
Definition fingerprint (t : jsstring) : jsstring :=
  substring0 100 t ++ String_of_Z (String_length t).

Definition seen_with (h : jsstring) (f : frame) : frame :=
  {| isTopFrame := isTopFrame f; pathname := pathname f; href := href f;
     isCapturing := isCapturing f; seenText := {[ h ]} ∪ seenText f;
     iframes := iframes f; iframeFlashCooldowns := iframeFlashCooldowns f |}.

Definition triggerFlashUpward (f : frame) : list effect :=
  if isTopFrame f then [] else [PostFlashToParent 1].

(** [processText(text, source)] at time [now]: the frame afterwards and
    what was sent.  Every early [return] of the source sends nothing. *)
Definition processText (f : frame) (now : Z) (raw : jsstring) (src : source)
  : frame * list effect :=
  let cleaned := cleanText raw in
  let cleaned :=
    if String_length cleaned >? MAX_TEXT_LENGTH
    then substring0 MAX_TEXT_LENGTH cleaned ++ truncation_marker
    else cleaned in
  if String_length cleaned <? MIN_TEXT_LENGTH then (f, [])
  else if test all_digits cleaned then (f, [])
  else if test timer_text cleaned then (f, [])
  else if test acc_label cleaned then (f, [])
  else if bool_decide (cleaned = lit "ACC") then (f, [])
  else if existsb (fun pattern => test pattern cleaned) NOISE_PATTERNS then (f, [])
  else
    let specialChars := count_class css_punct cleaned in
    let totalChars := String_length cleaned in
    (* specialChars / totalChars > 0.1, on integers *)
    if 10 * specialChars >? totalChars then (f, [])
    else
      let hash := fingerprint cleaned in
      if Set_has hash (seenText f) then (f, [])
      else
        let f' := seen_with hash f in
        let e := {| timestamp := toISOString now; entry_source := src;
                    frameId := getFrameId f; url := href f; text := cleaned |} in
        (f', SendCaptureText e :: triggerFlashUpward f).

(** The cleaned text as [processText] goes on with it after its first
    two statements: cut to the maximum length, with the marker appended,
    when it is longer. *)
Definition stored_form (raw : jsstring) : jsstring :=
  let cleaned := cleanText raw in
  if String_length cleaned >? MAX_TEXT_LENGTH
  then substring0 MAX_TEXT_LENGTH cleaned ++ truncation_marker
  else cleaned.

Definition matches_noise (t : jsstring) : bool :=
  existsb (fun pattern => test pattern t) NOISE_PATTERNS.

(** The texts of the entries sent to the background script. *)
Definition sent_texts (effs : list effect) : list jsstring :=
  flat_map (fun x => match x with SendCaptureText e => [text e] | _ => [] end) effs.

(** *** Iframe border flash *)

Definition MAX_IFRAME_DEPTH : Z := 10.
Definition FLASH_COOLDOWN : Z := 500.

Definition findIframeForWindow (f : frame) (sourceWindow : nat) : option nat :=
  option_map fst (List.find (fun p => Nat.eqb (snd p) sourceWindow) (iframes f)).

Definition cooled_at (iframe : nat) (now : Z) (f : frame) : frame :=
  {| isTopFrame := isTopFrame f; pathname := pathname f; href := href f;
     isCapturing := isCapturing f; seenText := seenText f;
     iframes := iframes f;
     iframeFlashCooldowns := <[ iframe := now ]> (iframeFlashCooldowns f) |}.

(** [flashIframeBorder(iframe)] for an iframe that was found. *)
Definition flashIframeBorder (f : frame) (now : Z) (iframe : nat) : frame * list effect :=
  if negb (isCapturing f) then (f, [])
  else
    let lastFlash := default 0 (iframeFlashCooldowns f !! iframe) in
    if now - lastFlash <? FLASH_COOLDOWN then (f, [])
    else (cooled_at iframe now f, [FlashOverlay iframe]).

Definition handleChildFlashMessage (f : frame) (now : Z) (sourceWindow : nat) (depth : Z)
  : frame * list effect :=
  if depth >? MAX_IFRAME_DEPTH then (f, [])
  else
    let '(f', flashed) :=
      match findIframeForWindow f sourceWindow with
      | Some iframe => flashIframeBorder f now iframe
      | None => (f, [])
      end in
    (f', flashed ++ (if isTopFrame f then [] else [PostFlashToParent (depth + 1)])).

(** [event.data.depth || 1]: a missing or zero depth counts as 1. *)
Definition depth_or_1 (depth : option Z) : Z :=
  match depth with
  | Some d => if d =? 0 then 1 else d
  | None => 1
  end.

(** The window's [message] listener, for a message of type
    [ACC_FLASH_IFRAME] coming from the window [sourceWindow]. *)
Definition onFlashMessage (f : frame) (now : Z) (sourceWindow : nat) (depth : option Z)
  : frame * list effect :=
  if isCapturing f then handleChildFlashMessage f now sourceWindow (depth_or_1 depth)
  else (f, []).

End ContentScript.



(** ** Background script: session aggregator and output serializer *)

Module Background.

Import ContentScript.

Definition MAX_CAPTURE_SIZE : Z := 10 * 1024 * 1024.

(** The script's global variables. *)
Record state := {
  isCapturing : bool;
  captureStartTime : option Z;        (* a Date, or null *)
  capturedText : list entry;
  seenHashes : gset (list N);
  activeTabId : option Z;             (* a tab id, or null *)
  currentCaptureSize : Z
}.

Definition initial_state : state :=
  {| isCapturing := false; captureStartTime := None; capturedText := [];
     seenHashes := ∅; activeTabId := None; currentCaptureSize := 0 |}.

(** Messages sent to the content scripts of a tab. *)
Inductive directive :=
| Start (startTime : jsstring) (entryCount : option Z)
| Stop
| UpdateCount (count : Z)
| AutoStopped (reason : jsstring).

(** Calls into the browser, none of which is taken to throw; a rejected
    promise is caught where the source catches it.  Console output is not
    modelled. *)
Inductive effect :=
| SetBadgeText (label : jsstring) (tabId : Z)
| SetBadgeBackgroundColor (color : jsstring) (tabId : Z)
| NotifyStateChanged (capturing : bool)           (* runtime.sendMessage stateChanged *)
| TabsSend (tabId : Z) (d : directive)            (* tabs.sendMessage *)
| DownloadCapture (content filename : jsstring)   (* downloads.download, saveAs: true *)
| DownloadImage (imageUrl filename : jsstring).   (* downloads.download, saveAs: false *)

(** The rest of an [async] function that is suspended at an [await]. *)
Inductive task :=
| AfterAutoStopNotice                     (* autoStopCapture: [await stopCapture()] is next *)
| AfterStopNotice (wasCapturing : bool).  (* stopCapture: saving and the reset are next *)

Inductive message :=
| GetState
| ToggleCapture (tabId : Z)
| CaptureText (e : entry)
| SaveImage (imageUrl filename : jsstring).

Record state_reply := {
  reply_isCapturing : bool;
  reply_startTime : option jsstring;
  reply_entryCount : Z
}.

(** [if (activeTabId)]: null and 0 are falsy. *)
Definition truthy_tab (t : option Z) : option Z :=
  match t with
  | Some n => if n =? 0 then None else Some n
  | None => None
  end.

(** [sender.tab.id === activeTabId], false when there is no [sender.tab]. *)
Definition same_tab (sender_tab active : option Z) : bool :=
  match sender_tab, active with
  | Some a, Some b => a =? b
  | _, _ => false
  end.

Definition nl : jsstring := [10%N].

Section Engine.

(** Two functions of the JavaScript engine that the script calls and whose
    results depend on the engine and on the machine's time zone:
    [new Date(string)] (its time value, [None] for an invalid date) and
    [date.toTimeString()]. *)
Variable Date_parse : jsstring -> option Z.
Variable toTimeString : Z -> jsstring.

(** [now.toISOString().split('T')[0]] *)
Definition getTodayDate (now : Z) : jsstring :=
  take_while (fun c => negb (c =? 84)%N) (toISOString now).

(** [now.toTimeString().split(' ')[0].replace(/:/g, '-')] inside
    [ACC-<date>/<time>_capture.txt]. *)
Definition generateFilename (now : Z) : jsstring :=
  let time :=
    List.map (fun c => if (c =? 58)%N then 45%N else c)
             (take_while (fun c => negb (c =? 32)%N) (toTimeString now)) in
  lit "ACC-" ++ getTodayDate now ++ lit "/" ++ time ++ lit "_capture.txt".

Definition generateImageFilename (now : Z) (originalFilename : jsstring) : jsstring :=
  lit "ACC-" ++ getTodayDate now ++ lit "/" ++ originalFilename.

(** [Math.round((new Date(entry.timestamp) - captureStartTime) / 1000)],
    printed; an invalid date gives [NaN]. *)
Definition timeOffset (start : Z) (e : entry) : jsstring :=
  match Date_parse (timestamp e) with
  | Some t => String_of_Z (round_div1000 (t - start))
  | None => lit "NaN"
  end.

(** One element of [body]: the tag line, the text and an empty string,
    joined by newlines. *)
Definition format_entry (start : Z) (i : nat) (e : entry) : jsstring :=
  join nl
    [ lit "[" ++ padStart 3 48%N (String_of_Z (Z.of_nat i + 1)) ++ lit "] +"
        ++ timeOffset start e ++ lit "s | " ++ frameId e ++ lit " | " ++ url e;
      text e;
      [] ].

Definition format_header (start endTime : Z) (entries : nat) (size : Z) : jsstring :=
  join nl
    [ repeat_unit 9552 60;
      lit "ADRIAN'S COURSE CAPTURE";
      repeat_unit 9552 60;
      [];
      lit "Started:  " ++ toISOString start;
      lit "Ended:    " ++ toISOString endTime;
      lit "Duration: " ++ String_of_Z (round_div1000 (endTime - start)) ++ lit " seconds";
      lit "Entries:  " ++ String_of_Z (Z.of_nat entries);
      lit "Size:     " ++ toFixed1_div1024 size ++ lit " KB";
      [];
      repeat_unit 9472 60;
      [] ].

(** [formatOutput()], called at time [endTime]; [None] is the TypeError
    of reading [toISOString] off a null [captureStartTime]. *)
Definition formatOutput (s : state) (endTime : Z) : option jsstring :=
  match captureStartTime s with
  | None => None
  | Some start =>
      let header :=
        format_header start endTime (length (capturedText s)) (currentCaptureSize s) in
      let body := join nl (imap (format_entry start) (capturedText s)) in
      Some (header ++ body)
  end.

(** [saveCapture()]: [None] when [formatOutput] throws. *)
Definition saveCapture (s : state) (now : Z) : option (list effect) :=
  match formatOutput s now with
  | None => None
  | Some content =>
      let filename := generateFilename now in
      match content, capturedText s with
      | _ :: _, _ :: _ => Some [DownloadCapture content filename]
      | _, _ => Some []
      end
  end.

Definition startCapture (tabId : Z) (now : Z) (s : state) : state * list effect :=
  if isCapturing s then (s, [])
  else
    ({| isCapturing := true; captureStartTime := Some now; capturedText := [];
        seenHashes := ∅; activeTabId := Some tabId; currentCaptureSize := 0 |},
     [ SetBadgeText (lit "REC") tabId;
       SetBadgeBackgroundColor (lit "#e74c3c") tabId;
       NotifyStateChanged true;
       TabsSend tabId (Start (toISOString now) None) ]).

(** The end of [stopCapture], from the save to the reset.  When the save
    throws, the promise is rejected and the reset is not reached. *)
Definition stopCapture_finish (wasCapturing : bool) (now : Z) (s : state)
  : state * list effect :=
  let saved :=
    if wasCapturing && negb (Nat.eqb (length (capturedText s)) 0)
    then saveCapture s now else Some [] in
  match saved with
  | None => (s, [])
  | Some effs =>
      ({| isCapturing := isCapturing s; captureStartTime := captureStartTime s;
          capturedText := []; seenHashes := ∅; activeTabId := None;
          currentCaptureSize := 0 |}, effs)
  end.

Definition stopped (s : state) : state :=
  {| isCapturing := false; captureStartTime := captureStartTime s;
     capturedText := capturedText s; seenHashes := seenHashes s;
     activeTabId := activeTabId s; currentCaptureSize := currentCaptureSize s |}.

(** [stopCapture()] up to its first [await].  With a falsy [activeTabId]
    nothing is awaited and the function runs to its end. *)
Definition stopCapture (now : Z) (s : state) : state * list effect * list task :=
  if negb (isCapturing s) then (s, [], [])
  else
    let wasCapturing := isCapturing s in
    let s1 := stopped s in
    match truthy_tab (activeTabId s1) with
    | Some tab =>
        (s1, [NotifyStateChanged false; SetBadgeText [] tab; TabsSend tab Stop],
         [AfterStopNotice wasCapturing])
    | None =>
        let '(s2, effs) := stopCapture_finish wasCapturing now s1 in
        (s2, NotifyStateChanged false :: effs, [])
    end.

(** [autoStopCapture(reason)] up to its first [await]. *)
Definition autoStopCapture (reason : jsstring) (now : Z) (s : state)
  : state * list effect * list task :=
  match truthy_tab (activeTabId s) with
  | Some tab => (s, [TabsSend tab (AutoStopped reason)], [AfterAutoStopNotice])
  | None => stopCapture now s
  end.

(** A suspended function continues. *)
Definition resume (t : task) (now : Z) (s : state) : state * list effect * list task :=
  match t with
  | AfterAutoStopNotice => stopCapture now s
  | AfterStopNotice wasCapturing =>
      let '(s', effs) := stopCapture_finish wasCapturing now s in (s', effs, [])
  end.

Definition size_limit_reason : jsstring :=
  lit "Size limit reached (" ++ toFixed0_div1048576 MAX_CAPTURE_SIZE ++ lit "MB)".

Definition remember (hash : jsstring) (s : state) : state :=
  {| isCapturing := isCapturing s; captureStartTime := captureStartTime s;
     capturedText := capturedText s; seenHashes := {[ hash ]} ∪ seenHashes s;
     activeTabId := activeTabId s; currentCaptureSize := currentCaptureSize s |}.

Definition accept_entry (e : entry) (entrySize : Z) (s : state) : state :=
  {| isCapturing := isCapturing s; captureStartTime := captureStartTime s;
     capturedText := capturedText s ++ [e]; seenHashes := seenHashes s;
     activeTabId := activeTabId s;
     currentCaptureSize := currentCaptureSize s + entrySize |}.

(** The [captureText] branch of the message listener. *)
Definition captureText (sender_tab : option Z) (e : entry) (now : Z) (s : state)
  : state * list effect * list task :=
  if negb (isCapturing s) then (s, [], [])
  else if negb (same_tab sender_tab (activeTabId s)) then (s, [], [])
  else
    let hash := fingerprint (text e) in
    if Set_has hash (seenHashes s) then (s, [], [])
    else
      let s1 := remember hash s in
      let entrySize := String_length (text e) * 2 in
      if currentCaptureSize s1 + entrySize >? MAX_CAPTURE_SIZE
      then autoStopCapture size_limit_reason now s1
      else
        let s2 := accept_entry e entrySize s1 in
        (s2,
         match sender_tab with
         | Some tab => [TabsSend tab (UpdateCount (Z.of_nat (length (capturedText s2))))]
         | None => []
         end,
         []).

(** The [getState] branch of the message listener. *)
Definition getState (sender_tab : option Z) (s : state) : state_reply :=
  match sender_tab with
  | None =>
      {| reply_isCapturing := isCapturing s;
         reply_startTime := option_map toISOString (captureStartTime s);
         reply_entryCount := Z.of_nat (length (capturedText s)) |}
  | Some tab =>
      {| reply_isCapturing := isCapturing s && same_tab (Some tab) (activeTabId s);
         reply_startTime := option_map toISOString (captureStartTime s);
         reply_entryCount := Z.of_nat (length (capturedText s)) |}
  end.

(** [startCapture] or [stopCapture], as the toggle handlers choose. *)
Definition toggle (tabId : Z) (now : Z) (s : state) : state * list effect * list task :=
  if negb (isCapturing s)
  then let '(s', effs) := startCapture tabId now s in (s', effs, [])
  else stopCapture now s.

(** [browser.runtime.onMessage]: the state afterwards, the calls made,
    the functions left suspended and the response sent, if any. *)
Definition onMessage (sender_tab : option Z) (m : message) (now : Z) (s : state)
  : state * list effect * list task * option state_reply :=
  match m with
  | GetState => (s, [], [], Some (getState sender_tab s))
  | ToggleCapture tabId => (toggle tabId now s, None)
  | CaptureText e => (captureText sender_tab e now s, None)
  | SaveImage imageUrl filename =>
      (s, [DownloadImage imageUrl (generateImageFilename now filename)], [], None)
  end.

(** What the event loop of the background page can run next.  The
    listeners that only set the badge or re-send the start directive
    ([tabs.onUpdated], [tabs.onActivated]) touch no variable of the
    script and are left out. *)
Inductive event :=
| Message (sender_tab : option Z) (m : message)
| Command (active_tab : option Z)     (* toggle-capture, with [tabs[0]] of the query *)
| TabRemoved (tabId : Z)
| Resume (i : nat).                   (* the i-th suspended function continues *)

Record system := {
  vars : state;
  suspended : list task;
  calls : list effect                 (* every call made so far, oldest first *)
}.

Definition boot : system := {| vars := initial_state; suspended := []; calls := [] |}.

Definition handle (ev : event) (now : Z) (s : state) (waiting : list task)
  : state * list effect * list task * list task :=
  match ev with
  | Message sender_tab m =>
      let '(s', effs, spawned, _) := onMessage sender_tab m now s in
      (s', effs, spawned, waiting)
  | Command None => (s, [], [], waiting)
  | Command (Some tabId) =>
      let '(s', effs, spawned) := toggle tabId now s in (s', effs, spawned, waiting)
  | TabRemoved tabId =>
      if isCapturing s && same_tab (Some tabId) (activeTabId s)
      then let '(s', effs, spawned) := stopCapture now s in (s', effs, spawned, waiting)
      else (s, [], [], waiting)
  | Resume i =>
      match waiting !! i with
      | Some t =>
          let '(s', effs, spawned) := resume t now s in
          (s', effs, spawned, delete i waiting)
      | None => (s, [], [], waiting)
      end
  end.

Definition step (sys : system) (ev : event) (now : Z) : system :=
  let '(s', effs, spawned, waiting) := handle ev now (vars sys) (suspended sys) in
  {| vars := s'; suspended := waiting ++ spawned; calls := calls sys ++ effs |}.

Definition run (sys : system) (evs : list (event * Z)) : system :=
  fold_left (fun sys evt => step sys (fst evt) (snd evt)) evs sys.

(** A suspended function and everything it starts run on, with nothing in
    between. *)
Fixpoint settle (fuel : nat) (ts : list task) (now : Z) (s : state)
  : state * list effect :=
  match fuel, ts with
  | S fuel', t :: rest =>
      let '(s1, effs1, spawned) := resume t now s in
      let '(s2, effs2) := settle fuel' (rest ++ spawned) now s1 in
      (s2, effs1 ++ effs2)
  | _, _ => (s, [])
  end.

(** Two rounds are enough for any one task: a round started by the
    auto-stop notice suspends at most once more, in [stopCapture]. *)
Definition settle_all (ts : list task) (now : Z) (s : state) : state * list effect :=
  settle (2 * length ts) ts now s.

(** The whole of [stopCapture]: its first part at [now], the rest, when
    there is one, at [later]. *)
Definition stop_to_end (now later : Z) (s : state) : state * list effect :=
  let '(s1, effs1, spawned) := stopCapture now s in
  let '(s2, effs2) := settle_all spawned later s1 in
  (s2, effs1 ++ effs2).

End Engine.

(** A stopped session with every variable but the start time back to its
    initial value: what the end of [stopCapture] leaves. *)
Definition reset_of (s : state) : state :=
  {| isCapturing := false; captureStartTime := captureStartTime s;
     capturedText := []; seenHashes := ∅; activeTabId := None;
     currentCaptureSize := 0 |}.

Definition is_download (c : effect) : bool :=
  match c with
  | DownloadCapture _ _ | DownloadImage _ _ => true
  | _ => false
  end.

(** The number of retained entries whose text has the fingerprint [h]. *)
Definition retained (h : jsstring) (s : state) : nat :=
  length (List.filter (fun x => bool_decide (fingerprint (text x) = h)) (capturedText s)).

(** The approximate storage cost of an entry: two bytes per character. *)
Definition entry_cost (e : entry) : Z := String_length (text e) * 2.

Definition total_cost (entries : list entry) : Z :=
  fold_right (fun e acc => entry_cost e + acc) 0 entries.

(** What the variables satisfy between any two runs of the event loop. *)
Record consistent (s : state) : Prop := {
  fingerprints_distinct :
    NoDup (List.map (fun x => fingerprint (text x)) (capturedText s));
  fingerprints_indexed :
    forall x, In x (capturedText s) -> fingerprint (text x) ∈ seenHashes s;
  size_is_total : currentCaptureSize s = total_cost (capturedText s);
  size_in_budget : currentCaptureSize s <= MAX_CAPTURE_SIZE;
  started_when_used :
    captureStartTime s = None -> isCapturing s = false /\ capturedText s = []
}.

(** A stop that has flipped the flag and not yet reset the variables is
    waiting among the suspended functions. *)
Definition stop_in_flight (waiting : list task) : Prop :=
  exists wasCapturing, In (AfterStopNotice wasCapturing) waiting.

Definition settled (sys : system) : Prop :=
  consistent (vars sys)
  /\ (isCapturing (vars sys) = false ->
      currentCaptureSize (vars sys) = 0 \/ stop_in_flight (suspended sys)).

(** A submission as an event of the loop. *)
Definition submission (x : option Z * entry * Z) : event * Z :=
  (Message (fst (fst x)) (CaptureText (snd (fst x))), snd x).

(** The session is recording after each of the events. *)
Fixpoint recording_along (Date_parse : jsstring -> option Z) (toTimeString : Z -> jsstring)
    (sys : system) (evs : list (event * Z)) : Prop :=
  match evs with
  | [] => True
  | (ev, now) :: rest =>
      isCapturing (vars (step Date_parse toTimeString sys ev now)) = true
      /\ recording_along Date_parse toTimeString (step Date_parse toTimeString sys ev now) rest
  end.

(** An event that calls [stopCapture] when the session is recording: a
    toggle from the popup or from the keyboard command, the closing of
    the active tab, the continuation of an auto-stop. *)
Definition stop_request (s : state) (waiting : list task) (ev : event) : bool :=
  match ev with
  | Message _ (ToggleCapture _) | Command (Some _) => true
  | TabRemoved tabId => same_tab (Some tabId) (activeTabId s)
  | Resume i =>
      match waiting !! i with
      | Some AfterAutoStopNotice => true
      | _ => false
      end
  | _ => false
  end.

(** An event that is neither a toggle nor the continuation of a
    suspended function. *)
Definition bystander (ev : event) : bool :=
  match ev with
  | Message _ (ToggleCapture _) | Command (Some _) | Resume _ => false
  | _ => true
  end.

End Background.

(** ** The output document, as the specification words it

    A header block, then for each entry a tag line, the text and a line
    break, with one blank line between an entry and the next. *)

Module Document.

Import ContentScript Background.

Section Layout.

Variable Date_parse : jsstring -> option Z.

Definition digit (d : Z) : N := Z.to_N (48 + d).

(** The 1-based ordinal, zero-padded to three digits. *)
Definition ordinal_field (ordinal : Z) : jsstring :=
  if ordinal <? 1000
  then [digit (ordinal / 100); digit (ordinal / 10 mod 10); digit (ordinal mod 10)]
  else String_of_Z ordinal.

(** Seconds from [start] to [t], both in milliseconds, rounded to the
    nearest integer (a half goes up). *)
Definition offset_seconds (start t : Z) : Z :=
  let elapsed := t - start in
  if elapsed mod 1000 <? 500 then elapsed / 1000 else elapsed / 1000 + 1.

(** The offset as printed: [NaN] for a timestamp that is not a date. *)
Definition offset_field (start : Z) (e : entry) : jsstring :=
  match Date_parse (timestamp e) with
  | Some t => String_of_Z (offset_seconds start t)
  | None => lit "NaN"
  end.

Definition tag_line (start : Z) (ordinal : Z) (e : entry) : jsstring :=
  lit "[" ++ ordinal_field ordinal ++ lit "] +" ++ offset_field start e
  ++ lit "s | " ++ frameId e ++ lit " | " ++ url e.

Fixpoint entries_block (start : Z) (ordinal : Z) (entries : list entry) : jsstring :=
  match entries with
  | [] => []
  | e :: rest =>
      tag_line start ordinal e ++ nl ++ text e ++ nl
      ++ match rest with
         | [] => []
         | _ :: _ => nl ++ entries_block start (ordinal + 1) rest
         end
  end.

Definition header_block (start endTime : Z) (entries : nat) (size : Z) : jsstring :=
  repeat_unit 9552 60 ++ nl
  ++ lit "ADRIAN'S COURSE CAPTURE" ++ nl
  ++ repeat_unit 9552 60 ++ nl
  ++ nl
  ++ lit "Started:  " ++ toISOString start ++ nl
  ++ lit "Ended:    " ++ toISOString endTime ++ nl
  ++ lit "Duration: " ++ String_of_Z (offset_seconds start endTime) ++ lit " seconds" ++ nl
  ++ lit "Entries:  " ++ String_of_Z (Z.of_nat entries) ++ nl
  ++ lit "Size:     " ++ toFixed1_div1024 size ++ lit " KB" ++ nl
  ++ nl
  ++ repeat_unit 9472 60 ++ nl.

Definition document (start endTime : Z) (entries : list entry) (size : Z) : jsstring :=
  header_block start endTime (length entries) size ++ entries_block start 1 entries.

End Layout.

End Document.

(** ** An engine for running the scripts on examples

    The date-time format that [toISOString] writes, read back, and
    [toTimeString] on a machine whose time zone is UTC. *)

Module UTC.

Fixpoint decimal_value (acc : Z) (s : jsstring) : option Z :=
  match s with
  | [] => Some acc
  | c :: s' =>
      if is_digit c then decimal_value (10 * acc + (Z.of_N c - 48)) s' else None
  end.

Definition days_from_civil (y m d : Z) : Z :=
  let y' := if m <=? 2 then y - 1 else y in
  let era := y' / 400 in
  let yoe := y' - era * 400 in
  let doy := (153 * (if 2 <? m then m - 3 else m + 9) + 2) / 5 + d - 1 in
  let doe := yoe * 365 + yoe / 4 - yoe / 100 + doy in
  era * 146097 + doe - 719468.

Definition field (from len : nat) (s : jsstring) : option Z :=
  decimal_value 0 (firstn len (skipn from s)).

Definition separators_ok (s : jsstring) : bool :=
  bool_decide (List.map (fun i => nth i s 0%N) [4; 7; 10; 13; 16; 19; 23]%nat
               = [45; 45; 84; 58; 58; 46; 90]%N).

(** [new Date(s)] for [s] of the form [YYYY-MM-DDTHH:mm:ss.sssZ]. *)
Definition Date_parse (s : jsstring) : option Z :=
  if Nat.eqb (length s) 24 && separators_ok s then
    match field 0 4 s, field 5 2 s, field 8 2 s,
          field 11 2 s, field 14 2 s, field 17 2 s, field 20 3 s with
    | Some y, Some m, Some d, Some h, Some mi, Some sec, Some ms =>
        Some (days_from_civil y m d * msPerDay
              + h * 3600000 + mi * 60000 + sec * 1000 + ms)
    | _, _, _, _, _, _, _ => None
    end
  else None.

Definition toTimeString (t : Z) : jsstring :=
  let ms := t mod msPerDay in
  pad_num 2 (ms / 3600000) ++ lit ":" ++ pad_num 2 (ms / 60000 mod 60)
  ++ lit ":" ++ pad_num 2 (ms / 1000 mod 60)
  ++ lit " GMT+0000 (Coordinated Universal Time)".

End UTC.

(** ** Sample data *)

Module Samples.

Import ContentScript Background.

(** A frame nested in the page, recording, whose document holds one
    iframe (element 5) containing the window 9. *)
Definition nested_frame : frame :=
  {| isTopFrame := false; pathname := lit "/embed/player.html";
     href := lit "https://video.example.com/embed/player.html";
     ContentScript.isCapturing := true; seenText := ∅;
     iframes := [(5, 9)]%nat; iframeFlashCooldowns := ∅ |}.

Definition top_frame : frame :=
  {| isTopFrame := true; pathname := lit "/course";
     href := lit "https://example.com/course";
     ContentScript.isCapturing := true; seenText := ∅;
     iframes := [(5, 9)]%nat; iframeFlashCooldowns := ∅ |}.

Definition t0 : Z := 1737387045123.   (* 2025-01-20T15:30:45.123Z *)

(** The longest text a content script sends: 100000 units and the
    truncation marker.  [big_text i] differs from the others in its
    first unit. *)
Definition big_tail : jsstring :=
  repeat_unit 97 (Z.to_nat 99999) ++ truncation_marker.
Definition big_text (i : nat) : jsstring := N.of_nat (65 + i) :: big_tail.
Definition big_entry (i : nat) : entry :=
  {| timestamp := toISOString (t0 + 1000 * Z.of_nat i); entry_source := added;
     frameId := lit "main"; url := lit "https://example.com/course";
     text := big_text i |}.

Definition submit (tab : Z) (e : entry) (now : Z) : event * Z :=
  (Message (Some tab) (CaptureText e), now).

(** A CSS keyframes block, as the indicator's own style sheet has it. *)
Definition keyframes_css : jsstring :=
  lit "@keyframes accPulse { 0%, 100% { opacity: 1; transform: scale(1); } }".

(** 100001 letters: one more than MAX_TEXT_LENGTH. *)
Definition long_word : jsstring := repeat_unit 97 (Z.to_nat 100001).

(** A brace, 100010 letters and a closing brace: a block of the shape
    [/^\s*\{[\s\S]*\}\s*$/], longer than MAX_TEXT_LENGTH. *)
Definition long_block : jsstring :=
  lit "{" ++ repeat_unit 97 (Z.to_nat 100010) ++ lit "}".

(** Tab 7 starts a session and its page sends 52 of the longest texts:
    10402288 of the 10485760 bytes are used. *)
Definition filling : list (event * Z) :=
  (Message None (ToggleCapture 7), t0)
  :: List.map (fun i => submit 7 (big_entry i) (t0 + 1000 * Z.of_nat i)) (seq 0 52).

Definition nearly_full : system := run UTC.Date_parse UTC.toTimeString boot filling.

(** A short session: tab 7 starts, and its page sends one paragraph. *)
Definition hello : entry :=
  {| timestamp := toISOString (t0 + 400); entry_source := initial;
     frameId := lit "main"; url := lit "https://example.com";
     text := lit "Hello world, this is a test paragraph." |}.

Definition hello_again : entry :=
  {| timestamp := toISOString (t0 + 900); entry_source := added;
     frameId := lit "player"; url := lit "https://video.example.com/embed/player.html";
     text := lit "Hello world, this is a test paragraph." |}.

Definition other : entry :=
  {| timestamp := toISOString (t0 + 1600); entry_source := added;
     frameId := lit "main"; url := lit "https://example.com";
     text := lit "A second paragraph, new to the session." |}.

(** What the top frame sends for the paragraph at [t0]. *)
Definition hello_at_start : entry :=
  {| timestamp := toISOString t0; entry_source := initial;
     frameId := lit "main"; url := lit "https://example.com/course";
     text := lit "Hello world, this is a test paragraph." |}.

Definition started : list (event * Z) := [(Message None (ToggleCapture 7), t0)].

Definition one_entry : list (event * Z) := started ++ [submit 7 hello (t0 + 400)].

(** Three more submissions: a new text, the first text again from
    another frame, and a text sent by a tab that is not recording. *)
Definition more : list (option Z * entry * Z) :=
  [ (Some 7, other, t0 + 1600); (Some 7, hello_again, t0 + 2000);
    (Some 3, big_entry 0, t0 + 2400) ].

Definition lesson : entry :=
  {| timestamp := toISOString (t0 + 61499); entry_source := text_node;
     frameId := lit "player";
     url := lit "https://video.example.com/embed/player.html";
     text := lit "Lesson 3: closures & scope <in JavaScript>" |}.

(** A session of three entries, as it stands just before it is stopped. *)
Definition three_entries : list (event * Z) :=
  one_entry ++ [submit 7 other (t0 + 1600); submit 7 lesson (t0 + 61499)].

(** The document of that session when it is saved 85.333 seconds after
    its start. *)
Definition three_entries_document : jsstring :=
  repeat_unit 9552 60 ++ nl
  ++ lit "ADRIAN'S COURSE CAPTURE" ++ nl
  ++ repeat_unit 9552 60 ++ nl
  ++ nl
  ++ lit "Started:  2025-01-20T15:30:45.123Z" ++ nl
  ++ lit "Ended:    2025-01-20T15:32:10.456Z" ++ nl
  ++ lit "Duration: 85 seconds" ++ nl
  ++ lit "Entries:  3" ++ nl
  ++ lit "Size:     0.2 KB" ++ nl
  ++ nl
  ++ repeat_unit 9472 60 ++ nl
  ++ lit "[001] +0s | main | https://example.com" ++ nl
  ++ lit "Hello world, this is a test paragraph." ++ nl
  ++ nl
  ++ lit "[002] +2s | main | https://example.com" ++ nl
  ++ lit "A second paragraph, new to the session." ++ nl
  ++ nl
  ++ lit "[003] +61s | player | https://video.example.com/embed/player.html" ++ nl
  ++ lit "Lesson 3: closures & scope <in JavaScript>" ++ nl.

(** A session with one entry is stopped and, before the stop has come
    back from its await, the next session is started and receives an
    entry. *)
Definition restarted : list (event * Z) :=
  one_entry
  ++ [ (Message None (ToggleCapture 7), t0 + 5000);
       (Message None (ToggleCapture 7), t0 + 5001);
       submit 7 other (t0 + 5100) ].

(** Start, then stop at once, and the stop runs to its end. *)
Definition empty_session : list (event * Z) :=
  started ++ [(Message None (ToggleCapture 7), t0 + 5000); (Resume 0, t0 + 5010)].

(** What the event loop handles while a stop waits for the answer to its
    notice: a state query, a late submission and an image to save. *)
Definition meanwhile : list (event * Z) :=
  [ (Message (Some 7) GetState, t0 + 85100);
    submit 7 other (t0 + 85200);
    (Message (Some 7) (SaveImage (lit "https://example.com/a.png") (lit "img-15-32-10.png")),
     t0 + 85300) ].

(** A session with one entry is stopped, the next session is started
    before the stop has come back from its await, and then the stop
    continues. *)
Definition overtaken : list (event * Z) :=
  one_entry
  ++ [ (Message None (ToggleCapture 7), t0 + 5000);
       (Message None (ToggleCapture 7), t0 + 5001);
       (Resume 0, t0 + 5200) ].

(** The same with no entry in the session that is stopped and one in the
    next. *)
Definition empty_overtaken : list (event * Z) :=
  started
  ++ [ (Message None (ToggleCapture 7), t0 + 5000);
       (Message None (ToggleCapture 7), t0 + 5001);
       submit 7 other (t0 + 5100);
       (Resume 0, t0 + 5200) ].

End Samples.

(** ** Content script: the page around the text filter

    The rest of the content script: the document tree it reads text
    from, the mutation observer and its throttle, the start and stop of a
    capture in the frame, the tab title, the indicator and the save dots
    on images. *)

Module Page.

Import ContentScript.

(** [s.startsWith(prefix)] *)
Definition startsWith (prefix s : jsstring) : bool :=
  bool_decide (firstn (length prefix) s = prefix).

(** [s.toLowerCase()] for a string of ASCII letters. *)
Definition toLowerCase (s : jsstring) : jsstring :=
  List.map (fun c => if is_upper c then (c + 32)%N else c) s.

(** *** The document tree *)

(** An [img] element, with what the script reads off it. *)
Record image := {
  img_element : nat;                  (* which element it is *)
  src : jsstring;                     (* img.src, empty without a source *)
  complete : bool;
  naturalWidth : Z;
  naturalHeight : Z;
  width : Z;
  height : Z;
  parent_position : option jsstring   (* getComputedStyle(img.parentElement).position,
                                         [None] without a parent element *)
}.

Inductive node :=
| TextNode (data : jsstring)                               (* nodeType TEXT_NODE *)
| CommentNode (data : jsstring)                            (* any other character data *)
| ImgNode (id : jsstring) (img : image)                    (* an element, tagName IMG *)
| ElementNode (tagName id : jsstring) (childNodes : list node).   (* any other element *)

(** [node.textContent]: the data of a text or comment node; for an
    element, the data of the text nodes below it, in document order. *)
Fixpoint textContent (n : node) : jsstring :=
  match n with
  | TextNode data => data
  | CommentNode data => data
  | ImgNode _ _ => []
  | ElementNode _ _ childNodes =>
      (fix each (nodes : list node) : jsstring :=
         match nodes with
         | [] => []
         | child :: rest =>
             match child with
             | CommentNode _ => []
             | _ => textContent child
             end ++ each rest
         end) childNodes
  end.

Definition IGNORED_TAGS : gset (list N) :=
  list_to_set (List.map lit
    ["SCRIPT"; "STYLE"; "NOSCRIPT"; "SVG"; "PATH"; "META"; "LINK"; "HEAD"; "TEMPLATE"]%string).

Definition INDICATOR_ID : jsstring := lit "acc-capture-indicator".

(** [extractText(element)].  [within_indicator] says whether an ancestor
    of the element carries the indicator's id, which together with the
    element's own id is what [element.closest('#' + INDICATOR_ID)] finds;
    below an element that has passed the three tests no ancestor does. *)
Fixpoint extractText (within_indicator : bool) (element : node) : jsstring :=
  match element with
  | ElementNode tagName id childNodes =>
      if Set_has tagName IGNORED_TAGS then []
      else if bool_decide (id = INDICATOR_ID) then []
      else if within_indicator then []
      else
        (fix each (nodes : list node) : jsstring :=
           match nodes with
           | [] => []
           | child :: rest =>
               match child with
               | TextNode data => data
               | CommentNode _ => []
               | ImgNode _ _ | ElementNode _ _ _ => extractText false child
               end ++ each rest
           end) childNodes
  | ImgNode _ _ => []        (* not ignored, and without child nodes *)
  | TextNode _ | CommentNode _ => []
  end.

(** [node.querySelectorAll('img')]: the images below the node, in
    document order. *)
Fixpoint images_within (n : node) : list image :=
  match n with
  | ElementNode _ _ childNodes =>
      (fix each (nodes : list node) : list image :=
         match nodes with
         | [] => []
         | child :: rest =>
             match child with
             | ImgNode _ img => [img]
             | _ => images_within child
             end ++ each rest
         end) childNodes
  | _ => []
  end.

Inductive mutation_type := childList | characterData.

(** A mutation record, read when it is processed.  Each added node comes
    with whether an ancestor of it carries the indicator's id. *)
Record mutation := {
  type : mutation_type;
  addedNodes : list (bool * node);
  target : node
}.

(** *** Tab title *)

(** The red circle U+1F534, as its two code units, and a space. *)
Definition RECORDING_EMOJI : jsstring := [55357; 56628; 32]%N.

(** ASCII white space: tab, line feed, form feed, carriage return, space. *)
Definition ascii_whitespace : cclass :=
  CUnion (CRange 9 10) (CUnion (CRange 12 13) (CChar 32)).

(** What reading [document.title] does to the text of the title element:
    every run of ASCII white space becomes one space, and white space at
    the two ends is dropped. *)
Definition strip_and_collapse (s : jsstring) : jsstring :=
  drop_end_while (class_matches ascii_whitespace)
    (drop_while (class_matches ascii_whitespace)
       (replace_runs ascii_whitespace (lit " ") false s)).

Record titling := {
  title_text : option jsstring;     (* the text of the title element, [None] without one *)
  originalTitle : option jsstring;
  titleObserver : bool
}.

(** Reading [document.title]. *)
Definition document_title (t : titling) : jsstring :=
  match title_text t with
  | Some s => strip_and_collapse s
  | None => []
  end.

(** Writing [document.title] (in a document with a head): the title
    element, made if there is none, gets the text. *)
Definition write_title (value : jsstring) (t : titling) : titling :=
  {| title_text := Some value; originalTitle := originalTitle t;
     titleObserver := titleObserver t |}.

Definition setRecordingTitle (isTopFrame : bool) (t : titling) : titling :=
  if negb isTopFrame then t
  else
    let t1 :=
      match originalTitle t with
      | None => {| title_text := title_text t; originalTitle := Some (document_title t);
                   titleObserver := titleObserver t |}
      | Some _ => t
      end in
    if negb (startsWith RECORDING_EMOJI (document_title t1))
    then write_title (RECORDING_EMOJI ++ document_title t1) t1
    else t1.

Definition restoreTitle (isTopFrame : bool) (t : titling) : titling :=
  if negb isTopFrame then t
  else
    match originalTitle t with
    | Some original =>
        {| title_text := Some original; originalTitle := None;
           titleObserver := titleObserver t |}
    | None =>
        if startsWith RECORDING_EMOJI (document_title t)
        then write_title (skipn (length RECORDING_EMOJI) (document_title t)) t
        else t
    end.

Definition startTitleObserver (isTopFrame : bool) (t : titling) : titling :=
  if negb isTopFrame then t
  else
    match title_text t with
    | Some _ => {| title_text := title_text t; originalTitle := originalTitle t;
                   titleObserver := true |}
    | None => t
    end.

Definition stopTitleObserver (t : titling) : titling :=
  {| title_text := title_text t; originalTitle := originalTitle t; titleObserver := false |}.

(** The callback of the title observer. *)
Definition onTitleMutation (isCapturing : bool) (t : titling) : titling :=
  if isCapturing && negb (startsWith RECORDING_EMOJI (document_title t))
  then write_title (RECORDING_EMOJI ++ document_title t) t
  else t.

(** *** Indicator *)

(** [formatTime(seconds)] for an integer: [Math.floor(seconds / 60)] and
    [seconds % 60], each padded to two digits. *)
Definition formatTime (seconds : Z) : jsstring :=
  let mins := seconds / 60 in
  let secs := Z.rem seconds 60 in
  padStart 2 48%N (String_of_Z mins) ++ lit ":" ++ padStart 2 48%N (String_of_Z secs).

(** The indicator element: the two texts it shows, and whether it has
    been put in the document, where [getElementById] finds its parts.
    Where it sits, which the drag listeners change, is not modelled. *)
Record indicator := {
  shown_count : jsstring;     (* the text of #acc-capture-count *)
  shown_timer : jsstring;     (* the text of #acc-timer *)
  in_document : bool
}.

(** *** Save dots on images *)

Definition IMG_MIN_SIZE : Z := 50.

(** [.] of a regular expression: any unit but a line terminator. *)
Definition not_newline : cclass :=
  CUnion (CRange 0 9) (CUnion (CRange 11 12) (CUnion (CRange 14 8231) (CRange 8234 65535))).

(** The pattern IMG_EXTENSIONS: a dot, then png, jpg or jpeg, then
    optionally a question mark and the rest of the line, then the end,
    letters in either case.  It is written as one pattern for each way
    through its alternatives: three extensions, each with or without a
    query. *)
Definition IMG_EXTENSIONS : list regexp :=
  flat_map
    (fun ext =>
       [ {| from_start := false; pieces := stri ext; to_end := true |};
         {| from_start := false;
            pieces := stri ext ++ str "?" ++ [(not_newline, ZeroOrMore)];
            to_end := true |} ])
    [".png"; ".jpg"; ".jpeg"]%string.

Definition IMG_EXTENSIONS_test (s : jsstring) : bool :=
  existsb (fun re => test re s) IMG_EXTENSIONS.

Definition shouldAddDot (imageDotsAdded : gset nat) (img : image) : bool :=
  if bool_decide (src img = []) then false
  else if bool_decide (img_element img ∈ imageDotsAdded) then false
  else if negb (IMG_EXTENSIONS_test (src img)) then false
  else if (naturalWidth img <? IMG_MIN_SIZE) || (naturalHeight img <? IMG_MIN_SIZE) then false
  else if (width img <? IMG_MIN_SIZE) || (height img <? IMG_MIN_SIZE) then false
  else true.

(** [url.match(/\.(png|jpe?g)/i)?.[1]]: the extension of the leftmost
    match, as it is written in the address. *)
Fixpoint first_extension (address : jsstring) : option jsstring :=
  match address with
  | [] => None
  | _ :: after =>
      if match_here (stri ".png") false address then Some (firstn 3 after)
      else if match_here (stri ".jpeg") false address then Some (firstn 4 after)
      else if match_here (stri ".jpg") false address then Some (firstn 3 after)
      else first_extension after
  end.

(** The extension of the file name the click handler of a dot asks for. *)
Definition saved_extension (address : jsstring) : jsstring :=
  let extension :=
    match option_map toLowerCase (first_extension address) with
    | Some (c :: found) => c :: found
    | _ => lit "png"
    end in
  if bool_decide (extension = lit "jpeg") then lit "jpg" else extension.

(** *** The observer and its throttle *)

Definition THROTTLE_MS : Z := 250.

Record feed := {
  observer : bool;                      (* the variable holds an observer *)
  connected : nat;                      (* observers of the body that are connected *)
  bodyWaiters : nat;                    (* observers waiting for the body to appear *)
  pendingMutations : list mutation;
  processingScheduled : bool;
  timers : nat                          (* timeouts of processPendingMutations still to fire *)
}.

(** The variables of the script, and the parts of the document it writes. *)
Record page := {
  frame_of : frame;
  feed_of : feed;
  titling_of : titling;
  startTime : option (option Z);        (* null, or a Date: its time value, [None] when invalid *)
  entryCount : Z;
  statusIndicator : option indicator;
  timerInterval : bool;
  imageDotsAdded : gset nat
}.

(** What the script reads from the browser while it handles one event. *)
Record world := {
  clock : Z;                               (* Date.now() *)
  document_body : option (bool * node);    (* document.body, with whether an ancestor of
                                              it carries the indicator's id *)
  document_images : list image             (* document.querySelectorAll('img') *)
}.

(** What the script asks of the browser. *)
Inductive call :=
| Filter (e : ContentScript.effect)      (* a call of the text filter or the flash relay *)
| WrapImage (element : nat)              (* a positioned span is put around the image *)
| AppendDot (element : nat)              (* createImageDot, put in the wrapper with its listeners *)
| AwaitLoad (element : nat)              (* addEventListener('load', ..., { once: true }) *)
| RemoveDots                             (* every dot and wrapper leaves the document *)
| SendSaveImage (address filename : jsstring)   (* runtime.sendMessage saveImage *)
| Alert (message : jsstring)
| QueryState (attempt : Z)               (* runtime.sendMessage getState *)
| CheckLater (attempt delay : Z)         (* setTimeout(() => checkAndResumeCapture(attempt), delay) *)
| Uncaught.                              (* a TypeError leaves the handler *)

Definition with_frame (f : frame) (p : page) : page :=
  {| frame_of := f; feed_of := feed_of p; titling_of := titling_of p;
     startTime := startTime p; entryCount := entryCount p;
     statusIndicator := statusIndicator p; timerInterval := timerInterval p;
     imageDotsAdded := imageDotsAdded p |}.

Definition with_feed (d : feed) (p : page) : page :=
  {| frame_of := frame_of p; feed_of := d; titling_of := titling_of p;
     startTime := startTime p; entryCount := entryCount p;
     statusIndicator := statusIndicator p; timerInterval := timerInterval p;
     imageDotsAdded := imageDotsAdded p |}.

Definition with_titling (t : titling) (p : page) : page :=
  {| frame_of := frame_of p; feed_of := feed_of p; titling_of := t;
     startTime := startTime p; entryCount := entryCount p;
     statusIndicator := statusIndicator p; timerInterval := timerInterval p;
     imageDotsAdded := imageDotsAdded p |}.

Definition with_indicator (shown : option indicator) (interval : bool) (p : page) : page :=
  {| frame_of := frame_of p; feed_of := feed_of p; titling_of := titling_of p;
     startTime := startTime p; entryCount := entryCount p;
     statusIndicator := shown; timerInterval := interval;
     imageDotsAdded := imageDotsAdded p |}.

Definition with_dots (dots : gset nat) (p : page) : page :=
  {| frame_of := frame_of p; feed_of := feed_of p; titling_of := titling_of p;
     startTime := startTime p; entryCount := entryCount p;
     statusIndicator := statusIndicator p; timerInterval := timerInterval p;
     imageDotsAdded := dots |}.

(** [isCapturing = b; seenText.clear()] *)
Definition capturing_afresh (b : bool) (f : frame) : frame :=
  {| isTopFrame := isTopFrame f; pathname := pathname f; href := href f;
     isCapturing := b; seenText := ∅;
     iframes := iframes f; iframeFlashCooldowns := iframeFlashCooldowns f |}.

Definition switched (b : bool) (f : frame) : frame :=
  {| isTopFrame := isTopFrame f; pathname := pathname f; href := href f;
     isCapturing := b; seenText := seenText f;
     iframes := iframes f; iframeFlashCooldowns := iframeFlashCooldowns f |}.

(** [processText(text, source)], in the page. *)
Definition process (now : Z) (raw : jsstring) (src : source) (p : page) : page * list call :=
  let '(f, effs) := processText (frame_of p) now raw src in
  (with_frame f p, List.map Filter effs).

(** A step of the script after another. *)
Definition and_then (first : page * list call) (next : page -> page * list call)
  : page * list call :=
  let '(p1, calls1) := first in
  let '(p2, calls2) := next p1 in
  (p2, calls1 ++ calls2).

(** One step of the script for each element of a list, in order. *)
Fixpoint for_each {A : Type} (body : A -> page -> page * list call) (items : list A)
    (p : page) : page * list call :=
  match items with
  | [] => (p, [])
  | item :: rest => and_then (body item p) (for_each body rest)
  end.

(** [if (text) processText(text, source)] *)
Definition process_if_any (now : Z) (raw : jsstring) (src : source) (p : page)
  : page * list call :=
  match raw with
  | [] => (p, [])
  | _ :: _ => process now raw src p
  end.

(** [createIndicator()], with whether it returns, in a document with a
    head.  The element is made first; putting it in a document without a
    body throws, before the interval is set. *)
Definition createIndicator (w : world) (p : page) : page * bool :=
  if negb (isTopFrame (frame_of p)) then (p, true)
  else
    let made (there : bool) :=
      Some {| shown_count := String_of_Z (entryCount p); shown_timer := lit "00:00";
              in_document := there |} in
    match document_body w with
    | Some _ => (with_indicator (made true) true p, true)
    | None => (with_indicator (made false) (timerInterval p) p, false)
    end.

Definition removeIndicator (p : page) : page := with_indicator None false p.

(** The indicator as [getElementById] finds its parts: in the document. *)
Definition indicator_found (p : page) : option indicator :=
  match statusIndicator p with
  | Some shown => if in_document shown then Some shown else None
  | None => None
  end.

(** [updateTimer()], the callback of the one-second interval. *)
Definition updateTimer (now : Z) (p : page) : page :=
  match indicator_found p, startTime p with
  | Some shown, Some date =>
      let text :=
        match date with
        | Some started => formatTime ((now - started) / 1000)
        | None => lit "NaN:NaN"
        end in
      with_indicator
        (Some {| shown_count := shown_count shown; shown_timer := text; in_document := true |})
        (timerInterval p) p
  | _, _ => p
  end.

Definition updateCount (count : Z) (p : page) : page :=
  let p1 :=
    {| frame_of := frame_of p; feed_of := feed_of p; titling_of := titling_of p;
       startTime := startTime p; entryCount := count;
       statusIndicator := statusIndicator p; timerInterval := timerInterval p;
       imageDotsAdded := imageDotsAdded p |} in
  match indicator_found p1 with
  | Some shown =>
      with_indicator
        (Some {| shown_count := String_of_Z count; shown_timer := shown_timer shown;
                 in_document := true |})
        (timerInterval p1) p1
  | None => p1
  end.

Definition addDotToImage (img : image) (p : page) : page * list call :=
  if negb (shouldAddDot (imageDotsAdded p) img) then (p, [])
  else
    let p1 := with_dots ({[ img_element img ]} ∪ imageDotsAdded p) p in
    match parent_position img with
    | None => (p1, [])
    | Some position =>
        (p1,
         (if bool_decide (position = lit "static") then [WrapImage (img_element img)] else [])
         ++ [AppendDot (img_element img)])
    end.

(** [img.complete ? addDotToImage(img) : img.addEventListener('load', ...)] *)
Definition dot_when_loaded (img : image) (p : page) : page * list call :=
  if complete img then addDotToImage img p else (p, [AwaitLoad (img_element img)]).

Definition scanForImages (w : world) (p : page) : page * list call :=
  if negb (isCapturing (frame_of p)) || negb (isTopFrame (frame_of p)) then (p, [])
  else for_each dot_when_loaded (document_images w) p.

Definition removeAllImageDots (p : page) : page * list call :=
  (with_dots ∅ p, [RemoveDots]).

Definition captureInitialContent (w : world) (p : page) : page * list call :=
  match document_body w with
  | Some (within_indicator, body) =>
      process_if_any (clock w) (extractText within_indicator body) initial p
  | None => (p, [])
  end.

(** The body of the loop over [mutation.addedNodes]. *)
Definition process_added (w : world) (placed : bool * node) (p : page) : page * list call :=
  let '(within_indicator, n) := placed in
  match n with
  | ImgNode _ _ | ElementNode _ _ _ =>
      and_then (process_if_any (clock w) (extractText within_indicator n) added p)
        (fun p1 =>
           if isTopFrame (frame_of p1) && isCapturing (frame_of p1)
           then
             match n with
             | ImgNode _ img => dot_when_loaded img p1
             | _ => for_each dot_when_loaded (images_within n) p1
             end
           else (p1, []))
  | TextNode _ => process_if_any (clock w) (textContent n) text_node p
  | CommentNode _ => (p, [])
  end.

(** The body of the loop over the mutations. *)
Definition process_mutation (w : world) (m : mutation) (p : page) : page * list call :=
  and_then (for_each (process_added w) (addedNodes m) p)
    (fun p1 =>
       match type m with
       | characterData => process_if_any (clock w) (textContent (target m)) modified p1
       | childList => (p1, [])
       end).

Definition processPendingMutations (w : world) (p : page) : page * list call :=
  let d := feed_of p in
  let p1 :=
    with_feed {| observer := observer d; connected := connected d;
                 bodyWaiters := bodyWaiters d; pendingMutations := pendingMutations d;
                 processingScheduled := false; timers := timers d |} p in
  match pendingMutations d with
  | [] => (p1, [])
  | mutations =>
      let p2 :=
        with_feed {| observer := observer d; connected := connected d;
                     bodyWaiters := bodyWaiters d; pendingMutations := [];
                     processingScheduled := false; timers := timers d |} p1 in
      for_each (process_mutation w) mutations p2
  end.

(** The callback of the observer of the body. *)
Definition onMutations (mutations : list mutation) (p : page) : page :=
  let d := feed_of p in
  with_feed
    {| observer := observer d; connected := connected d; bodyWaiters := bodyWaiters d;
       pendingMutations := pendingMutations d ++ mutations;
       processingScheduled := true;
       timers := if processingScheduled d then timers d else S (timers d) |} p.

Definition startObserverOnBody (p : page) : page :=
  let d := feed_of p in
  with_feed
    {| observer := true; connected := S (connected d); bodyWaiters := bodyWaiters d;
       pendingMutations := pendingMutations d;
       processingScheduled := processingScheduled d; timers := timers d |} p.

Definition startObserver (w : world) (p : page) : page * list call :=
  match document_body w with
  | None =>
      let d := feed_of p in
      (with_feed
         {| observer := observer d; connected := connected d;
            bodyWaiters := S (bodyWaiters d); pendingMutations := pendingMutations d;
            processingScheduled := processingScheduled d; timers := timers d |} p,
       [])
  | Some _ =>
      let '(p1, calls) := captureInitialContent w p in
      (startObserverOnBody p1, calls)
  end.

(** The callback of one observer that waits for the body. *)
Definition onRootMutation (w : world) (p : page) : page * list call :=
  match document_body w with
  | Some _ =>
      let d := feed_of p in
      let p1 :=
        with_feed
          {| observer := observer d; connected := connected d;
             bodyWaiters := Nat.pred (bodyWaiters d); pendingMutations := pendingMutations d;
             processingScheduled := processingScheduled d; timers := timers d |} p in
      let '(p2, calls) := captureInitialContent w p1 in
      (startObserverOnBody p2, calls)
  | None => (p, [])
  end.

Definition stopObserver (p : page) : page :=
  let d := feed_of p in
  with_feed
    {| observer := false;
       connected := if observer d then Nat.pred (connected d) else connected d;
       bodyWaiters := bodyWaiters d; pendingMutations := [];
       processingScheduled := false; timers := timers d |} p.

Section Engine.

(** Functions of the engine that depend on it and on the time zone:
    [new Date(string)], and the hours, minutes and seconds of a time
    value in local time. *)
Variable Date_parse : jsstring -> option Z.
Variables getHours getMinutes getSeconds : Z -> Z.

Definition getImageTimestamp (now : Z) : jsstring :=
  padStart 2 48%N (String_of_Z (getHours now)) ++ lit "-"
  ++ padStart 2 48%N (String_of_Z (getMinutes now)) ++ lit "-"
  ++ padStart 2 48%N (String_of_Z (getSeconds now)).

(** The click handler of the dot on [img]. *)
Definition onDotClick (now : Z) (img : image) : list call :=
  [SendSaveImage (src img)
     (lit "img-" ++ getImageTimestamp now ++ lit "." ++ saved_extension (src img))].

(** [startCapture(startTimeISO, initialCount)].  Where [createIndicator]
    throws, the function is left there: the script is capturing, with no
    title set, no image scanned and no observer. *)
Definition startCapture (w : world) (startTimeISO : option jsstring) (initialCount : Z)
    (p : page) : page * list call :=
  if isCapturing (frame_of p) then (p, [])
  else
    let started :=
      match startTimeISO with
      | Some (c :: iso) => Date_parse (c :: iso)
      | _ => Some (clock w)
      end in
    let p1 :=
      {| frame_of := capturing_afresh true (frame_of p); feed_of := feed_of p;
         titling_of := titling_of p; startTime := Some started; entryCount := initialCount;
         statusIndicator := statusIndicator p; timerInterval := timerInterval p;
         imageDotsAdded := imageDotsAdded p |} in
    if isTopFrame (frame_of p1)
    then
      match createIndicator w p1 with
      | (p2, true) =>
          let p3 := with_titling (setRecordingTitle (isTopFrame (frame_of p2)) (titling_of p2)) p2 in
          let p4 := with_titling (startTitleObserver (isTopFrame (frame_of p3)) (titling_of p3)) p3 in
          and_then (scanForImages w p4) (startObserver w)
      | (p2, false) => (p2, [Uncaught])
      end
    else startObserver w p1.

Definition stopCapture (p : page) : page * list call :=
  if negb (isCapturing (frame_of p)) then (p, [])
  else
    let p1 := stopObserver (with_frame (switched false (frame_of p)) p) in
    let '(p2, calls) :=
      if isTopFrame (frame_of p1)
      then
        let '(p3, calls) := removeAllImageDots (removeIndicator p1) in
        let p4 := with_titling (stopTitleObserver (titling_of p3)) p3 in
        (with_titling (restoreTitle (isTopFrame (frame_of p4)) (titling_of p4)) p4, calls)
      else (p1, []) in
    (with_frame (capturing_afresh false (frame_of p2)) p2, calls).

Definition auto_stop_notice (reason : jsstring) : jsstring :=
  lit "Adrian's Course Capture: Recording auto-stopped." ++ [10%N]
  ++ lit "Reason: " ++ reason ++ [10%N; 10%N] ++ lit "Your capture has been saved.".

(** The listener of [browser.runtime.onMessage]. *)
Definition onMessage (w : world) (message : Background.directive) (p : page)
  : page * list call :=
  match message with
  | Background.Start startTime entryCount =>
      startCapture w (Some startTime)
        (match entryCount with
         | Some count => count       (* message.entryCount || 0 *)
         | None => 0
         end) p
  | Background.Stop => stopCapture p
  | Background.UpdateCount count => (updateCount count p, [])
  | Background.AutoStopped reason =>
      let '(p1, calls) := stopCapture p in
      (p1, calls ++ (if isTopFrame (frame_of p1) then [Alert (auto_stop_notice reason)] else []))
  end.

(** [checkAndResumeCapture(attempt)], up to the message it sends. *)
Definition checkAndResumeCapture (attempt : Z) (p : page) : list call :=
  if isCapturing (frame_of p) then [] else [QueryState attempt].

(** The [catch] of that message: the background script is not ready, or
    the handler of the answer has thrown. *)
Definition onStateFailure (attempt : Z) : list call :=
  if attempt <? 3 then [CheckLater (attempt + 1) (100 * attempt)] else [].

(** What a handler has asked for, with the error it ended on caught. *)
Fixpoint caught (calls : list call) : list call * bool :=
  match calls with
  | [] => ([], false)
  | Uncaught :: _ => ([], true)
  | c :: rest => let '(before, thrown) := caught rest in (c :: before, thrown)
  end.

(** The answer to that message of the given attempt arrives; [None] is an
    answer that is not an object. *)
Definition onStateReply (w : world) (attempt : Z) (reply : option Background.state_reply)
    (p : page) : page * list call :=
  match reply with
  | Some state =>
      if Background.reply_isCapturing state && negb (isCapturing (frame_of p))
      then
        let '(p1, calls) :=
          startCapture w (Background.reply_startTime state)
            (Background.reply_entryCount state) p in
        let '(before, thrown) := caught calls in
        (p1, before ++ (if thrown then onStateFailure attempt else []))
      else (p, [])
  | None => (p, [])
  end.

(** What the browser can make the script run next. *)
Inductive event :=
| Runtime (message : Background.directive)
| Observed (mutations : list mutation)     (* a connected observer of the body reports *)
| ThrottleFires                            (* a timeout of processPendingMutations *)
| RootChanged                              (* an observer waiting for the body reports *)
| PageRetitled (value : jsstring)          (* the page writes document.title *)
| TitleObserved                            (* the title observer reports *)
| Tick                                     (* the indicator's interval *)
| ImageLoaded (img : image)                (* a load listener runs *)
| DotClicked (img : image)
| StateReplied (attempt : Z) (reply : option Background.state_reply)
| StateFailed (attempt : Z)
| CheckFires (attempt : Z)
| FlashMessage (sourceWindow : nat) (depth : option Z).

(** One turn of the event loop.  The browser runs a callback only while
    what it belongs to is live: an observer that is connected, a timeout
    that is pending, the interval that is set. *)
Definition step (p : page) (ev : event) (w : world) : page * list call :=
  match ev with
  | Runtime message => onMessage w message p
  | Observed mutations =>
      if Nat.eqb (connected (feed_of p)) 0 then (p, []) else (onMutations mutations p, [])
  | ThrottleFires =>
      match timers (feed_of p) with
      | O => (p, [])
      | S remaining =>
          let d := feed_of p in
          processPendingMutations w
            (with_feed
               {| observer := observer d; connected := connected d;
                  bodyWaiters := bodyWaiters d; pendingMutations := pendingMutations d;
                  processingScheduled := processingScheduled d; timers := remaining |} p)
      end
  | RootChanged =>
      if Nat.eqb (bodyWaiters (feed_of p)) 0 then (p, []) else onRootMutation w p
  | PageRetitled value => (with_titling (write_title value (titling_of p)) p, [])
  | TitleObserved =>
      if titleObserver (titling_of p)
      then (with_titling (onTitleMutation (isCapturing (frame_of p)) (titling_of p)) p, [])
      else (p, [])
  | Tick => if timerInterval p then (updateTimer (clock w) p, []) else (p, [])
  | ImageLoaded img => addDotToImage img p
  | DotClicked img => (p, onDotClick (clock w) img)
  | StateReplied attempt reply => onStateReply w attempt reply p
  | StateFailed attempt => (p, onStateFailure attempt)
  | CheckFires attempt => (p, checkAndResumeCapture attempt p)
  | FlashMessage sourceWindow depth =>
      let '(f, effs) := onFlashMessage (frame_of p) (clock w) sourceWindow depth in
      (with_frame f p, List.map Filter effs)
  end.

Definition run (p : page) (evs : list (event * world)) : page * list call :=
  fold_left
    (fun acc evw =>
       let '(p1, calls) := step (fst acc) (fst evw) (snd evw) in
       (p1, snd acc ++ calls))
    evs (p, []).

End Engine.

(** The script as it is when it has just run in a frame: nothing is
    captured, and the first state query is out. *)
Definition loaded (top : bool) (path address : jsstring) (frames : list (nat * nat))
    (title : option jsstring) : page :=
  {| frame_of :=
       {| isTopFrame := top; pathname := path; href := address; isCapturing := false;
          seenText := ∅; iframes := frames; iframeFlashCooldowns := ∅ |};
     feed_of :=
       {| observer := false; connected := 0; bodyWaiters := 0; pendingMutations := [];
          processingScheduled := false; timers := 0 |};
     titling_of := {| title_text := title; originalTitle := None; titleObserver := false |};
     startTime := None; entryCount := 0; statusIndicator := None; timerInterval := false;
     imageDotsAdded := ∅ |}.

(** The entries among the calls. *)
Definition sent_entries (calls : list call) : list entry :=
  flat_map (fun c => match c with Filter (SendCaptureText e) => [e] | _ => [] end) calls.

End Page.

(** ** The flash signal across nested frames *)

Module Relay.

Import ContentScript.

(** The hop counter of the message a frame posts to its parent. *)
Definition posted (effs : list effect) : option Z :=
  List.fold_left
    (fun found x => match x with PostFlashToParent depth => Some depth | _ => found end)
    effs None.

(** The signal on its way up.  [ancestors] lists the frames around the
    one that captured a text, innermost first, each with the window the
    message reaches it from and the time it handles it at; each handles
    what the frame below it has posted, and the signal ends where nothing
    is posted. *)
Fixpoint climb (depth : Z) (ancestors : list (frame * nat * Z)) : list (list effect) :=
  match ancestors with
  | [] => []
  | (f, sourceWindow, now) :: outer =>
      let effs := snd (onFlashMessage f now sourceWindow (Some depth)) in
      effs :: match posted effs with
              | Some next => climb next outer
              | None => []
              end
  end.

Definition is_overlay (x : effect) : bool :=
  match x with FlashOverlay _ => true | _ => false end.

(** The overlays drawn along the way. *)
Definition overlays (handled : list (list effect)) : nat :=
  length (List.filter is_overlay (concat handled)).

(** A frame that is recording, holds the iframe of the window the
    message comes from and has not flashed it within the cooldown: the
    top frame or a frame below it. *)
Definition flashes (hop : frame * nat * Z) : Prop :=
  let '(f, sourceWindow, now) := hop in
  isCapturing f = true
  /\ exists iframe,
       findIframeForWindow f sourceWindow = Some iframe
       /\ FLASH_COOLDOWN <= now - default 0 (iframeFlashCooldowns f !! iframe).

(** The frames around a frame, as far as they are listed: none but the
    last of them is a top frame.  The list is the whole chain when its
    last frame is the top frame. *)
Fixpoint nested (ancestors : list (frame * nat * Z)) : Prop :=
  match ancestors with
  | [] => True
  | [_] => True
  | (f, _, _) :: outer => isTopFrame f = false /\ nested outer
  end.

(** A chain that ends at the top frame. *)
Definition complete (ancestors : list (frame * nat * Z)) : Prop :=
  nested ancestors
  /\ exists inner top sourceWindow now,
       ancestors = inner ++ [(top, sourceWindow, now)] /\ isTopFrame top = true.

End Relay.

(** ** Background script: the tab listeners *)

Module Tabs.

Import ContentScript Background.

Definition REC_badge (tabId : Z) : list effect :=
  [SetBadgeText (lit "REC") tabId; SetBadgeBackgroundColor (lit "#e74c3c") tabId].

(** The message of [sendStartMessage(attempt)]; [None] is the TypeError
    of reading [toISOString] off a null [captureStartTime]. *)
Definition sendStartMessage (tabId : Z) (s : state) : option effect :=
  match captureStartTime s with
  | Some start =>
      Some (TabsSend tabId
              (Start (toISOString start) (Some (Z.of_nat (length (capturedText s))))))
  | None => None
  end.

(** [Math.min(100 * Math.pow(1.5, attempt - 1), 1000)], in milliseconds. *)
Definition retry_delay (attempt : Z) : Q :=
  Qmin (100 * Qpower (3 # 2) (attempt - 1)) 1000.

(** The message of [attempt] is rejected: the next attempt and the delay
    before it, if there is one. *)
Definition onRejected (attempt : Z) : option (Z * Q) :=
  if attempt <? 10 then Some (attempt + 1, retry_delay attempt) else None.

(** [browser.tabs.onUpdated]: the calls made at once, and the first
    attempt with its delay. *)
Definition onUpdated (tabId : Z) (complete : bool) (s : state)
  : list effect * option (Z * Q) :=
  if negb (isCapturing s) || negb (same_tab (Some tabId) (activeTabId s)) then ([], None)
  else if complete then (REC_badge tabId, Some (1, 100%Q))
  else ([], None).

(** [browser.tabs.onActivated] *)
Definition onActivated (tabId : Z) (s : state) : list effect :=
  if isCapturing s && same_tab (Some tabId) (activeTabId s)
  then REC_badge tabId
  else [SetBadgeText [] tabId].

(** The attempts made when the successive messages meet [outcomes]
    ([true] for a rejection), each with the delay that led to it. *)
Fixpoint attempts (attempt : Z) (delay : Q) (outcomes : list bool) : list (Z * Q) :=
  match outcomes with
  | [] => []
  | rejected :: later =>
      (attempt, delay)
      :: (if rejected
          then match onRejected attempt with
               | Some (next, wait) => attempts next wait later
               | None => []
               end
          else [])
  end.

End Tabs.

(** ** Popup script *)

Module Popup.

Import Background.

(** What the popup shows of the state: the class of the record button
    and its label. *)
Record popup := {
  recording : bool;          (* recordBtn has the class recording *)
  recordText : jsstring
}.

Definition updateUI (isCapturing : bool) : popup :=
  if isCapturing
  then {| recording := true; recordText := lit "Stop Recording" |}
  else {| recording := false; recordText := lit "Start Recording" |}.

(** The popup opens and its state query is answered; [None] is a query
    that fails or an answer that is not an object. *)
Definition opened (reply : option state_reply) : popup :=
  match reply with
  | Some state => updateUI (reply_isCapturing state)
  | None => updateUI false
  end.

(** The listener of [browser.runtime.onMessage], for a call of the
    background script that reaches the popup. *)
Definition onMessage (c : effect) (p : popup) : popup :=
  match c with
  | NotifyStateChanged isCapturing => updateUI isCapturing
  | _ => p
  end.

Definition hears (calls : list effect) (p : popup) : popup :=
  fold_left (fun p c => onMessage c p) calls p.

(** The click on the record button, with [tabs[0]] of the query. *)
Definition onClick (active_tab : option Z) : list message :=
  match active_tab with
  | Some tabId => [ToggleCapture tabId]
  | None => []
  end.

End Popup.

Module PageFacts.

Import ContentScript Page.

(** No element of the tree is ignored or is the indicator. *)
Fixpoint plain (n : node) : bool :=
  match n with
  | ElementNode tagName id childNodes =>
      negb (Set_has tagName IGNORED_TAGS) && negb (bool_decide (id = INDICATOR_ID))
      && forallb plain childNodes
  | _ => true
  end.

(** What a child node adds to the text extracted from its parent. *)
Definition part (child : node) : jsstring :=
  match child with
  | TextNode data => data
  | CommentNode _ => []
  | _ => extractText false child
  end.

(** Everything of the page but the two memories that reading text and
    scanning images write: the texts seen and the images dotted. *)
Definition skeleton (p : page) :=
  (feed_of p, titling_of p, startTime p, entryCount p, statusIndicator p, timerInterval p,
   (isTopFrame (frame_of p), pathname (frame_of p), href (frame_of p),
    isCapturing (frame_of p))).

(** An entry as the text filter of the frame [f] sends it at [now]. *)
Definition sent_by (f : frame) (now : Z) (e : entry) : Prop :=
  MIN_TEXT_LENGTH <= String_length (text e)
                  <= MAX_TEXT_LENGTH + String_length truncation_marker
  /\ Forall (fun c => is_space c = true -> c = 32%N) (text e)
  /\ timestamp e = toISOString now
  /\ frameId e = getFrameId f
  /\ url e = href f.

(** The observer follows the capture: none while stopped, one while
    capturing, and nothing waits for a body. *)
Record steady (p : page) : Prop := {
  no_waiter : bodyWaiters (feed_of p) = 0%nat;
  idle_feed :
    isCapturing (frame_of p) = false ->
    observer (feed_of p) = false /\ connected (feed_of p) = 0%nat
    /\ pendingMutations (feed_of p) = [];
  live_feed :
    isCapturing (frame_of p) = true ->
    observer (feed_of p) = true /\ connected (feed_of p) = 1%nat
}.

(** The throttle: mutations wait only with the flag set, and the flag is
    set only with a timeout pending. *)
Record throttled (p : page) : Prop := {
  timer_pending : processingScheduled (feed_of p) = true -> (0 < timers (feed_of p))%nat;
  flag_set : pendingMutations (feed_of p) <> [] -> processingScheduled (feed_of p) = true
}.

(** The indicator, its interval and the remembered title are there
    exactly while the top frame captures. *)
Record dressed (p : page) : Prop := {
  indicator_there :
    statusIndicator p <> None
    <-> isTopFrame (frame_of p) = true /\ isCapturing (frame_of p) = true;
  interval_there :
    timerInterval p = true
    <-> isTopFrame (frame_of p) = true /\ isCapturing (frame_of p) = true;
  title_remembered :
    originalTitle (titling_of p) <> None
    <-> isTopFrame (frame_of p) = true /\ isCapturing (frame_of p) = true
}.

(** A string is tidy for a class and its space when collapsing the runs
    of the class into the space and clearing the two ends change
    nothing. *)
Definition tidy (k : cclass) (sp : N) (s : jsstring) : Prop :=
  replace_runs k [sp] false s = s
  /\ drop_while (class_matches k) s = s
  /\ drop_end_while (class_matches k) s = s.

(** Where the script runs: what the frame id and the address of an entry
    are read from. *)
Definition site (p : page) : bool * jsstring * jsstring :=
  (isTopFrame (frame_of p), pathname (frame_of p), href (frame_of p)).

(** A part of the script that leaves the skeleton as it finds it and
    sends only entries of the text filter. *)
Definition orderly (now : Z) (p : page) (r : page * list call) : Prop :=
  skeleton (fst r) = skeleton p
  /\ Forall (sent_by (frame_of p) now) (sent_entries (snd r)).

(** A part of the script that stays where it runs and sends only entries
    of the text filter. *)
Definition lawful (now : Z) (p : page) (r : page * list call) : Prop :=
  site (fst r) = site p
  /\ Forall (sent_by (frame_of p) now) (sent_entries (snd r)).

(** The elements that carry a save dot after the calls, given those that
    carried one before: each dot appended since the dots were last
    removed. *)
Fixpoint dotted_after (calls : list call) (before : list nat) : list nat :=
  match calls with
  | [] => before
  | AppendDot element :: rest => dotted_after rest (element :: before)
  | RemoveDots :: rest => dotted_after rest []
  | _ :: rest => dotted_after rest before
  end.

(** No element carries two dots, and the script remembers each element
    that carries one. *)
Definition dots_kept (p : page) (dotted : list nat) : Prop :=
  List.NoDup dotted /\ forall element, In element dotted -> element ∈ imageDotsAdded p.

(** A part of the script that ends without an error and keeps the dots. *)
Definition neat (p : page) (r : page * list call) : Prop :=
  Forall (fun c => c <> Uncaught) (snd r)
  /\ forall dotted, dots_kept p dotted -> dots_kept (fst r) (dotted_after (snd r) dotted).

(** A call that is neither an error nor about the dots. *)
Definition calm (c : call) : Prop :=
  match c with
  | AppendDot _ | RemoveDots | Uncaught => False
  | _ => True
  end.

(** An event that does not end a capture. *)
Definition keeps_capturing (ev : event) : bool :=
  match ev with
  | Runtime Background.Stop | Runtime (Background.AutoStopped _) => false
  | _ => true
  end.

End PageFacts.

(** ** What the properties of the background script are stated with *)

Module BackgroundFacts.

Import Background Popup.

(** The units of a date: digits and the two signs. *)
Definition date_unit (c : N) : Prop := is_digit c = true \/ c = 45%N \/ c = 43%N.

(** A handler keeps the popup right: what the popup shows after the
    calls of the handler is the flag the handler leaves. *)
Definition tells (s : state) (effs : list effect) (s' : state) : Prop :=
  forall p, p = updateUI (isCapturing s) -> hears effs p = updateUI (isCapturing s').

End BackgroundFacts.

(** ** A course page and its player frame *)

Module PageSamples.

Import ContentScript Page.

(** The three getters of a date in the UTC time zone. *)
Definition getHours (t : Z) : Z := t mod msPerDay / 3600000.
Definition getMinutes (t : Z) : Z := t mod msPerDay / 60000 mod 60.
Definition getSeconds (t : Z) : Z := t mod msPerDay / 1000 mod 60.

(** A heading, a script and a paragraph with a word in bold. *)
Definition course_body : node :=
  ElementNode (lit "BODY") []
    [ ElementNode (lit "H1") [] [TextNode (lit "Closures in JavaScript")];
      ElementNode (lit "SCRIPT") [] [TextNode (lit "var hidden = 1;")];
      ElementNode (lit "P") []
        [ TextNode (lit " A closure keeps ");
          ElementNode (lit "B") [] [TextNode (lit "its scope")];
          TextNode (lit ".") ] ].

(** The script as it is loaded in the top frame of the course, whose
    title element holds spaces around and between its two words. *)
Definition course_page : page :=
  loaded true (lit "/course") (lit "https://example.com/course") []
    (Some (lit "  Closures   101 ")).

(** The script as it is loaded in the frame of the player, a document
    without a title. *)
Definition player_page : page :=
  loaded false (lit "/embed/player.html")
    (lit "https://video.example.com/embed/player.html") [] None.

(** An image of the course, large enough for a save dot. *)
Definition diagram : image :=
  {| img_element := 3; src := lit "https://example.com/img/Scope.JPEG?v=2";
     complete := true; naturalWidth := 640; naturalHeight := 480;
     width := 320; height := 240; parent_position := Some (lit "static") |}.

(** The frames around a lesson that plays inside the player: the frame
    of the player, then the top frame of the course, each with the window
    the signal reaches it from and the time it handles it at. *)
Definition lesson_chain : list (frame * nat * Z) :=
  [ (Samples.nested_frame, 9%nat, Samples.t0 + 1);
    (Samples.top_frame, 9%nat, Samples.t0 + 2) ].

(** The document once it has its body, and before. *)
Definition with_body (now : Z) : world :=
  {| clock := now; document_body := Some (false, course_body); document_images := [] |}.

Definition without_body (now : Z) : world :=
  {| clock := now; document_body := None; document_images := [] |}.

(** The page writes a new title and its observer reports it. *)
Definition retitled : list (event * world) :=
  [ (PageRetitled (lit "Lesson 2"), with_body (Samples.t0 + 3000));
    (TitleObserved, with_body (Samples.t0 + 3001)) ].

(** A capture is started in the course page, the page changes its title,
    and a second passes. *)
Definition lecture : list (event * world) :=
  (Runtime (Background.Start (toISOString Samples.t0) (Some 0)), with_body (Samples.t0 + 50))
  :: retitled ++ [(Tick, with_body (Samples.t0 + 4000))].

(** The paragraph gets one more sentence, and the capture is stopped
    before the throttle has fired. *)
Definition interrupted : list (event * world) :=
  lecture
  ++ [ (Observed
          [ {| type := childList;
               addedNodes := [(false, TextNode (lit "It outlives the call that made it."))];
               target := course_body |} ],
        with_body (Samples.t0 + 5000));
       (Runtime Background.Stop, with_body (Samples.t0 + 5100)) ].

End PageSamples.

(** * Properties *)

(** ** Cross-frame flash relay *)

Section FlashRelay.

Import ContentScript.

(** C5. Relay depth bound: a flash signal whose hop counter exceeds
    MAX_IFRAME_DEPTH (10) is dropped by the frame that receives it: the
    frame draws no overlay, records no cooldown and posts nothing to its
    parent, whether the handler is called directly or through the
    window's message listener. *)
Theorem flash_relay_depth_bound (f : frame) (now : Z) (sourceWindow : nat) (depth : Z) :
  depth > MAX_IFRAME_DEPTH ->
  handleChildFlashMessage f now sourceWindow depth = (f, [])
  /\ onFlashMessage f now sourceWindow (Some depth) = (f, []).
Proof.
  intros Hdeep. unfold MAX_IFRAME_DEPTH in Hdeep.
  assert (Hdrop : handleChildFlashMessage f now sourceWindow depth = (f, [])).
  { unfold handleChildFlashMessage, MAX_IFRAME_DEPTH.
    destruct (depth >? 10) eqn:Hcmp; [reflexivity | lia]. }
  split; [exact Hdrop |].
  unfold onFlashMessage, depth_or_1.
  destruct (ContentScript.isCapturing f); [| reflexivity].
  destruct (depth =? 0) eqn:Hz; [lia | exact Hdrop].
Qed.

(** Within the bound, a nested frame that finds the iframe flashes it and
    passes the signal on with the counter incremented. *)
Lemma flash_relay_forwards (f : frame) (now : Z) (sourceWindow : nat) (depth : Z) :
  depth <= MAX_IFRAME_DEPTH ->
  isTopFrame f = false ->
  exists f' flashed,
    handleChildFlashMessage f now sourceWindow depth
    = (f', flashed ++ [PostFlashToParent (depth + 1)]).
Proof.
  intros Hin Hnested. unfold handleChildFlashMessage, MAX_IFRAME_DEPTH in *.
  destruct (depth >? 10) eqn:Hcmp; [lia |].
  rewrite Hnested.
  destruct (findIframeForWindow f sourceWindow) as [iframe |].
  - destruct (flashIframeBorder f now iframe) as [f' flashed]. eauto.
  - exists f, []. reflexivity.
Qed.

End FlashRelay.

Lemma flash_relay_depth_bound_witness :
  11 > ContentScript.MAX_IFRAME_DEPTH
  /\ ContentScript.handleChildFlashMessage Samples.nested_frame 1000 9 11
     = (Samples.nested_frame, [])
  /\ ContentScript.handleChildFlashMessage Samples.nested_frame 1000 9 10
     = (ContentScript.cooled_at 5 1000 Samples.nested_frame,
        [ContentScript.FlashOverlay 5; ContentScript.PostFlashToParent 11]).
Proof.
  split; [reflexivity |].
  split; [| reflexivity].
  apply (flash_relay_depth_bound Samples.nested_frame 1000 9 11). reflexivity.
Defined.

(** ** Text filter *)

Section TextFilter.

Import ContentScript.

Lemma truncation_marker_length : String_length truncation_marker = 22.
Proof. reflexivity. Qed.

Lemma String_length_app (a b : jsstring) :
  String_length (a ++ b) = String_length a + String_length b.
Proof. unfold String_length. rewrite length_app. lia. Qed.

Lemma String_length_substring0 (n : Z) (t : jsstring) :
  0 <= n -> String_length (substring0 n t) = Z.min n (String_length t).
Proof. intros Hn. unfold String_length, substring0. rewrite length_firstn. lia. Qed.

Lemma stored_form_short (raw : jsstring) :
  String_length (cleanText raw) <= MAX_TEXT_LENGTH ->
  stored_form raw = cleanText raw.
Proof.
  intros Hshort. unfold stored_form.
  destruct (String_length (cleanText raw) >? MAX_TEXT_LENGTH) eqn:Hcmp; [lia | reflexivity].
Qed.

Lemma stored_form_long (raw : jsstring) :
  String_length (cleanText raw) > MAX_TEXT_LENGTH ->
  stored_form raw = substring0 MAX_TEXT_LENGTH (cleanText raw) ++ truncation_marker
  /\ String_length (stored_form raw) = MAX_TEXT_LENGTH + 22.
Proof.
  intros Hlong. unfold stored_form.
  destruct (String_length (cleanText raw) >? MAX_TEXT_LENGTH) eqn:Hcmp; [| lia].
  split; [reflexivity |].
  rewrite String_length_app, String_length_substring0, truncation_marker_length
    by (unfold MAX_TEXT_LENGTH; lia).
  lia.
Qed.

Lemma stored_form_bound (raw : jsstring) :
  String_length (stored_form raw) <= MAX_TEXT_LENGTH + 22.
Proof.
  destruct (Z_le_gt_dec (String_length (cleanText raw)) MAX_TEXT_LENGTH) as [Hshort | Hlong].
  - rewrite (stored_form_short raw Hshort). lia.
  - destruct (stored_form_long raw Hlong) as [_ ->]. lia.
Qed.

(** [processText] either sends nothing and leaves the frame as it was, or
    sends one entry whose text is the stored form, which then has passed
    every filter. *)
Lemma processText_cases (f : frame) (now : Z) (raw : jsstring) (src : source) :
  processText f now raw src = (f, [])
  \/ (processText f now raw src
      = (seen_with (fingerprint (stored_form raw)) f,
         SendCaptureText {| timestamp := toISOString now; entry_source := src;
                            frameId := getFrameId f; url := href f;
                            text := stored_form raw |}
         :: triggerFlashUpward f)
      /\ MIN_TEXT_LENGTH <= String_length (stored_form raw)
      /\ matches_noise (stored_form raw) = false
      /\ Set_has (fingerprint (stored_form raw)) (seenText f) = false).
Proof.
  unfold processText. fold (stored_form raw). fold (matches_noise (stored_form raw)).
  destruct (String_length (stored_form raw) <? MIN_TEXT_LENGTH) eqn:Hmin; [left; reflexivity |].
  destruct (test all_digits (stored_form raw)); [left; reflexivity |].
  destruct (test timer_text (stored_form raw)); [left; reflexivity |].
  destruct (test acc_label (stored_form raw)); [left; reflexivity |].
  destruct (bool_decide (stored_form raw = lit "ACC")); [left; reflexivity |].
  destruct (matches_noise (stored_form raw)); [left; reflexivity |].
  cbv zeta.
  destruct (10 * count_class css_punct (stored_form raw) >? String_length (stored_form raw));
    [left; reflexivity |].
  destruct (Set_has (fingerprint (stored_form raw)) (seenText f)); [left; reflexivity |].
  right. split; [reflexivity |]. split; [lia |]. split; reflexivity.
Qed.

Lemma triggerFlashUpward_sends_no_entry (f : frame) (e : entry) :
  ~ In (SendCaptureText e) (triggerFlashUpward f).
Proof.
  unfold triggerFlashUpward. destruct (isTopFrame f); cbn; [tauto |].
  intros [Heq | []]. discriminate.
Qed.


(** C8, as amended. Noise-signature rejection: whenever the cleaned
    input, in the form processText goes on with (cut to 100000 characters
    with the marker appended when it is longer), matches one of the
    NOISE_PATTERNS, nothing is sent and the frame's memory is unchanged,
    whatever the length of the input; for a cleaned input of at most
    100000 characters that form is the cleaned input itself. *)
Theorem noise_signature_rejected (f : frame) (now : Z) (raw : jsstring) (src : source) :
  matches_noise (stored_form raw) = true ->
  processText f now raw src = (f, [])
  /\ (String_length (cleanText raw) <= MAX_TEXT_LENGTH -> stored_form raw = cleanText raw).
Proof.
  intros Hnoise. split; [| apply stored_form_short].
  destruct (processText_cases f now raw src) as [Hnone | (_ & _ & Hclean & _)];
    [exact Hnone | congruence].
Qed.

End TextFilter.



Lemma noise_signature_rejected_witness :
  ContentScript.matches_noise (ContentScript.cleanText Samples.keyframes_css) = true
  /\ ContentScript.processText Samples.top_frame Samples.t0
       Samples.keyframes_css ContentScript.added
     = (Samples.top_frame, []).
Proof.
  split; [vm_compute; reflexivity |].
  apply (noise_signature_rejected Samples.top_frame Samples.t0
           Samples.keyframes_css ContentScript.added).
  vm_compute. reflexivity.
Defined.

(** The cleaned form of a block of 100012 characters matches the ninth
    noise pattern, and still the block is sent, cut and marked. *)
Lemma noise_signature_truncated_counterexample :
  ContentScript.matches_noise (ContentScript.cleanText Samples.long_block) = true
  /\ List.map String_length
       (ContentScript.sent_texts
          (snd (ContentScript.processText Samples.top_frame Samples.t0
                  Samples.long_block ContentScript.added)))
     = [100022].
Proof. vm_compute. split; reflexivity. Qed.

(** ** Session aggregator *)

Section Aggregator.

Import ContentScript Background.

Variable Date_parse : jsstring -> option Z.
Variable toTimeString : Z -> jsstring.

Local Abbreviation captureText := (Background.captureText Date_parse toTimeString).
Local Abbreviation stopCapture := (Background.stopCapture Date_parse toTimeString).
Local Abbreviation stopCapture_finish := (Background.stopCapture_finish Date_parse toTimeString).
Local Abbreviation autoStopCapture := (Background.autoStopCapture Date_parse toTimeString).
Local Abbreviation saveCapture := (Background.saveCapture Date_parse toTimeString).
Local Abbreviation formatOutput := (Background.formatOutput Date_parse).
Local Abbreviation generateFilename := (Background.generateFilename toTimeString).
Local Abbreviation resume := (Background.resume Date_parse toTimeString).
Local Abbreviation settle := (Background.settle Date_parse toTimeString).
Local Abbreviation settle_all := (Background.settle_all Date_parse toTimeString).
Local Abbreviation stop_to_end := (Background.stop_to_end Date_parse toTimeString).
Local Abbreviation toggle := (Background.toggle Date_parse toTimeString).
Local Abbreviation onMessage := (Background.onMessage Date_parse toTimeString).
Local Abbreviation handle := (Background.handle Date_parse toTimeString).
Local Abbreviation step := (Background.step Date_parse toTimeString).
Local Abbreviation run := (Background.run Date_parse toTimeString).
Local Abbreviation recording_along := (Background.recording_along Date_parse toTimeString).

(** *** The state query *)

(** C9, as amended. State query contract: a query without a sender tab
    (the popup) is answered with the script's isCapturing flag, the start
    time as an ISO string (null before the first session) and the number
    of entries; a query from a content script is answered with the same
    start time and count, and its isCapturing field is true exactly when
    a session is recording and the asking tab is the one bound to it: the
    binding is folded into isCapturing and has no field of its own.  The
    query changes nothing and makes no call. *)
Theorem getState_contract (s : state) (now : Z) :
  (reply_isCapturing (getState None s) = isCapturing s
   /\ reply_startTime (getState None s) = option_map toISOString (captureStartTime s)
   /\ reply_entryCount (getState None s) = Z.of_nat (length (capturedText s)))
  /\ (forall tab : Z,
        (reply_isCapturing (getState (Some tab) s) = true
         <-> isCapturing s = true /\ activeTabId s = Some tab)
        /\ reply_startTime (getState (Some tab) s)
           = option_map toISOString (captureStartTime s)
        /\ reply_entryCount (getState (Some tab) s)
           = Z.of_nat (length (capturedText s)))
  /\ (forall sender_tab : option Z,
        onMessage sender_tab GetState now s = (s, [], [], Some (getState sender_tab s))).
Proof.
  split; [repeat split |].
  split; [| reflexivity].
  intros tab. split; [| split; reflexivity].
  cbn [getState reply_isCapturing same_tab].
  destruct (isCapturing s), (activeTabId s) as [active |]; cbn.
  - destruct (Z.eqb_spec tab active) as [-> | Hne].
    + tauto.
    + split; [discriminate | intros [_ Heq]; congruence].
  - split; [discriminate | intros [_ Heq]; discriminate].
  - split; [discriminate | intros [Heq _]; discriminate].
  - split; [discriminate | intros [Heq _]; discriminate].
Qed.

(** *** Submitting an entry *)

(** The second gate of the handler: a fingerprint that is in the index
    ends the call. *)
Lemma captureText_seen (sender_tab : option Z) (e : entry) (now : Z) (s : state) :
  fingerprint (text e) ∈ seenHashes s ->
  captureText sender_tab e now s = (s, [], []).
Proof.
  intros Hseen. unfold Background.captureText.
  destruct (negb (isCapturing s)); [reflexivity |].
  destruct (negb (same_tab sender_tab (activeTabId s))); [reflexivity |].
  unfold Set_has. rewrite bool_decide_eq_true_2 by exact Hseen. reflexivity.
Qed.

Lemma captureText_idle (sender_tab : option Z) (e : entry) (now : Z) (s : state) :
  isCapturing s = false ->
  captureText sender_tab e now s = (s, [], []).
Proof. intros Hoff. unfold Background.captureText. rewrite Hoff. reflexivity. Qed.

(** C10. A duplicate bypasses the budget check: when the fingerprint of
    the submitted entry is already in the dedupe index, the handler
    returns before the size comparison.  The entry list, the dedupe index
    and the cumulative size stay as they were, no call is made and no
    auto-stop is started, whatever the size of the entry and of the
    session. *)
Theorem duplicate_bypasses_budget (sender_tab : option Z) (e : entry) (now : Z) (s : state) :
  fingerprint (text e) ∈ seenHashes s ->
  captureText sender_tab e now s = (s, [], [])
  /\ onMessage sender_tab (CaptureText e) now s = (s, [], [], None).
Proof.
  intros Hseen.
  pose proof (captureText_seen sender_tab e now s Hseen) as Hsame.
  split; [exact Hsame |].
  cbn [Background.onMessage]. rewrite Hsame. reflexivity.
Qed.

(** The handler, once the three gates are passed. *)
Lemma captureText_fresh (tab : Z) (e : entry) (now : Z) (s : state) :
  isCapturing s = true ->
  activeTabId s = Some tab ->
  fingerprint (text e) ∉ seenHashes s ->
  captureText (Some tab) e now s
  = let s1 := remember (fingerprint (text e)) s in
    let entrySize := String_length (text e) * 2 in
    if currentCaptureSize s + entrySize >? MAX_CAPTURE_SIZE
    then autoStopCapture size_limit_reason now s1
    else (accept_entry e entrySize s1,
          [TabsSend tab (UpdateCount (Z.of_nat (length (capturedText s ++ [e]))))],
          []).
Proof.
  intros Hrec Htab Hfresh. unfold Background.captureText.
  rewrite Hrec, Htab. cbn [negb same_tab]. rewrite Z.eqb_refl. cbn [negb].
  unfold Set_has. rewrite bool_decide_eq_false_2 by exact Hfresh. reflexivity.
Qed.

Lemma same_tab_true (sender_tab active : option Z) :
  same_tab sender_tab active = true ->
  exists tab, sender_tab = Some tab /\ active = Some tab.
Proof.
  destruct sender_tab as [a |], active as [b |]; cbn; try discriminate.
  intros Heq. apply Z.eqb_eq in Heq. subst. eauto.
Qed.

Lemma size_limit_reason_text : size_limit_reason = lit "Size limit reached (10MB)".
Proof. reflexivity. Qed.

Lemma saveCapture_Some (s : state) (now : Z) :
  captureStartTime s <> None ->
  exists content,
    formatOutput s now = Some content
    /\ content <> []
    /\ saveCapture s now
       = Some (match capturedText s with
               | [] => []
               | _ :: _ => [DownloadCapture content (generateFilename now)]
               end).
Proof.
  intros Hstart. unfold Background.saveCapture, Background.formatOutput.
  destruct (captureStartTime s) as [start |]; [| congruence].
  eexists. split; [reflexivity |].
  set (body := join nl _).
  split; [discriminate |].
  cbn. destruct (capturedText s); reflexivity.
Qed.

Lemma stopCapture_finish_reset (s : state) (now : Z) :
  captureStartTime s <> None ->
  isCapturing s = false ->
  exists content,
    formatOutput s now = Some content
    /\ stopCapture_finish true now s
       = (reset_of s,
          match capturedText s with
          | [] => []
          | _ :: _ => [DownloadCapture content (generateFilename now)]
          end).
Proof.
  intros Hstart Hstopped.
  destruct (saveCapture_Some s now Hstart) as (content & Hfmt & _ & Hsave).
  exists content. split; [exact Hfmt |].
  unfold Background.stopCapture_finish, reset_of. rewrite Hstopped.
  destruct (capturedText s) as [| e entries] eqn:Hentries; cbn.
  - reflexivity.
  - rewrite Hsave. reflexivity.
Qed.

Lemma stop_to_end_recording (now later : Z) (s : state) :
  isCapturing s = true ->
  captureStartTime s <> None ->
  exists notices saved_at content,
    stop_to_end now later s
    = (reset_of s,
       notices ++ match capturedText s with
                  | [] => []
                  | _ :: _ => [DownloadCapture content (generateFilename saved_at)]
                  end)
    /\ formatOutput (stopped s) saved_at = Some content
    /\ (saved_at = now \/ saved_at = later)
    /\ Forall (fun c => is_download c = false) notices.
Proof.
  intros Hrec Hstart. unfold Background.stop_to_end, Background.stopCapture.
  rewrite Hrec. cbn [negb].
  destruct (truthy_tab (activeTabId (stopped s))) as [tab |] eqn:Htab.
  - destruct (stopCapture_finish_reset (stopped s) later Hstart eq_refl)
      as (content & Hfmt & Hfin).
    exists [NotifyStateChanged false; SetBadgeText [] tab; TabsSend tab Stop], later, content.
    unfold Background.settle_all. cbn [length Nat.mul Nat.add Background.settle Background.resume].
    rewrite Hfin. cbn [app Background.settle].
    split; [| split; [exact Hfmt | split; [right; reflexivity | repeat constructor]]].
    cbn [app]. rewrite ?app_nil_r. reflexivity.
  - destruct (stopCapture_finish_reset (stopped s) now Hstart eq_refl)
      as (content & Hfmt & Hfin).
    exists [NotifyStateChanged false], now, content.
    rewrite Hfin. unfold Background.settle_all. cbn [length Nat.mul Nat.add Background.settle].
    split; [| split; [exact Hfmt | split; [left; reflexivity | repeat constructor]]].
    cbn [app]. rewrite ?app_nil_r. reflexivity.
Qed.

Lemma activeTabId_remember (h : jsstring) (s : state) :
  activeTabId (remember h s) = activeTabId s.
Proof. reflexivity. Qed.

Lemma reset_of_stopped (s : state) : reset_of (stopped s) = reset_of s.
Proof. reflexivity. Qed.

Lemma reset_of_remember (h : jsstring) (s : state) : reset_of (remember h s) = reset_of s.
Proof. reflexivity. Qed.

(** An auto-stop, run on past its [await]s, ends in the reset state. *)
Lemma autoStop_to_end (reason : jsstring) (now later : Z) (s : state) :
  isCapturing s = true ->
  captureStartTime s <> None ->
  fst (settle_all (snd (autoStopCapture reason now s)) later
                  (fst (fst (autoStopCapture reason now s))))
  = reset_of s.
Proof.
  intros Hrec Hstart. unfold Background.autoStopCapture.
  destruct (truthy_tab (activeTabId s)) as [tab |] eqn:Htab.
  - cbn [fst snd]. unfold Background.settle_all.
    cbn [length Nat.mul Nat.add Background.settle Background.resume].
    unfold Background.stopCapture. rewrite Hrec. cbn [negb].
    change (activeTabId (stopped s)) with (activeTabId s). rewrite Htab.
    cbn [app Background.settle Background.resume].
    destruct (stopCapture_finish_reset (stopped s) later Hstart eq_refl)
      as (content & _ & ->).
    reflexivity.
  - destruct (stop_to_end_recording now later s Hrec Hstart)
      as (notices & saved_at & content & Hend & _).
    unfold Background.stop_to_end in Hend.
    destruct (stopCapture now s) as [[s1 effs1] spawned1].
    cbn [fst snd].
    destruct (settle_all spawned1 later s1) as [s2 effs2].
    cbn [fst]. congruence.
Qed.

(** C1. Budget enforcement: while recording, when an entry that would
    otherwise be admitted (sent by the active tab, fingerprint not yet in
    the dedupe index) has an approximate cost, two bytes per character,
    that would take the cumulative size over MAX_CAPTURE_SIZE (10 MB), the
    handler calls autoStopCapture instead of admitting it.  The entry is
    not appended to the entry list (the list is left as it was, or is
    already emptied when the stop runs at once), no updated count is
    sent, and with a tab to notify the handler leaves the auto-stop notice
    sent and the rest of the stop pending; once that has run, the session
    is stopped and reset. *)
Theorem budget_enforcement (sender_tab : option Z) (e : entry) (now later : Z) (s : state) :
  isCapturing s = true ->
  same_tab sender_tab (activeTabId s) = true ->
  fingerprint (text e) ∉ seenHashes s ->
  currentCaptureSize s + String_length (text e) * 2 > MAX_CAPTURE_SIZE ->
  captureText sender_tab e now s
  = autoStopCapture size_limit_reason now (remember (fingerprint (text e)) s)
  /\ (let '(s', effs, spawned) := captureText sender_tab e now s in
      (capturedText s' = capturedText s \/ capturedText s' = [])
      /\ (forall tab count, ~ In (TabsSend tab (UpdateCount count)) effs)
      /\ (forall tab, truthy_tab (activeTabId s) = Some tab ->
            s' = remember (fingerprint (text e)) s
            /\ effs = [TabsSend tab (AutoStopped size_limit_reason)]
            /\ spawned = [AfterAutoStopNotice])
      /\ (captureStartTime s <> None ->
            fst (settle_all spawned later s') = reset_of s)).
Proof.
  intros Hrec Htab Hfresh Hover.
  destruct (same_tab_true _ _ Htab) as (tab & -> & Hactive).
  assert (Hcall : captureText (Some tab) e now s
                  = autoStopCapture size_limit_reason now
                      (remember (fingerprint (text e)) s)).
  { rewrite (captureText_fresh tab e now s Hrec Hactive Hfresh). cbv zeta.
    destruct (currentCaptureSize s + String_length (text e) * 2 >? MAX_CAPTURE_SIZE)
      eqn:Hcmp; [reflexivity | lia]. }
  split; [exact Hcall |].
  pose proof (autoStop_to_end size_limit_reason now later
                (remember (fingerprint (text e)) s) Hrec) as Hend.
  rewrite Hcall. clear Hcall.
  unfold Background.autoStopCapture in *.
  change (activeTabId (remember (fingerprint (text e)) s)) with (activeTabId s) in *.
  destruct (truthy_tab (activeTabId s)) as [tab' |] eqn:Htruthy.
  - cbn [fst snd] in Hend.
    split; [left; reflexivity |].
    split; [intros t c [Heq | []]; discriminate |].
    split; [intros t [= <-]; repeat split |].
    intros Hstart. apply Hend. exact Hstart.
  - unfold Background.stopCapture in *.
    change (isCapturing (remember (fingerprint (text e)) s)) with (isCapturing s) in *.
    rewrite Hrec in *. cbn [negb] in *.
    change (activeTabId (stopped (remember (fingerprint (text e)) s)))
      with (activeTabId s) in *.
    rewrite Htruthy in *.
    unfold Background.stopCapture_finish in *. rewrite andb_true_l in *.
    change (capturedText (stopped (remember (fingerprint (text e)) s)))
      with (capturedText s) in *.
    destruct (if negb (Nat.eqb (length (capturedText s)) 0)
              then saveCapture (stopped (remember (fingerprint (text e)) s)) now
              else Some []) as [saved |] eqn:Hsaved.
    + cbn [fst snd] in Hend.
      split; [right; reflexivity |].
      split.
      { intros t c [Heq | Hin]; [discriminate |].
        unfold Background.saveCapture in Hsaved.
        destruct (negb (Nat.eqb (length (capturedText s)) 0)).
        - destruct (formatOutput _ now) as [content |]; [| discriminate].
          destruct content, (capturedText (stopped (remember (fingerprint (text e)) s)));
            injection Hsaved as <-; cbn in Hin; intuition discriminate.
        - injection Hsaved as <-. destruct Hin. }
      split; [intros t [=] |].
      intros Hstart. apply Hend. exact Hstart.
    + cbn [fst snd] in Hend.
      split; [left; reflexivity |].
      split; [intros t c [Heq | []]; discriminate |].
      split; [intros t [=] |].
      intros Hstart. apply Hend. exact Hstart.
Qed.

(** *** Invariants of the event loop *)

Lemma total_cost_app (l1 l2 : list entry) :
  total_cost (l1 ++ l2) = total_cost l1 + total_cost l2.
Proof.
  induction l1 as [| e l1 IH]; cbn [app total_cost fold_right]; [reflexivity |].
  fold (total_cost (l1 ++ l2)). fold (total_cost l1). lia.
Qed.

Lemma String_length_nonneg (t : jsstring) : 0 <= String_length t.
Proof. unfold String_length. lia. Qed.

Lemma consistent_initial : consistent initial_state.
Proof.
  constructor; cbn.
  - constructor.
  - intros x [].
  - reflexivity.
  - unfold MAX_CAPTURE_SIZE. lia.
  - tauto.
Qed.

Lemma consistent_started (tabId now : Z) :
  consistent {| isCapturing := true; captureStartTime := Some now; capturedText := [];
                seenHashes := ∅; activeTabId := Some tabId; currentCaptureSize := 0 |}.
Proof.
  constructor; cbn.
  - constructor.
  - intros x [].
  - reflexivity.
  - unfold MAX_CAPTURE_SIZE. lia.
  - discriminate.
Qed.

Lemma consistent_stopped (s : state) : consistent s -> consistent (stopped s).
Proof.
  intros [Hnd Hidx Hsize Hmax Hst]. constructor; cbn; try assumption.
  intros Hnone. destruct (Hst Hnone) as [_ Hempty]. split; [reflexivity | exact Hempty].
Qed.

Lemma consistent_remember (h : jsstring) (s : state) :
  consistent s -> consistent (remember h s).
Proof.
  intros [Hnd Hidx Hsize Hmax Hst]. constructor; cbn; try assumption.
  intros x Hin. apply elem_of_union_r. apply Hidx. exact Hin.
Qed.

Lemma consistent_reset (s : state) :
  consistent s ->
  consistent {| isCapturing := isCapturing s; captureStartTime := captureStartTime s;
                capturedText := []; seenHashes := ∅; activeTabId := None;
                currentCaptureSize := 0 |}.
Proof.
  intros [Hnd Hidx Hsize Hmax Hst]. constructor; cbn.
  - constructor.
  - intros x [].
  - reflexivity.
  - unfold MAX_CAPTURE_SIZE. lia.
  - intros Hnone. destruct (Hst Hnone) as [Hoff _]. split; [exact Hoff | reflexivity].
Qed.

Lemma consistent_accept (e : entry) (s : state) :
  consistent s ->
  isCapturing s = true ->
  fingerprint (text e) ∉ seenHashes s ->
  currentCaptureSize s + String_length (text e) * 2 <= MAX_CAPTURE_SIZE ->
  consistent (accept_entry e (String_length (text e) * 2)
                (remember (fingerprint (text e)) s)).
Proof.
  intros [Hnd Hidx Hsize Hmax Hst] Hrec Hfresh Hfits. constructor; cbn.
  - rewrite map_app. cbn [List.map].
    apply NoDup_app. split; [exact Hnd |]. split.
    + intros h Hin Hin'. apply list_elem_of_singleton in Hin'. subst h.
      apply Hfresh. apply list_elem_of_In in Hin. apply in_map_iff in Hin.
      destruct Hin as (x & Hx & Hin). rewrite <- Hx. apply Hidx. exact Hin.
    + apply NoDup_singleton.
  - intros x Hin. apply in_app_iff in Hin. destruct Hin as [Hin | [<- | []]].
    + apply elem_of_union_r. apply Hidx. exact Hin.
    + apply elem_of_union_l. apply elem_of_singleton. reflexivity.
  - rewrite total_cost_app. cbn [total_cost fold_right]. unfold entry_cost.
    fold (total_cost (capturedText s)). lia.
  - exact Hfits.
  - intros Hnone. destruct (Hst Hnone) as [Hoff _]. congruence.
Qed.

Lemma consistent_recording_started (s : state) :
  consistent s -> isCapturing s = true -> captureStartTime s <> None.
Proof.
  intros Hc Hrec Hnone. destruct (started_when_used s Hc Hnone) as [Hoff _]. congruence.
Qed.

Lemma consistent_used_started (s : state) :
  consistent s -> capturedText s <> [] -> captureStartTime s <> None.
Proof.
  intros Hc Hused Hnone. destruct (started_when_used s Hc Hnone) as [_ Hempty]. congruence.
Qed.

(** The end of [stopCapture] always reaches the reset when the state is
    consistent. *)
Lemma stopCapture_finish_consistent (w : bool) (now : Z) (s : state) :
  consistent s ->
  exists effs,
    stopCapture_finish w now s
    = ({| isCapturing := isCapturing s; captureStartTime := captureStartTime s;
          capturedText := []; seenHashes := ∅; activeTabId := None;
          currentCaptureSize := 0 |}, effs).
Proof.
  intros Hc. unfold Background.stopCapture_finish.
  destruct (w && negb (Nat.eqb (length (capturedText s)) 0)) eqn:Hsave.
  - apply andb_true_iff in Hsave. destruct Hsave as [_ Hused].
    assert (Hne : capturedText s <> []).
    { intros Hnil. rewrite Hnil in Hused. discriminate. }
    destruct (saveCapture_Some s now (consistent_used_started s Hc Hne))
      as (content & _ & _ & ->).
    eauto.
  - eauto.
Qed.

(** What [stopCapture] leaves, up to its [await]. *)
Lemma stopCapture_settled (now : Z) (s : state) :
  consistent s ->
  let '(s', effs, spawned) := stopCapture now s in
  consistent s'
  /\ isCapturing s' = false
  /\ (isCapturing s = false -> s' = s /\ spawned = [])
  /\ (isCapturing s = true -> currentCaptureSize s' = 0 \/ stop_in_flight spawned).
Proof.
  intros Hc. unfold Background.stopCapture.
  destruct (isCapturing s) eqn:Hrec; cbn [negb].
  - destruct (truthy_tab (activeTabId (stopped s))) as [tab |].
    + split; [apply consistent_stopped; exact Hc |].
      split; [reflexivity |]. split; [discriminate |].
      intros _. right. exists true. left. reflexivity.
    + destruct (stopCapture_finish_consistent true now (stopped s)
                  (consistent_stopped s Hc)) as (effs & ->).
      split; [apply (consistent_reset (stopped s)), consistent_stopped; exact Hc |].
      split; [reflexivity |]. split; [discriminate |].
      intros _. left. reflexivity.
  - split; [exact Hc |]. split; [exact Hrec |]. split; [tauto | discriminate].
Qed.

(** What the [captureText] handler leaves. *)
Lemma captureText_settled (sender_tab : option Z) (e : entry) (now : Z) (s : state) :
  consistent s ->
  let '(s', effs, spawned) := captureText sender_tab e now s in
  consistent s'
  /\ (isCapturing s = false -> s' = s /\ spawned = [])
  /\ (isCapturing s' = true -> isCapturing s = true
                               /\ currentCaptureSize s <= currentCaptureSize s')
  /\ (isCapturing s = true -> isCapturing s' = false ->
      currentCaptureSize s' = 0 \/ stop_in_flight spawned).
Proof.
  intros Hc. unfold Background.captureText.
  destruct (isCapturing s) eqn:Hrec; cbn [negb];
    [| split; [exact Hc | split; [tauto | split; [congruence | discriminate]]]].
  destruct (negb (same_tab sender_tab (activeTabId s)));
    [split; [exact Hc | split; [discriminate | split; [intros _; split; [reflexivity | lia] | congruence]]] |].
  destruct (Set_has (fingerprint (text e)) (seenHashes s)) eqn:Hseen;
    [split; [exact Hc | split; [discriminate | split; [intros _; split; [reflexivity | lia] | congruence]]] |].
  apply bool_decide_eq_false in Hseen.
  change (currentCaptureSize (remember (fingerprint (text e)) s))
    with (currentCaptureSize s).
  destruct (currentCaptureSize s + String_length (text e) * 2 >? MAX_CAPTURE_SIZE) eqn:Hcmp.
  - unfold Background.autoStopCapture.
    change (activeTabId (remember (fingerprint (text e)) s)) with (activeTabId s).
    destruct (truthy_tab (activeTabId s)) as [tab |].
    + split; [apply consistent_remember; exact Hc |].
      split; [discriminate |].
      split; [intros _; split; [reflexivity | cbn; lia] |].
      cbn. congruence.
    + pose proof (stopCapture_settled now (remember (fingerprint (text e)) s)
                    (consistent_remember _ s Hc)) as Hstop.
      destruct (stopCapture now (remember (fingerprint (text e)) s))
        as [[s' effs] spawned].
      destruct Hstop as (Hc' & Hoff & _ & Hzero).
      split; [exact Hc' |]. split; [discriminate |].
      split; [congruence |].
      intros _ _. apply Hzero. exact Hrec.
  - split; [apply consistent_accept; [exact Hc | exact Hrec | exact Hseen | lia] |].
    split; [discriminate |].
    split; [intros _; split; [reflexivity |] | cbn; congruence].
    cbn. pose proof (String_length_nonneg (text e)). lia.
Qed.

Lemma stop_in_flight_app_l (waiting spawned : list task) :
  stop_in_flight waiting -> stop_in_flight (waiting ++ spawned).
Proof. intros [w Hin]. exists w. apply in_or_app. left. exact Hin. Qed.

Lemma stop_in_flight_app_r (waiting spawned : list task) :
  stop_in_flight spawned -> stop_in_flight (waiting ++ spawned).
Proof. intros [w Hin]. exists w. apply in_or_app. right. exact Hin. Qed.

Lemma in_delete_other (x y : task) (i : nat) (l : list task) :
  In x l -> l !! i = Some y -> x <> y -> In x (delete i l).
Proof.
  revert i. induction l as [| z l IH]; intros i Hin Hlook Hne; [destruct Hin |].
  destruct i as [| i]; cbn in Hlook |- *.
  - injection Hlook as ->. destruct Hin as [-> | Hin]; [congruence | exact Hin].
  - destruct Hin as [-> | Hin]; [left; reflexivity | right].
    apply (IH i Hin Hlook Hne).
Qed.

(** A stopped session stays accounted for when functions are added to
    the suspended ones. *)
Lemma reset_or_waiting (size : Z) (waiting spawned : list task) :
  size = 0 \/ stop_in_flight waiting ->
  size = 0 \/ stop_in_flight (waiting ++ spawned).
Proof.
  intros [Hz | Hfl]; [left; exact Hz | right; apply stop_in_flight_app_l; exact Hfl].
Qed.

Lemma reset_or_spawned (size : Z) (waiting spawned : list task) :
  size = 0 \/ stop_in_flight spawned ->
  size = 0 \/ stop_in_flight (waiting ++ spawned).
Proof.
  intros [Hz | Hfl]; [left; exact Hz | right; apply stop_in_flight_app_r; exact Hfl].
Qed.

Lemma toggle_settled (tabId now : Z) (s : state) :
  consistent s ->
  let '(s', effs, spawned) := toggle tabId now s in
  consistent s'
  /\ (isCapturing s' = false ->
      (isCapturing s = false /\ s' = s /\ spawned = [])
      \/ currentCaptureSize s' = 0 \/ stop_in_flight spawned).
Proof.
  intros Hc. unfold Background.toggle, Background.startCapture.
  destruct (isCapturing s) eqn:Hrec; cbn [negb].
  - pose proof (stopCapture_settled now s Hc) as Hstop.
    destruct (stopCapture now s) as [[s' effs] spawned].
    destruct Hstop as (Hc' & _ & _ & Hzero).
    split; [exact Hc' |]. intros _. right. apply Hzero. exact Hrec.
  - split; [apply consistent_started |]. cbn. discriminate.
Qed.

(** The event leaves the variables and the suspended functions alone. *)
Ltac unchanged Hc Hoff :=
  cbn; split; [exact Hc |];
  let Hstopped := fresh "Hstopped" in
  intros Hstopped; apply reset_or_waiting, Hoff; exact Hstopped.

(** Every run of the event loop keeps the variables consistent, and
    leaves a stopped session either reset or with its reset pending. *)
Lemma step_settled (sys : system) (ev : event) (now : Z) :
  settled sys -> settled (step sys ev now).
Proof.
  intros [Hc Hoff]. unfold settled, Background.step, Background.handle.
  assert (Htoggle : forall tabId,
             let '(s', effs, spawned) := toggle tabId now (vars sys) in
             consistent s'
             /\ (isCapturing s' = false ->
                 currentCaptureSize s' = 0
                 \/ stop_in_flight (suspended sys ++ spawned))).
  { intros tabId. pose proof (toggle_settled tabId now (vars sys) Hc) as Ht.
    destruct (toggle tabId now (vars sys)) as [[s' effs] spawned].
    destruct Ht as [Hc' Hcase]. split; [exact Hc' |]. intros Hstopped.
    destruct (Hcase Hstopped) as [(Hwas & -> & ->) | Hnew].
    - apply reset_or_waiting, Hoff. exact Hwas.
    - apply reset_or_spawned. exact Hnew. }
  destruct ev as [sender_tab m | [tabId |] | tabId | i].
  - destruct m as [| tabId | e | imageUrl filename]; cbn [Background.onMessage].
    + unchanged Hc Hoff.
    + specialize (Htoggle tabId).
      destruct (toggle tabId now (vars sys)) as [[s' effs] spawned]. exact Htoggle.
    + pose proof (captureText_settled sender_tab e now (vars sys) Hc) as Ht.
      destruct (captureText sender_tab e now (vars sys)) as [[s' effs] spawned].
      destruct Ht as (Hc' & Hidle & Hmono & Hzero). cbn.
      split; [exact Hc' |]. intros Hstopped.
      destruct (isCapturing (vars sys)) eqn:Hrec.
      * apply reset_or_spawned. apply Hzero; [reflexivity | exact Hstopped].
      * destruct (Hidle eq_refl) as [-> ->]. apply reset_or_waiting, Hoff. reflexivity.
    + unchanged Hc Hoff.
  - specialize (Htoggle tabId).
    destruct (toggle tabId now (vars sys)) as [[s' effs] spawned]. exact Htoggle.
  - unchanged Hc Hoff.
  - destruct (isCapturing (vars sys) && same_tab (Some tabId) (activeTabId (vars sys)))
      eqn:Hbound; [| unchanged Hc Hoff].
    apply andb_true_iff in Hbound. destruct Hbound as [Hrec _].
    pose proof (stopCapture_settled now (vars sys) Hc) as Hstop.
    destruct (stopCapture now (vars sys)) as [[s' effs] spawned].
    destruct Hstop as (Hc' & _ & _ & Hzero). cbn.
    split; [exact Hc' |]. intros _. apply reset_or_spawned, Hzero. exact Hrec.
  - destruct (suspended sys !! i) as [t |] eqn:Hlook; [| unchanged Hc Hoff].
    destruct t as [| w]; cbn [Background.resume].
    + pose proof (stopCapture_settled now (vars sys) Hc) as Hstop.
      destruct (stopCapture now (vars sys)) as [[s' effs] spawned].
      destruct Hstop as (Hc' & _ & Hidle & Hzero). cbn.
      split; [exact Hc' |]. intros Hstopped.
      destruct (isCapturing (vars sys)) eqn:Hrec.
      * apply reset_or_spawned, Hzero. reflexivity.
      * destruct (Hidle eq_refl) as [-> ->].
        destruct (Hoff eq_refl) as [Hz | [w Hin]]; [left; exact Hz |].
        right. apply stop_in_flight_app_l. exists w.
        apply (in_delete_other _ _ _ _ Hin Hlook). discriminate.
    + destruct (stopCapture_finish_consistent w now (vars sys) Hc) as (effs & ->).
      cbn. split; [apply consistent_reset; exact Hc |]. intros _. left. reflexivity.
Qed.

Lemma run_app (sys : system) (evs1 evs2 : list (event * Z)) :
  run sys (evs1 ++ evs2) = run (run sys evs1) evs2.
Proof. unfold Background.run. apply fold_left_app. Qed.

Lemma run_settled (sys : system) (evs : list (event * Z)) :
  settled sys -> settled (run sys evs).
Proof.
  revert sys. induction evs as [| [ev now] evs IH]; intros sys Hs; [exact Hs |].
  cbn. apply IH. apply step_settled. exact Hs.
Qed.

Lemma boot_settled : settled boot.
Proof. split; [apply consistent_initial | intros _; left; reflexivity]. Qed.

Lemma reachable_consistent (evs : list (event * Z)) : consistent (vars (run boot evs)).
Proof. apply (run_settled boot evs boot_settled). Qed.

(** *** Deduplication *)

(** After a submission from the active tab, the fingerprint is in the
    index unless the session has stopped. *)
Lemma captureText_indexes (tab : Z) (e : entry) (now : Z) (s : state) :
  isCapturing s = true ->
  activeTabId s = Some tab ->
  let s1 := fst (fst (captureText (Some tab) e now s)) in
  isCapturing s1 = false \/ fingerprint (text e) ∈ seenHashes s1.
Proof.
  intros Hrec Hactive.
  destruct (decide (fingerprint (text e) ∈ seenHashes s)) as [Hseen | Hfresh].
  - rewrite (captureText_seen _ _ _ _ Hseen). right. exact Hseen.
  - rewrite (captureText_fresh tab e now s Hrec Hactive Hfresh). cbv zeta.
    destruct (currentCaptureSize s + String_length (text e) * 2 >? MAX_CAPTURE_SIZE).
    + unfold Background.autoStopCapture.
      change (activeTabId (remember (fingerprint (text e)) s)) with (activeTabId s).
      destruct (truthy_tab (activeTabId s)).
      * right. cbn. apply elem_of_union_l, elem_of_singleton. reflexivity.
      * left. unfold Background.stopCapture.
        change (isCapturing (remember (fingerprint (text e)) s)) with (isCapturing s).
        rewrite Hrec. cbn [negb].
        change (activeTabId (stopped (remember (fingerprint (text e)) s)))
          with (activeTabId s).
        destruct (truthy_tab (activeTabId s)); [reflexivity |].
        unfold Background.stopCapture_finish.
        destruct (true && negb _); [| reflexivity].
        destruct (saveCapture _ now); reflexivity.
    + right. cbn. apply elem_of_union_l, elem_of_singleton. reflexivity.
Qed.

Lemma captureText_again (tab : Z) (e e' : entry) (now now' : Z) (s : state) :
  isCapturing s = true ->
  activeTabId s = Some tab ->
  fingerprint (text e') = fingerprint (text e) ->
  let s1 := fst (fst (captureText (Some tab) e now s)) in
  captureText (Some tab) e' now' s1 = (s1, [], []).
Proof.
  intros Hrec Hactive Hsame s1.
  destruct (captureText_indexes tab e now s Hrec Hactive) as [Hoff | Hseen].
  - apply captureText_idle. exact Hoff.
  - apply captureText_seen. rewrite Hsame. exact Hseen.
Qed.

Lemma retained_at_most_one (h : jsstring) (s : state) :
  consistent s -> (retained h s <= 1)%nat.
Proof.
  intros Hc. pose proof (fingerprints_distinct s Hc) as Hnd.
  unfold retained. induction (capturedText s) as [| x l IH]; cbn; [lia |].
  apply NoDup_cons in Hnd. destruct Hnd as [Hnotin Hnd].
  destruct (bool_decide (fingerprint (text x) = h)) eqn:Hx; [| exact (IH Hnd)].
  apply bool_decide_eq_true in Hx. cbn.
  assert (Hnone : List.filter (fun y => bool_decide (fingerprint (text y) = h)) l = []).
  { clear IH Hnd. induction l as [| y l IHl]; cbn; [reflexivity |].
    destruct (bool_decide (fingerprint (text y) = h)) eqn:Hy.
    - apply bool_decide_eq_true in Hy. exfalso. apply Hnotin.
      cbn. rewrite Hy, Hx. apply list_elem_of_In. left. reflexivity.
    - apply IHl. intros Hin. apply Hnotin. cbn. apply list_elem_of_In. right.
      apply list_elem_of_In. exact Hin. }
  rewrite Hnone. cbn. lia.
Qed.

Lemma retained_fresh (h : jsstring) (s : state) :
  consistent s -> h ∉ seenHashes s -> retained h s = 0%nat.
Proof.
  intros Hc Hfresh. pose proof (fingerprints_indexed s Hc) as Hidx.
  unfold retained. induction (capturedText s) as [| x l IH]; cbn; [reflexivity |].
  destruct (bool_decide (fingerprint (text x) = h)) eqn:Hx.
  - apply bool_decide_eq_true in Hx. exfalso. apply Hfresh. rewrite <- Hx.
    apply Hidx. left. reflexivity.
  - apply IH. intros y Hin. apply Hidx. right. exact Hin.
Qed.

Lemma step_submission (sys : system) (sender_tab : option Z) (e : entry) (now : Z) :
  step sys (Message sender_tab (CaptureText e)) now
  = {| vars := fst (fst (captureText sender_tab e now (vars sys)));
       suspended := suspended sys ++ snd (captureText sender_tab e now (vars sys));
       calls := calls sys ++ snd (fst (captureText sender_tab e now (vars sys))) |}.
Proof.
  unfold Background.step, Background.handle, Background.onMessage.
  destruct (captureText sender_tab e now (vars sys)) as [[s' effs] spawned]. reflexivity.
Qed.

(** C2, as amended. Dedup idempotence: in any state the event loop can
    reach, while a session is recording, two submissions from the active
    tab whose texts have the same fingerprint (first 100 characters
    followed by the length) retain at most one entry with that
    fingerprint, and exactly one, the first of the two, when the first
    submission is admitted (its fingerprint is new and its cost fits the
    budget); the second submission changes nothing: not the entry list,
    not any other variable, no call, nothing suspended. *)
Theorem dedup_idempotence
    (evs : list (event * Z)) (tab : Z) (e e' : entry) (now now' : Z) :
  isCapturing (vars (run boot evs)) = true ->
  activeTabId (vars (run boot evs)) = Some tab ->
  fingerprint (text e') = fingerprint (text e) ->
  let sys := run boot evs in
  let sys1 := step sys (Message (Some tab) (CaptureText e)) now in
  let sys2 := step sys1 (Message (Some tab) (CaptureText e')) now' in
  sys2 = sys1
  /\ (retained (fingerprint (text e)) (vars sys2) <= 1)%nat
  /\ (fingerprint (text e) ∉ seenHashes (vars sys) ->
      currentCaptureSize (vars sys) + entry_cost e <= MAX_CAPTURE_SIZE ->
      capturedText (vars sys2) = capturedText (vars sys) ++ [e]
      /\ retained (fingerprint (text e)) (vars sys2) = 1%nat).
Proof.
  intros Hrec Hactive Hsame sys sys1 sys2.
  assert (Hsecond : sys2 = sys1).
  { subst sys2. rewrite step_submission.
    assert (Hnoop : captureText (Some tab) e' now' (vars sys1) = (vars sys1, [], [])).
    { subst sys1. rewrite step_submission. cbn [vars].
      apply (captureText_again tab e e' now now' (vars sys) Hrec Hactive Hsame). }
    rewrite Hnoop. cbn [fst snd]. rewrite !app_nil_r. destruct sys1; reflexivity. }
  split; [exact Hsecond |].
  rewrite Hsecond.
  assert (Hc1 : consistent (vars sys1)).
  { subst sys1 sys. change (Message (Some tab) (CaptureText e), now).1
      with (fst (Message (Some tab) (CaptureText e), now)).
    pose proof (reachable_consistent (evs ++ [(Message (Some tab) (CaptureText e), now)]))
      as Hc.
    rewrite run_app in Hc. exact Hc. }
  split; [apply retained_at_most_one; exact Hc1 |].
  intros Hfresh Hfits.
  assert (Hentries : capturedText (vars sys1) = capturedText (vars sys) ++ [e]).
  { subst sys1. rewrite step_submission. cbn [vars].
    rewrite (captureText_fresh tab e now (vars sys) Hrec Hactive Hfresh). cbv zeta.
    unfold entry_cost in Hfits.
    destruct (currentCaptureSize (vars sys) + String_length (text e) * 2
              >? MAX_CAPTURE_SIZE) eqn:Hcmp; [lia | reflexivity]. }
  split; [exact Hentries |].
  unfold retained. rewrite Hentries, List.filter_app, length_app.
  pose proof (retained_fresh _ (vars sys) (reachable_consistent evs) Hfresh) as Hold.
  unfold retained in Hold. fold sys in Hold. rewrite Hold. cbn [List.filter].
  rewrite bool_decide_eq_true_2 by reflexivity. reflexivity.
Qed.

(** *** Cumulative size *)

Lemma captureText_stop_resets (sender_tab : option Z) (e : entry) (now : Z) (s : state) :
  consistent s ->
  isCapturing s = true ->
  let s' := fst (fst (captureText sender_tab e now s)) in
  isCapturing s' = false -> currentCaptureSize s' = 0.
Proof.
  intros Hc Hrec. unfold Background.captureText. rewrite Hrec. cbn [negb].
  destruct (negb (same_tab sender_tab (activeTabId s))); [cbn; congruence |].
  destruct (Set_has (fingerprint (text e)) (seenHashes s)); [cbn; congruence |].
  change (currentCaptureSize (remember (fingerprint (text e)) s))
    with (currentCaptureSize s).
  destruct (currentCaptureSize s + String_length (text e) * 2 >? MAX_CAPTURE_SIZE);
    [| cbn; congruence].
  unfold Background.autoStopCapture.
  change (activeTabId (remember (fingerprint (text e)) s)) with (activeTabId s).
  destruct (truthy_tab (activeTabId s)) eqn:Htab; [cbn; congruence |].
  unfold Background.stopCapture.
  change (isCapturing (remember (fingerprint (text e)) s)) with (isCapturing s).
  rewrite Hrec. cbn [negb].
  change (activeTabId (stopped (remember (fingerprint (text e)) s)))
    with (activeTabId s).
  rewrite Htab.
  destruct (stopCapture_finish_consistent true now
              (stopped (remember (fingerprint (text e)) s))) as (effs & ->).
  { apply consistent_stopped, consistent_remember. exact Hc. }
  reflexivity.
Qed.

(** Across submissions only: the size grows while the session records,
    and a session that a submission has stopped is reset. *)
Lemma submissions_monotone (subs : list (option Z * entry * Z)) (sys : system) :
  consistent (vars sys) ->
  let sys' := run sys (List.map submission subs) in
  consistent (vars sys')
  /\ (isCapturing (vars sys') = true ->
      isCapturing (vars sys) = true
      /\ currentCaptureSize (vars sys) <= currentCaptureSize (vars sys'))
  /\ (isCapturing (vars sys) = true -> isCapturing (vars sys') = false ->
      currentCaptureSize (vars sys') = 0)
  /\ (isCapturing (vars sys) = false -> vars sys' = vars sys).
Proof.
  revert sys. induction subs as [| [[sender_tab e] now] subs IH]; intros sys Hc.
  - cbn. split; [exact Hc |]. split; [intros Hrec; split; [exact Hrec | lia] |].
    split; [congruence | reflexivity].
  - cbn [List.map Background.run fold_left submission fst snd].
    fold (run (step sys (Message sender_tab (CaptureText e)) now) (List.map submission subs)).
    pose proof (captureText_settled sender_tab e now (vars sys) Hc) as Hone.
    pose proof (captureText_stop_resets sender_tab e now (vars sys) Hc) as Hreset.
    pose proof (step_submission sys sender_tab e now) as Hstep.
    destruct (captureText sender_tab e now (vars sys)) as [[s1 effs] spawned].
    cbn [fst snd] in Hstep, Hreset.
    destruct Hone as (Hc1 & Hidle & Hmono & _).
    set (sys1 := step sys (Message sender_tab (CaptureText e)) now) in *.
    assert (Hvars : vars sys1 = s1) by (rewrite Hstep; reflexivity).
    rewrite <- Hvars in Hc1, Hidle, Hmono, Hreset.
    destruct (IH sys1 Hc1) as (Hc' & Hmono' & Hzero' & Hidle').
    split; [exact Hc' |].
    split.
    { intros Hrec'. destruct (Hmono' Hrec') as [Hrec1 Hle1].
      destruct (Hmono Hrec1) as [Hrec0 Hle0]. split; [exact Hrec0 | lia]. }
    split.
    { intros Hrec0 Hoff'.
      destruct (isCapturing (vars sys1)) eqn:Hrec1.
      - apply Hzero'; [reflexivity | exact Hoff'].
      - rewrite (Hidle' eq_refl). apply Hreset; [exact Hrec0 | reflexivity]. }
    intros Hoff0. rewrite (Hidle' (eq_trans (f_equal isCapturing (proj1 (Hidle Hoff0))) Hoff0)).
    exact (proj1 (Hidle Hoff0)).
Qed.

(** [stopCapture] on a recording session: with an active tab it stops,
    notifies and waits; without one it runs to its end. *)
Lemma stopCapture_recording (now : Z) (s : state) :
  consistent s -> isCapturing s = true ->
  match truthy_tab (activeTabId s) with
  | Some tab =>
      stopCapture now s
      = (stopped s, [NotifyStateChanged false; SetBadgeText [] tab; TabsSend tab Stop],
         [AfterStopNotice true])
  | None =>
      exists content,
        formatOutput s now = Some content
        /\ stopCapture now s
           = (reset_of s,
              NotifyStateChanged false
              :: match capturedText s with
                 | [] => []
                 | _ :: _ => [DownloadCapture content (generateFilename now)]
                 end,
              [])
  end.
Proof.
  intros Hc Hrec. unfold Background.stopCapture. rewrite Hrec. cbn [negb].
  change (activeTabId (stopped s)) with (activeTabId s).
  destruct (truthy_tab (activeTabId s)) as [tab |]; [reflexivity |].
  destruct (stopCapture_finish_reset (stopped s) now
              (consistent_recording_started s Hc Hrec) eq_refl) as (content & Hfmt & ->).
  exists content. split; [exact Hfmt |]. rewrite reset_of_stopped. reflexivity.
Qed.

(** What [stopCapture] leaves of the size of a recording session. *)
Lemma stopCapture_size (now : Z) (s : state) :
  consistent s -> isCapturing s = true ->
  let '(s', effs, spawned) := stopCapture now s in
  isCapturing s' = false
  /\ (currentCaptureSize s' = 0
      \/ (currentCaptureSize s' = currentCaptureSize s /\ stop_in_flight spawned)).
Proof.
  intros Hc Hrec. pose proof (stopCapture_recording now s Hc Hrec) as Hstop.
  destruct (truthy_tab (activeTabId s)) as [tab |].
  - rewrite Hstop. split; [reflexivity |]. right. split; [reflexivity |].
    exists true. left. reflexivity.
  - destruct Hstop as (content & _ & ->). split; [reflexivity | left; reflexivity].
Qed.

(** What a submission leaves of the size of a recording session. *)
Lemma captureText_size (sender_tab : option Z) (e : entry) (now : Z) (s : state) :
  consistent s -> isCapturing s = true ->
  let '(s', effs, spawned) := captureText sender_tab e now s in
  (isCapturing s' = true
   /\ currentCaptureSize s <= currentCaptureSize s'
   /\ Forall (fun t => t = AfterAutoStopNotice) spawned)
  \/ (isCapturing s' = false /\ currentCaptureSize s' = 0 /\ spawned = []).
Proof.
  intros Hc Hrec. unfold Background.captureText. rewrite Hrec. cbn [negb].
  destruct (negb (same_tab sender_tab (activeTabId s)));
    [left; split; [exact Hrec | split; [lia | constructor]] |].
  destruct (Set_has (fingerprint (text e)) (seenHashes s));
    [left; split; [exact Hrec | split; [lia | constructor]] |].
  change (currentCaptureSize (remember (fingerprint (text e)) s))
    with (currentCaptureSize s).
  destruct (currentCaptureSize s + String_length (text e) * 2 >? MAX_CAPTURE_SIZE).
  - unfold Background.autoStopCapture.
    change (activeTabId (remember (fingerprint (text e)) s)) with (activeTabId s).
    destruct (truthy_tab (activeTabId s)) as [tab |] eqn:Htab.
    + left. split; [exact Hrec |]. split; [cbn; lia | repeat constructor].
    + pose proof (stopCapture_recording now (remember (fingerprint (text e)) s)
                    (consistent_remember _ s Hc) Hrec) as Hstop.
      rewrite activeTabId_remember, Htab in Hstop.
      destruct Hstop as (content & _ & ->). right. repeat split.
  - left. split; [exact Hrec |]. split; [| constructor].
    cbn. pose proof (String_length_nonneg (text e)). lia.
Qed.

(** A submission stops the session only when the active tab id is falsy,
    and then the stop has run to its end. *)
Lemma captureText_stops (sender_tab : option Z) (e : entry) (now : Z) (s : state) :
  consistent s -> isCapturing s = true ->
  isCapturing (fst (fst (captureText sender_tab e now s))) = false ->
  truthy_tab (activeTabId s) = None
  /\ currentCaptureSize (fst (fst (captureText sender_tab e now s))) = 0.
Proof.
  intros Hc Hrec. unfold Background.captureText. rewrite Hrec. cbn [negb].
  destruct (negb (same_tab sender_tab (activeTabId s))); [intros Hoff; destruct (eq_true_false_abs _ Hrec Hoff) |].
  destruct (Set_has (fingerprint (text e)) (seenHashes s)); [intros Hoff; destruct (eq_true_false_abs _ Hrec Hoff) |].
  change (currentCaptureSize (remember (fingerprint (text e)) s))
    with (currentCaptureSize s).
  destruct (currentCaptureSize s + String_length (text e) * 2 >? MAX_CAPTURE_SIZE);
    [| intros Hoff; destruct (eq_true_false_abs _ Hrec Hoff)].
  unfold Background.autoStopCapture.
  change (activeTabId (remember (fingerprint (text e)) s)) with (activeTabId s).
  destruct (truthy_tab (activeTabId s)) as [tab |] eqn:Htab; [intros Hoff; destruct (eq_true_false_abs _ Hrec Hoff) |].
  pose proof (stopCapture_recording now (remember (fingerprint (text e)) s)
                (consistent_remember _ s Hc) Hrec) as Hstop.
  rewrite activeTabId_remember, Htab in Hstop.
  destruct Hstop as (content & _ & ->). intros _. split; reflexivity.
Qed.

Lemma stop_in_flight_spawned (waiting spawned : list task) :
  Forall (fun t => t = AfterAutoStopNotice) spawned ->
  stop_in_flight (waiting ++ spawned) -> stop_in_flight waiting.
Proof.
  intros Hall [w Hin]. apply in_app_or in Hin. destruct Hin as [Hin | Hin]; [exists w; exact Hin |].
  rewrite List.Forall_forall in Hall. specialize (Hall _ Hin). discriminate.
Qed.

Lemma in_delete (x : task) (i : nat) (l : list task) : In x (delete i l) -> In x l.
Proof.
  revert i. induction l as [| z l IH]; intros i Hin; [destruct i; exact Hin |].
  destruct i as [| i]; cbn in Hin; [right; exact Hin |].
  destruct Hin as [-> | Hin]; [left; reflexivity | right; exact (IH i Hin)].
Qed.

(** One event on a recording session.  If the session is still recording
    afterwards, the size has not decreased and no stop has been suspended,
    unless the event is the continuation of a stop that was suspended
    before; if the session is stopped afterwards, the size is zero, or it
    is what it was and the stop is suspended. *)
Lemma step_recording (sys : system) (ev : event) (now : Z) :
  consistent (vars sys) -> isCapturing (vars sys) = true ->
  let sys' := step sys ev now in
  (isCapturing (vars sys') = true ->
   (currentCaptureSize (vars sys) <= currentCaptureSize (vars sys')
    /\ (stop_in_flight (suspended sys') -> stop_in_flight (suspended sys)))
   \/ stop_in_flight (suspended sys))
  /\ (isCapturing (vars sys') = false ->
      currentCaptureSize (vars sys') = 0
      \/ (currentCaptureSize (vars sys') = currentCaptureSize (vars sys)
          /\ stop_in_flight (suspended sys'))).
Proof.
  intros Hc Hrec. cbv zeta. unfold Background.step, Background.handle.
  assert (Hsame : forall effs : list effect,
            let sys' := {| vars := vars sys; suspended := suspended sys ++ [];
                           calls := calls sys ++ effs |} in
            (isCapturing (vars sys') = true ->
             (currentCaptureSize (vars sys) <= currentCaptureSize (vars sys')
              /\ (stop_in_flight (suspended sys') -> stop_in_flight (suspended sys)))
             \/ stop_in_flight (suspended sys))
            /\ (isCapturing (vars sys') = false ->
                currentCaptureSize (vars sys') = 0
                \/ (currentCaptureSize (vars sys') = currentCaptureSize (vars sys)
                    /\ stop_in_flight (suspended sys')))).
  { intros effs. cbn. rewrite app_nil_r. split; [| congruence].
    intros _. left. split; [lia | tauto]. }
  assert (Hstop : forall waiting,
            let '(s', effs, spawned) := stopCapture now (vars sys) in
            let sys' := {| vars := s'; suspended := waiting ++ spawned;
                           calls := calls sys ++ effs |} in
            (isCapturing (vars sys') = true ->
             (currentCaptureSize (vars sys) <= currentCaptureSize (vars sys')
              /\ (stop_in_flight (suspended sys') -> stop_in_flight (suspended sys)))
             \/ stop_in_flight (suspended sys))
            /\ (isCapturing (vars sys') = false ->
                currentCaptureSize (vars sys') = 0
                \/ (currentCaptureSize (vars sys') = currentCaptureSize (vars sys)
                    /\ stop_in_flight (suspended sys')))).
  { intros waiting. pose proof (stopCapture_size now (vars sys) Hc Hrec) as Hsize.
    destruct (stopCapture now (vars sys)) as [[s' effs] spawned].
    destruct Hsize as [Hoff Hsize]. cbn. split; [congruence |].
    intros _. destruct Hsize as [Hzero | [Hkept Hfl]]; [left; exact Hzero |].
    right. split; [exact Hkept | apply stop_in_flight_app_r; exact Hfl]. }
  destruct ev as [sender_tab m | [tabId |] | tabId | i].
  - destruct m as [| tabId | e | imageUrl filename]; cbn [Background.onMessage].
    + apply (Hsame []).
    + unfold Background.toggle. rewrite Hrec. cbn [negb].
      specialize (Hstop (suspended sys)).
      destruct (stopCapture now (vars sys)) as [[s' effs] spawned]. exact Hstop.
    + pose proof (captureText_size sender_tab e now (vars sys) Hc Hrec) as Hsub.
      destruct (captureText sender_tab e now (vars sys)) as [[s' effs] spawned]. cbn.
      destruct Hsub as [(Hon & Hle & Hauto) | (Hoff & Hzero & ->)].
      * split; [| congruence]. intros _. left. split; [exact Hle |].
        apply stop_in_flight_spawned. exact Hauto.
      * split; [congruence |]. intros _. left. exact Hzero.
    + apply (Hsame [_]).
  - unfold Background.toggle. rewrite Hrec. cbn [negb].
    specialize (Hstop (suspended sys)).
    destruct (stopCapture now (vars sys)) as [[s' effs] spawned]. exact Hstop.
  - apply (Hsame []).
  - destruct (isCapturing (vars sys) && same_tab (Some tabId) (activeTabId (vars sys)));
      [| apply (Hsame [])].
    specialize (Hstop (suspended sys)).
    destruct (stopCapture now (vars sys)) as [[s' effs] spawned]. exact Hstop.
  - destruct (suspended sys !! i) as [t |] eqn:Hlook; [| apply (Hsame [])].
    destruct t as [| w]; cbn [Background.resume].
    + specialize (Hstop (delete i (suspended sys))).
      destruct (stopCapture now (vars sys)) as [[s' effs] spawned].
      cbn in Hstop |- *. destruct Hstop as [Hon Hoff]. split; [| exact Hoff].
      intros Hrec'. destruct (Hon Hrec') as [[Hle Hfl] | Hfl]; [| right; exact Hfl].
      left. split; [exact Hle | exact Hfl].
    + destruct (stopCapture_finish_consistent w now (vars sys) Hc) as (effs & ->). cbn.
      split; [| congruence]. intros _. right. exists w.
      apply (list_elem_of_In (suspended sys) (AfterStopNotice w)).
      apply (list_elem_of_lookup_2 _ i). exact Hlook.
Qed.

(** An event that stops a recording session.  With a truthy active tab
    id the size is what it was and [stopCapture] is suspended at its
    await; with a falsy one the size is zero. *)
Lemma step_stops (sys : system) (ev : event) (now : Z) :
  consistent (vars sys) -> isCapturing (vars sys) = true ->
  isCapturing (vars (step sys ev now)) = false ->
  match truthy_tab (activeTabId (vars sys)) with
  | Some _ =>
      currentCaptureSize (vars (step sys ev now)) = currentCaptureSize (vars sys)
      /\ stop_in_flight (suspended (step sys ev now))
  | None => currentCaptureSize (vars (step sys ev now)) = 0
  end.
Proof.
  intros Hc Hrec. unfold Background.step, Background.handle.
  assert (Hstop : forall waiting,
            let '(s', effs, spawned) := stopCapture now (vars sys) in
            let sys' := {| vars := s'; suspended := waiting ++ spawned;
                           calls := calls sys ++ effs |} in
            isCapturing (vars sys') = false ->
            match truthy_tab (activeTabId (vars sys)) with
            | Some _ =>
                currentCaptureSize (vars sys') = currentCaptureSize (vars sys)
                /\ stop_in_flight (suspended sys')
            | None => currentCaptureSize (vars sys') = 0
            end).
  { intros waiting. pose proof (stopCapture_recording now (vars sys) Hc Hrec) as Hstop.
    destruct (truthy_tab (activeTabId (vars sys))) as [tab |].
    - rewrite Hstop. cbn. intros _. split; [reflexivity |].
      apply stop_in_flight_app_r. exists true. left. reflexivity.
    - destruct Hstop as (content & _ & ->). cbn. intros _. reflexivity. }
  destruct ev as [sender_tab m | [tabId |] | tabId | i].
  - destruct m as [| tabId | e | imageUrl filename]; cbn [Background.onMessage].
    + cbn. congruence.
    + unfold Background.toggle. rewrite Hrec. cbn [negb].
      specialize (Hstop (suspended sys)).
      destruct (stopCapture now (vars sys)) as [[s' effs] spawned]. exact Hstop.
    + pose proof (captureText_stops sender_tab e now (vars sys) Hc Hrec) as Hsub.
      destruct (captureText sender_tab e now (vars sys)) as [[s' effs] spawned].
      cbn in Hsub |- *. intros Hoff. destruct (Hsub Hoff) as [-> Hzero]. exact Hzero.
    + cbn. congruence.
  - unfold Background.toggle. rewrite Hrec. cbn [negb].
    specialize (Hstop (suspended sys)).
    destruct (stopCapture now (vars sys)) as [[s' effs] spawned]. exact Hstop.
  - cbn. congruence.
  - destruct (isCapturing (vars sys) && same_tab (Some tabId) (activeTabId (vars sys)));
      [| cbn; congruence].
    specialize (Hstop (suspended sys)).
    destruct (stopCapture now (vars sys)) as [[s' effs] spawned]. exact Hstop.
  - destruct (suspended sys !! i) as [t |] eqn:Hlook; [| cbn; congruence].
    destruct t as [| w]; cbn [Background.resume].
    + specialize (Hstop (delete i (suspended sys))).
      destruct (stopCapture now (vars sys)) as [[s' effs] spawned]. exact Hstop.
    + destruct (stopCapture_finish_consistent w now (vars sys) Hc) as (effs & ->). cbn.
      congruence.
Qed.

(** Over a run on which the session is recording after every event, and
    at whose start no stop is suspended. *)
Lemma run_recording (evs : list (event * Z)) (sys : system) :
  settled sys -> isCapturing (vars sys) = true -> ~ stop_in_flight (suspended sys) ->
  recording_along sys evs ->
  currentCaptureSize (vars sys) <= currentCaptureSize (vars (run sys evs))
  /\ ~ stop_in_flight (suspended (run sys evs)).
Proof.
  revert sys. induction evs as [| [ev now] evs IH]; intros sys Hs Hrec Hnone Halong.
  - cbn. split; [lia | exact Hnone].
  - destruct Halong as [Hrec1 Halong].
    destruct (step_recording sys ev now (proj1 Hs) Hrec) as [Hon _].
    destruct (Hon Hrec1) as [[Hle Hfl] | Hfl]; [| contradiction].
    destruct (IH (step sys ev now) (step_settled sys ev now Hs) Hrec1
                (fun H => Hnone (Hfl H)) Halong) as [Hle' Hnone'].
    change (run sys ((ev, now) :: evs)) with (run (step sys ev now) evs).
    split; [lia | exact Hnone'].
Qed.


(** *** Stopping *)

Lemma step_bystander (sys : system) (ev : event) (now : Z) :
  isCapturing (vars sys) = false -> bystander ev = true ->
  vars (step sys ev now) = vars sys /\ suspended (step sys ev now) = suspended sys.
Proof.
  intros Hoff Hby. unfold Background.step, Background.handle.
  destruct ev as [sender_tab m | [tabId |] | tabId | i]; try discriminate Hby.
  - destruct m as [| tabId | e | imageUrl filename]; try discriminate Hby;
      cbn [Background.onMessage]; rewrite ?(captureText_idle _ _ _ _ Hoff);
      cbn; rewrite app_nil_r; split; reflexivity.
  - cbn. rewrite app_nil_r. split; reflexivity.
  - rewrite Hoff. cbn. rewrite app_nil_r. split; reflexivity.
Qed.

Lemma run_bystanders (between : list (event * Z)) (sys : system) :
  isCapturing (vars sys) = false ->
  Forall (fun x => bystander (fst x) = true) between ->
  vars (run sys between) = vars sys /\ suspended (run sys between) = suspended sys.
Proof.
  revert sys. induction between as [| [ev now] between IH]; intros sys Hoff Hall;
    [split; reflexivity |].
  inversion Hall as [| ? ? Hby Hrest]; subst. cbn [fst] in Hby.
  destruct (step_bystander sys ev now Hoff Hby) as [Hvars Hwaiting].
  change (run sys ((ev, now) :: between)) with (run (step sys ev now) between).
  destruct (IH (step sys ev now) ltac:(rewrite Hvars; exact Hoff) Hrest) as [Hvars' Hwaiting'].
  split; congruence.
Qed.

(** An event that asks for the stop runs [stopCapture] and adds what it
    suspends at the end of the suspended functions. *)
Lemma step_stop_request (sys : system) (ev : event) (now : Z) :
  isCapturing (vars sys) = true ->
  stop_request (vars sys) (suspended sys) ev = true ->
  exists waiting,
    step sys ev now
    = {| vars := fst (fst (stopCapture now (vars sys)));
         suspended := waiting ++ snd (stopCapture now (vars sys));
         calls := calls sys ++ snd (fst (stopCapture now (vars sys))) |}.
Proof.
  intros Hrec Hask. unfold Background.step, Background.handle.
  destruct ev as [sender_tab m | [tabId |] | tabId | i]; try discriminate Hask.
  - destruct m as [| tabId | e | imageUrl filename]; try discriminate Hask.
    cbn [Background.onMessage]. unfold Background.toggle. rewrite Hrec. cbn [negb].
    exists (suspended sys). destruct (stopCapture now (vars sys)) as [[s' effs] spawned].
    reflexivity.
  - unfold Background.toggle. rewrite Hrec. cbn [negb].
    exists (suspended sys). destruct (stopCapture now (vars sys)) as [[s' effs] spawned].
    reflexivity.
  - cbn [Background.stop_request] in Hask. rewrite Hrec, Hask. cbn [andb].
    exists (suspended sys). destruct (stopCapture now (vars sys)) as [[s' effs] spawned].
    reflexivity.
  - cbn [Background.stop_request] in Hask.
    destruct (suspended sys !! i) as [[| w] |]; try discriminate Hask.
    cbn [Background.resume]. exists (delete i (suspended sys)).
    destruct (stopCapture now (vars sys)) as [[s' effs] spawned]. reflexivity.
Qed.

(** C7, as amended. Stop and delivery: in any state the event loop can
    reach with a session recording, let stopCapture be called, by a
    toggle from the popup or the keyboard command, by the closing of the
    active tab or by the continuation of an auto-stop.  With a truthy
    active tab id the session is stopped at once, the popup, the badge
    and the tab are notified, and nothing is delivered or reset before
    the await of the stop notice; if, until stopCapture continues after
    that await, the event loop handles neither a toggle nor the
    continuation of another suspended function, then when it continues
    the entry list, the dedupe index, the active tab and the cumulative
    size are back to their initial values while the start time keeps its
    value, and the continuation starts no download when the entry list
    was empty and otherwise exactly one, of the formatted document of the
    session under the generated file name.  With a falsy active tab id
    nothing is awaited, and the reset and the download, if any, are made
    at the call. *)
Theorem stop_delivers_only_entries
    (evs : list (event * Z)) (ev : event) (now later : Z) (between : list (event * Z)) :
  isCapturing (vars (run boot evs)) = true ->
  stop_request (vars (run boot evs)) (suspended (run boot evs)) ev = true ->
  Forall (fun x => bystander (fst x) = true) between ->
  let sys := run boot evs in
  let s := vars sys in
  let sys1 := step sys ev now in
  let sys2 := run sys1 between in
  let sys3 := step sys2 (Resume (Nat.pred (length (suspended sys1)))) later in
  match truthy_tab (activeTabId s) with
  | Some tab =>
      vars sys1 = stopped s
      /\ calls sys1
         = calls sys ++ [NotifyStateChanged false; SetBadgeText [] tab; TabsSend tab Stop]
      /\ suspended sys1 !! Nat.pred (length (suspended sys1)) = Some (AfterStopNotice true)
      /\ vars sys2 = stopped s
      /\ suspended sys2 = suspended sys1
      /\ vars sys3 = reset_of s
      /\ captureStartTime (vars sys3) = captureStartTime s
      /\ (capturedText s = [] -> calls sys3 = calls sys2)
      /\ (capturedText s <> [] ->
          exists content,
            formatOutput s later = Some content
            /\ calls sys3 = calls sys2 ++ [DownloadCapture content (generateFilename later)])
  | None =>
      vars sys1 = reset_of s
      /\ captureStartTime (vars sys1) = captureStartTime s
      /\ (capturedText s = [] -> calls sys1 = calls sys ++ [NotifyStateChanged false])
      /\ (capturedText s <> [] ->
          exists content,
            formatOutput s now = Some content
            /\ calls sys1
               = calls sys
                 ++ [NotifyStateChanged false;
                     DownloadCapture content (generateFilename now)])
  end.
Proof.
  intros Hrec Hask Hquiet sys s sys1 sys2 sys3.
  pose proof (reachable_consistent evs) as Hc. fold sys in Hc. fold s in Hc.
  destruct (step_stop_request sys ev now Hrec Hask) as (waiting & Hstep).
  fold sys1 in Hstep. fold s in Hstep.
  pose proof (stopCapture_recording now s Hc Hrec) as Hstop.
  destruct (truthy_tab (activeTabId s)) as [tab |].
  - rewrite Hstop in Hstep. cbn [fst snd] in Hstep.
    assert (Hvars1 : vars sys1 = stopped s) by (rewrite Hstep; reflexivity).
    assert (Hwaiting1 : suspended sys1 = waiting ++ [AfterStopNotice true])
      by (rewrite Hstep; reflexivity).
    assert (Hindex : Nat.pred (length (suspended sys1)) = length waiting).
    { rewrite Hwaiting1, length_app. cbn. lia. }
    destruct (run_bystanders between sys1 ltac:(rewrite Hvars1; reflexivity) Hquiet)
      as [Hvars2 Hwaiting2].
    fold sys2 in Hvars2, Hwaiting2.
    assert (Hlook : suspended sys2 !! length waiting = Some (AfterStopNotice true)).
    { rewrite Hwaiting2, Hwaiting1. apply list_lookup_middle. reflexivity. }
    destruct (stopCapture_finish_reset (stopped s) later
                (consistent_recording_started s Hc Hrec) eq_refl) as (content & Hfmt & Hfin).
    assert (Hstep3 : sys3
                     = {| vars := reset_of s;
                          suspended := delete (length waiting) (suspended sys2) ++ [];
                          calls := calls sys2
                                   ++ match capturedText s with
                                      | [] => []
                                      | _ :: _ =>
                                          [DownloadCapture content (generateFilename later)]
                                      end |}).
    { subst sys3. rewrite Hindex. unfold Background.step, Background.handle.
      rewrite Hlook. cbn [Background.resume]. rewrite Hvars2, Hvars1, Hfin.
      rewrite reset_of_stopped. reflexivity. }
    split; [exact Hvars1 |].
    split; [rewrite Hstep; reflexivity |].
    split; [rewrite Hindex, Hwaiting1; apply list_lookup_middle; reflexivity |].
    split; [congruence |].
    split; [exact Hwaiting2 |].
    rewrite Hstep3. cbn [vars calls].
    split; [reflexivity |]. split; [reflexivity |]. split.
    + intros ->. apply app_nil_r.
    + intros Hused. exists content. split; [exact Hfmt |].
      destruct (capturedText s); [congruence | reflexivity].
  - destruct Hstop as (content & Hfmt & Hstop). rewrite Hstop in Hstep.
    cbn [fst snd] in Hstep. rewrite Hstep. cbn [vars calls].
    split; [reflexivity |]. split; [reflexivity |]. split.
    + intros ->. reflexivity.
    + intros Hused. exists content. split; [exact Hfmt |].
      destruct (capturedText s); [congruence | reflexivity].
Qed.

End Aggregator.

(** ** The aggregator on the sample sessions *)

Import ContentScript Background.

(** The sample session that has nearly used its budget, evaluated once:
    it is recording on tab 7, holds 52 entries of 10402288 bytes in all,
    has the fingerprint of the first long text in its index and not that
    of the 53rd. *)
Lemma nearly_full_facts :
  isCapturing (vars Samples.nearly_full) = true
  /\ activeTabId (vars Samples.nearly_full) = Some 7
  /\ currentCaptureSize (vars Samples.nearly_full) = 10402288
  /\ length (capturedText (vars Samples.nearly_full)) = 52%nat
  /\ Set_has (fingerprint (text (Samples.big_entry 0)))
             (seenHashes (vars Samples.nearly_full)) = true
  /\ Set_has (fingerprint (text (Samples.big_entry 52)))
             (seenHashes (vars Samples.nearly_full)) = false
  /\ String_length (text (Samples.big_entry 0)) = 100022
  /\ String_length (text (Samples.big_entry 52)) = 100022.
Proof. vm_compute. repeat split. Qed.

Lemma Set_has_true (key : jsstring) (set : gset (list N)) :
  Set_has key set = true -> key ∈ set.
Proof. apply bool_decide_eq_true_1. Qed.

Lemma Set_has_false (key : jsstring) (set : gset (list N)) :
  Set_has key set = false -> key ∉ set.
Proof. apply bool_decide_eq_false_1. Qed.

Lemma duplicate_bypasses_budget_witness :
  currentCaptureSize (vars Samples.nearly_full)
    + entry_cost (Samples.big_entry 0) > MAX_CAPTURE_SIZE
  /\ captureText UTC.Date_parse UTC.toTimeString (Some 7) (Samples.big_entry 0)
       (Samples.t0 + 60000) (vars Samples.nearly_full)
     = (vars Samples.nearly_full, [], []).
Proof.
  destruct nearly_full_facts as (_ & _ & Hsize & _ & Hseen & _ & Hlen & _).
  split.
  - unfold entry_cost. rewrite Hsize, Hlen. reflexivity.
  - apply (duplicate_bypasses_budget UTC.Date_parse UTC.toTimeString
             (Some 7) (Samples.big_entry 0) (Samples.t0 + 60000)
             (vars Samples.nearly_full)).
    exact (Set_has_true _ _ Hseen).
Defined.

Lemma budget_enforcement_witness :
  length (capturedText (vars Samples.nearly_full)) = 52%nat
  /\ currentCaptureSize (vars Samples.nearly_full) = 10402288
  /\ captureText UTC.Date_parse UTC.toTimeString (Some 7) (Samples.big_entry 52)
       (Samples.t0 + 60000) (vars Samples.nearly_full)
     = (remember (fingerprint (text (Samples.big_entry 52))) (vars Samples.nearly_full),
        [TabsSend 7 (AutoStopped (lit "Size limit reached (10MB)"))],
        [AfterAutoStopNotice]).
Proof.
  destruct nearly_full_facts as (Hrec & Htab & Hsize & Hcount & _ & Hfresh & _ & Hlen).
  split; [exact Hcount |]. split; [exact Hsize |].
  assert (Hsender : same_tab (Some 7) (activeTabId (vars Samples.nearly_full)) = true)
    by (rewrite Htab; reflexivity).
  assert (Hover : currentCaptureSize (vars Samples.nearly_full)
                  + String_length (text (Samples.big_entry 52)) * 2 > MAX_CAPTURE_SIZE)
    by (rewrite Hsize, Hlen; reflexivity).
  destruct (budget_enforcement UTC.Date_parse UTC.toTimeString (Some 7)
              (Samples.big_entry 52) (Samples.t0 + 60000) (Samples.t0 + 60010)
              (vars Samples.nearly_full) Hrec Hsender
              (Set_has_false _ _ Hfresh) Hover) as [Hcall _].
  rewrite Hcall. unfold Background.autoStopCapture.
  rewrite activeTabId_remember, Htab, size_limit_reason_text. reflexivity.
Defined.

Lemma dedup_idempotence_witness :
  let sys := run UTC.Date_parse UTC.toTimeString boot Samples.started in
  let sys1 := step UTC.Date_parse UTC.toTimeString sys
                (Message (Some 7) (CaptureText Samples.hello)) (Samples.t0 + 400) in
  let sys2 := step UTC.Date_parse UTC.toTimeString sys1
                (Message (Some 7) (CaptureText Samples.hello_again)) (Samples.t0 + 900) in
  sys2 = sys1
  /\ capturedText (vars sys2) = [Samples.hello]
  /\ retained (fingerprint (text Samples.hello)) (vars sys2) = 1%nat.
Proof.
  intros sys sys1 sys2.
  destruct (dedup_idempotence UTC.Date_parse UTC.toTimeString Samples.started 7
              Samples.hello Samples.hello_again (Samples.t0 + 400) (Samples.t0 + 900))
    as (Hsame & _ & Hone).
  - reflexivity.
  - reflexivity.
  - reflexivity.
  - split; [exact Hsame |].
    apply Hone.
    + apply Set_has_false. vm_compute. reflexivity.
    + vm_compute. discriminate.
Defined.

(** In the session that has nearly used its budget, the 53rd long text
    is submitted twice while the session is recording: neither submission
    is retained. *)
Lemma dedup_over_budget_counterexample :
  let sys1 := step UTC.Date_parse UTC.toTimeString Samples.nearly_full
                (Message (Some 7) (CaptureText (Samples.big_entry 52)))
                (Samples.t0 + 60000) in
  let sys2 := step UTC.Date_parse UTC.toTimeString sys1
                (Message (Some 7) (CaptureText (Samples.big_entry 52)))
                (Samples.t0 + 60001) in
  isCapturing (vars Samples.nearly_full) = true
  /\ activeTabId (vars Samples.nearly_full) = Some 7
  /\ isCapturing (vars sys1) = true
  /\ isCapturing (vars sys2) = true
  /\ length (capturedText (vars sys2)) = 52%nat
  /\ retained (fingerprint (text (Samples.big_entry 52))) (vars sys2) = 0%nat.
Proof. vm_compute. repeat split. Qed.



(** Outside the submissions: a stop that is still suspended at its await
    when the next session starts resumes inside that session, saves its
    entry and resets its variables, the active tab included, while the
    session stays recording. *)
Lemma late_stop_resets_next_session :
  let sys := run UTC.Date_parse UTC.toTimeString boot Samples.restarted in
  let sys' := step UTC.Date_parse UTC.toTimeString sys (Resume 0) (Samples.t0 + 5200) in
  suspended sys = [AfterStopNotice true]
  /\ isCapturing (vars sys) = true
  /\ currentCaptureSize (vars sys) = 78
  /\ isCapturing (vars sys') = true
  /\ currentCaptureSize (vars sys') = 0
  /\ activeTabId (vars sys') = None
  /\ length (List.filter is_download (calls sys')) = 1%nat.
Proof. vm_compute. repeat split. Qed.

(** While tab 7 records, a content script of tab 3 asks for the state:
    it is told that nothing is being captured, and its answer is the one
    it would get from the aggregator after that session has ended. *)
Lemma getState_other_tab_counterexample :
  let recording := vars (run UTC.Date_parse UTC.toTimeString boot Samples.started) in
  let finished := vars (run UTC.Date_parse UTC.toTimeString boot Samples.empty_session) in
  isCapturing recording = true
  /\ activeTabId recording = Some 7
  /\ reply_isCapturing (getState (Some 3) recording) = false
  /\ isCapturing finished = false
  /\ getState (Some 3) recording = getState (Some 3) finished.
Proof. vm_compute. repeat split. Qed.

Lemma stop_delivers_only_entries_witness :
  let sys := run UTC.Date_parse UTC.toTimeString boot Samples.one_entry in
  let sys1 := step UTC.Date_parse UTC.toTimeString sys
                (Message None (ToggleCapture 7)) (Samples.t0 + 85000) in
  let sys2 := run UTC.Date_parse UTC.toTimeString sys1 Samples.meanwhile in
  let sys3 := step UTC.Date_parse UTC.toTimeString sys2 (Resume 0) (Samples.t0 + 85333) in
  vars sys1 = stopped (vars sys)
  /\ List.filter is_download (calls sys1) = []
  /\ vars sys3 = reset_of (vars sys)
  /\ exists content,
       formatOutput UTC.Date_parse (vars sys) (Samples.t0 + 85333) = Some content
       /\ calls sys3
          = calls sys2
            ++ [DownloadCapture content (lit "ACC-2025-01-20/15-32-10_capture.txt")].
Proof.
  intros sys sys1 sys2 sys3.
  pose proof (stop_delivers_only_entries UTC.Date_parse UTC.toTimeString
                Samples.one_entry (Message None (ToggleCapture 7))
                (Samples.t0 + 85000) (Samples.t0 + 85333) Samples.meanwhile
                eq_refl eq_refl ltac:(repeat constructor)) as Hstop.
  cbv zeta in Hstop.
  change (truthy_tab (activeTabId (vars (run UTC.Date_parse UTC.toTimeString boot
                                          Samples.one_entry))))
    with (Some 7) in Hstop.
  cbv iota beta in Hstop.
  destruct Hstop as (Hvars1 & _ & _ & _ & _ & Hvars3 & _ & _ & Hsaved).
  split; [exact Hvars1 |]. split; [reflexivity |]. split; [exact Hvars3 |].
  destruct Hsaved as (content & Hfmt & Hcalls); [vm_compute; discriminate |].
  exists content. split; [exact Hfmt | exact Hcalls].
Defined.

(** A toggle at the await of a stop.  The stopped session had an entry:
    the next session is started, the stop continues on its empty list,
    and the entry is never delivered.  The stopped session had no entry:
    the stop continues on the list of the next session, downloads its
    entry and resets it while it records. *)
Lemma stop_overtaken_by_toggle :
  let lost := run UTC.Date_parse UTC.toTimeString boot Samples.overtaken in
  let taken := run UTC.Date_parse UTC.toTimeString boot Samples.empty_overtaken in
  List.filter is_download (calls lost) = []
  /\ suspended lost = []
  /\ isCapturing (vars lost) = true
  /\ capturedText (vars lost) = []
  /\ length (List.filter is_download (calls taken)) = 1%nat
  /\ isCapturing (vars taken) = true
  /\ capturedText (vars taken) = []
  /\ activeTabId (vars taken) = None.
Proof. vm_compute. repeat split. Qed.

(** A session is started on tab 7 and stopped with no entry: nothing is
    downloaded and nothing is left suspended, yet the variables are not
    back to their initial values, for the start time of the finished
    session is still there and a state query reports it. *)
Lemma stop_keeps_start_time_counterexample :
  let sys := run UTC.Date_parse UTC.toTimeString boot Samples.empty_session in
  suspended sys = []
  /\ List.filter is_download (calls sys) = []
  /\ isCapturing (vars sys) = false
  /\ capturedText (vars sys) = []
  /\ captureStartTime initial_state = None
  /\ captureStartTime (vars sys) = Some Samples.t0
  /\ reply_startTime (getState None (vars sys)) = Some (lit "2025-01-20T15:30:45.123Z").
Proof. vm_compute. repeat split. Qed.

(** ** Output serializer *)

Section Serializer.

Import ContentScript Background Document.

Variable Date_parse : jsstring -> option Z.

Local Abbreviation formatOutput := (Background.formatOutput Date_parse).
Local Abbreviation format_entry := (Background.format_entry Date_parse).
Local Abbreviation timeOffset := (Background.timeOffset Date_parse).
Local Abbreviation document := (Document.document Date_parse).
Local Abbreviation entries_block := (Document.entries_block Date_parse).
Local Abbreviation tag_line := (Document.tag_line Date_parse).
Local Abbreviation offset_field := (Document.offset_field Date_parse).

(** Rounding [(d + 500) / 1000] is rounding to the nearest integer. *)
Lemma round_div1000_nearest (d : Z) : round_div1000 d = offset_seconds 0 d.
Proof.
  unfold round_div1000, offset_seconds. rewrite Z.sub_0_r.
  destruct (d mod 1000 <? 500) eqn:Hlow; Z.to_euclidean_division_equations; lia.
Qed.

Lemma offset_seconds_shift (start t : Z) :
  offset_seconds start t = offset_seconds 0 (t - start).
Proof. unfold offset_seconds. rewrite Z.sub_0_r. reflexivity. Qed.

Lemma offset_seconds_nearest (start t : Z) :
  -500 <= (t - start) - 1000 * offset_seconds start t < 500.
Proof.
  unfold offset_seconds.
  destruct ((t - start) mod 1000 <? 500) eqn:Hlow;
    Z.to_euclidean_division_equations; lia.
Qed.

Lemma timeOffset_field (start : Z) (e : entry) : timeOffset start e = offset_field start e.
Proof.
  unfold Background.timeOffset, Document.offset_field.
  destruct (Date_parse (timestamp e)) as [t |]; [| reflexivity].
  rewrite round_div1000_nearest, <- offset_seconds_shift. reflexivity.
Qed.

(** *** Ordinals *)

Lemma lit_length (s : string) : length (lit s) = String.length s.
Proof.
  unfold lit. rewrite length_map.
  induction s as [| c s IH]; cbn; [reflexivity | rewrite IH; reflexivity].
Qed.

Lemma string_of_uint_length (d : Decimal.uint) :
  String.length (NilEmpty.string_of_uint d) = Decimal.nb_digits d.
Proof. induction d; cbn; congruence. Qed.

(** A numeral of at most two digits is at most 99. *)
Lemma two_digits_value (d : Decimal.uint) :
  (Decimal.nb_digits d <= 2)%nat -> (Pos.of_uint d <= 99)%N.
Proof.
  intros Hshort.
  do 3 (destruct d as [| d | d | d | d | d | d | d | d | d | d];
        cbn in Hshort |- *; try lia).
Qed.

Lemma String_of_Z_long (n : Z) : 100 <= n -> (3 <= length (String_of_Z n))%nat.
Proof.
  intros Hbig. destruct n as [| p | p]; try lia.
  unfold String_of_Z. rewrite lit_length. cbn [Z.to_int NilZero.string_of_int].
  unfold NilZero.string_of_uint.
  pose proof (DecimalPos.Unsigned.of_to p) as Hback.
  destruct (Pos.to_uint p) eqn:Hd;
    rewrite ?string_of_uint_length;
    try (destruct (le_lt_dec 3 (Decimal.nb_digits (Pos.to_uint p))) as [Hok | Hshort];
         [rewrite Hd in Hok; exact Hok |];
         assert (Htwo : (Decimal.nb_digits (Pos.to_uint p) <= 2)%nat) by lia;
         apply two_digits_value in Htwo; rewrite Hd in Htwo; rewrite Hback in Htwo; lia).
  cbn in Hback. discriminate.
Qed.

Lemma ordinal_field_small :
  forallb (fun k => bool_decide (padStart 3 48%N (String_of_Z (Z.of_nat k))
                                 = ordinal_field (Z.of_nat k)))
          (seq 0 1000) = true.
Proof. vm_compute. reflexivity. Qed.

(** [String(n).padStart(3, '0')] is the ordinal zero-padded to three
    digits. *)
Lemma padStart_ordinal (n : Z) :
  0 <= n -> padStart 3 48%N (String_of_Z n) = ordinal_field n.
Proof.
  intros Hpos. destruct (Z_lt_ge_dec n 1000) as [Hsmall | Hbig].
  - pose proof ordinal_field_small as Hall. rewrite forallb_forall in Hall.
    specialize (Hall (Z.to_nat n)). rewrite Z2Nat.id in Hall by exact Hpos.
    assert (Hin : In (Z.to_nat n) (seq 0 1000)) by (apply in_seq; lia).
    exact (bool_decide_eq_true_1 _ (Hall Hin)).
  - unfold ordinal_field, padStart.
    destruct (n <? 1000) eqn:Hcmp; [lia |].
    pose proof (String_of_Z_long n ltac:(lia)) as Hlong.
    replace (3 - length (String_of_Z n))%nat with 0%nat by lia. reflexivity.
Qed.

(** *** Lines and blocks *)

Lemma format_entry_block (start : Z) (i : nat) (e : entry) :
  format_entry start i e
  = tag_line start (Z.of_nat i + 1) e ++ nl ++ text e ++ nl.
Proof.
  unfold Background.format_entry, Document.tag_line. cbn [join].
  rewrite padStart_ordinal by lia. rewrite timeOffset_field, app_nil_r. reflexivity.
Qed.

Lemma body_block (start : Z) (entries : list entry) (k : nat) :
  join nl (imap (fun i => format_entry start (k + i)) entries)
  = entries_block start (Z.of_nat k + 1) entries.
Proof.
  revert k. induction entries as [| e rest IH]; intros k; [reflexivity |].
  rewrite imap_cons. cbn [Document.entries_block].
  rewrite Nat.add_0_r, format_entry_block.
  assert (Hrest : join nl (imap ((fun i => format_entry start (k + i)) ∘ S) rest)
                  = entries_block start (Z.of_nat k + 1 + 1) rest).
  { replace (Z.of_nat k + 1 + 1) with (Z.of_nat (S k) + 1) by lia.
    rewrite <- (IH (S k)). f_equal. apply imap_ext. intros i x _. unfold compose.
    replace (k + S i)%nat with (S k + i)%nat by lia. reflexivity. }
  destruct rest as [| e' rest'].
  - cbn [imap join]. rewrite ?app_nil_r, <- ?app_assoc. reflexivity.
  - rewrite <- Hrest. rewrite imap_cons. cbn [join].
    destruct (imap _ rest'); rewrite <- ?app_assoc; reflexivity.
Qed.

Lemma header_block_lines (start endTime : Z) (entries : nat) (size : Z) :
  format_header start endTime entries size = header_block start endTime entries size.
Proof.
  unfold format_header, header_block. cbn [join].
  rewrite round_div1000_nearest, <- offset_seconds_shift, app_nil_r.
  rewrite <- !app_assoc. reflexivity.
Qed.

(** C4. Output format: once a session has a start time, formatOutput
    gives the document of the specification: the header block (two rules
    around the title, a blank line, the start and end timestamps, the
    duration in whole seconds, the number of entries, the size in
    kilobytes with one decimal, a blank line and a rule), then for each
    entry the tag line [ordinal] +offset s | frameId | url, with the
    1-based ordinal zero-padded to three digits and the offset the number
    of seconds since the start rounded to the nearest integer, then the
    text of the entry as it is, then a line break; one blank line
    separates an entry from the next.  The rounding is to the nearest
    integer: the offset is within half a second of the elapsed time. *)
Theorem formatOutput_document (s : state) (endTime start : Z) :
  captureStartTime s = Some start ->
  formatOutput s endTime
  = Some (document start endTime (capturedText s) (currentCaptureSize s))
  /\ (forall t, -500 <= (t - start) - 1000 * offset_seconds start t < 500).
Proof.
  intros Hstart. split; [| intros t; apply offset_seconds_nearest].
  unfold Background.formatOutput, Document.document. rewrite Hstart.
  rewrite header_block_lines.
  f_equal. f_equal. exact (body_block start (capturedText s) 0).
Qed.

End Serializer.

Lemma formatOutput_document_witness :
  Background.formatOutput UTC.Date_parse
    (Background.vars (Background.run UTC.Date_parse UTC.toTimeString Background.boot
                        Samples.three_entries))
    (Samples.t0 + 85333)
  = Some Samples.three_entries_document.
Proof.
  destruct (formatOutput_document UTC.Date_parse
              (Background.vars (Background.run UTC.Date_parse UTC.toTimeString
                                  Background.boot Samples.three_entries))
              (Samples.t0 + 85333) Samples.t0 eq_refl) as [Hdoc _].
  rewrite Hdoc. vm_compute. reflexivity.
Defined.

(** * Further properties of the two scripts and the popup *)

(** ** The text cleaner *)

Section TextCleaner.

Import ContentScript.

Lemma replace_runs_spaces (b : bool) (s : jsstring) :
  Forall (fun c => is_space c = true -> c = 32%N) (replace_runs CSpace (lit " ") b s).
Proof.
  revert b. induction s as [| c s IH]; intros b; cbn [replace_runs class_matches].
  - constructor.
  - destruct (is_space c) eqn:Hc.
    + destruct b; [apply IH |]. cbn. constructor; [reflexivity | apply IH].
    + constructor; [congruence | apply IH].
Qed.

Lemma replace_runs_length (b : bool) (s : jsstring) :
  (length (replace_runs CSpace (lit " ") b s) <= length s)%nat.
Proof.
  revert b. induction s as [| c s IH]; intros b; cbn [replace_runs]; [reflexivity |].
  destruct (class_matches CSpace c).
  - pose proof (IH true) as Hrun.
    destruct b; [| rewrite length_app; change (length (lit " ")) with 1%nat]; cbn [length]; lia.
  - pose proof (IH false) as Hrun. cbn [length]. lia.
Qed.

Lemma Forall_list_filter {A} (P : A -> Prop) (p : A -> bool) (l : list A) :
  Forall P l -> Forall P (List.filter p l).
Proof.
  induction 1 as [| x l Hx Hl IH]; cbn; [constructor |].
  destruct (p x); [constructor; assumption | assumption].
Qed.

Lemma list_filter_holds {A} (p : A -> bool) (l : list A) :
  Forall (fun x => p x = true) (List.filter p l).
Proof.
  induction l as [| x l IH]; cbn; [constructor |].
  destruct (p x) eqn:Hx; [constructor; assumption | assumption].
Qed.

Lemma list_filter_length {A} (p : A -> bool) (l : list A) :
  (length (List.filter p l) <= length l)%nat.
Proof. induction l as [| x l IH]; cbn; [lia |]. destruct (p x); cbn; lia. Qed.

Lemma drop_while_suffix (p : N -> bool) (s : jsstring) :
  exists gone, s = gone ++ drop_while p s.
Proof.
  induction s as [| c s [gone IH]]; cbn; [exists []; reflexivity |].
  destruct (p c); [| exists []; reflexivity].
  exists (c :: gone). cbn. congruence.
Qed.

Lemma drop_while_head (p : N -> bool) (s : jsstring) (c : N) (rest : jsstring) :
  drop_while p s = c :: rest -> p c = false.
Proof.
  induction s as [| x s IH]; cbn; [discriminate |].
  destruct (p x) eqn:Hx; [exact IH |]. intros Heq. injection Heq as -> _. exact Hx.
Qed.

Lemma drop_end_while_prefix (p : N -> bool) (s : jsstring) :
  exists gone, s = drop_end_while p s ++ gone.
Proof.
  induction s as [| c s [gone IH]]; cbn; [exists []; reflexivity |].
  destruct (drop_end_while p s) as [| k kept] eqn:Hkept.
  - destruct (p c).
    + exists (c :: s). reflexivity.
    + exists s. reflexivity.
  - exists gone. cbn. rewrite IH at 1. reflexivity.
Qed.

Lemma drop_end_while_last (p : N -> bool) (s front : jsstring) (c : N) :
  drop_end_while p s = front ++ [c] -> p c = false.
Proof.
  revert front. induction s as [| x s IH]; intros front; cbn.
  - destruct front; discriminate.
  - destruct (drop_end_while p s) as [| k kept] eqn:Hkept.
    + destruct (p x) eqn:Hx.
      * destruct front; discriminate.
      * destruct front as [| y [| z front]]; cbn; try discriminate.
        intros Heq. injection Heq as <-. exact Hx.
    + destruct front as [| y front]; cbn; [discriminate |].
      intros Heq. injection Heq as _ Heq. exact (IH front Heq).
Qed.

Lemma Forall_app_l {A} (P : A -> Prop) (l1 l2 : list A) : Forall P (l1 ++ l2) -> Forall P l1.
Proof. rewrite Forall_app. tauto. Qed.

Lemma Forall_app_r {A} (P : A -> Prop) (l1 l2 : list A) : Forall P (l1 ++ l2) -> Forall P l2.
Proof. rewrite Forall_app. tauto. Qed.

Lemma trim_Forall (P : N -> Prop) (s : jsstring) : Forall P s -> Forall P (trim s).
Proof.
  intros Hall. unfold trim.
  destruct (drop_while_suffix is_space s) as [gone Hs].
  destruct (drop_end_while_prefix is_space (drop_while is_space s)) as [gone' Hs'].
  rewrite Hs in Hall. apply Forall_app_r in Hall.
  rewrite Hs' in Hall. apply Forall_app_l in Hall. exact Hall.
Qed.

Lemma trim_length (s : jsstring) : (length (trim s) <= length s)%nat.
Proof.
  unfold trim.
  destruct (drop_while_suffix is_space s) as [gone Hs].
  destruct (drop_end_while_prefix is_space (drop_while is_space s)) as [gone' Hs'].
  rewrite Hs at 2. rewrite length_app. rewrite Hs' at 2. rewrite length_app. lia.
Qed.

Lemma trim_head (s : jsstring) (c : N) (rest : jsstring) :
  trim s = c :: rest -> is_space c = false.
Proof.
  unfold trim. intros Heq.
  destruct (drop_end_while_prefix is_space (drop_while is_space s)) as [gone Hs].
  rewrite Heq in Hs. cbn in Hs. exact (drop_while_head _ _ _ _ Hs).
Qed.

Lemma trim_last (s front : jsstring) (c : N) :
  trim s = front ++ [c] -> is_space c = false.
Proof. unfold trim. apply drop_end_while_last. Qed.

(** X1. Shape of a cleaned text: in what cleanText returns every
    white-space character is a plain space (U+0020), none of the
    zero-width characters U+200B to U+200D and U+FEFF is left, the text
    neither starts nor ends with white space, and it is no longer than
    the input. *)
Theorem cleanText_shape (t : jsstring) :
  Forall (fun c => is_space c = true -> c = 32%N) (cleanText t)
  /\ Forall (fun c => class_matches zero_width c = false) (cleanText t)
  /\ (forall c rest, cleanText t = c :: rest -> is_space c = false)
  /\ (forall front c, cleanText t = front ++ [c] -> is_space c = false)
  /\ String_length (cleanText t) <= String_length t.
Proof.
  unfold cleanText, remove_class. repeat split.
  - apply trim_Forall, Forall_list_filter, replace_runs_spaces.
  - apply trim_Forall.
    eapply Forall_impl; [apply list_filter_holds |].
    intros c Hc. cbn beta in Hc. apply negb_true_iff in Hc. exact Hc.
  - apply trim_head.
  - apply trim_last.
  - unfold String_length.
    pose proof (trim_length (List.filter (fun c => negb (class_matches zero_width c))
                               (replace_runs CSpace (lit " ") false t))) as H1.
    pose proof (list_filter_length (fun c => negb (class_matches zero_width c))
                  (replace_runs CSpace (lit " ") false t)) as H2.
    pose proof (replace_runs_length false t) as H3. lia.
Qed.

End TextCleaner.

(** ** What the text filter lets through *)

Section TextGate.

Import ContentScript.

(** The form [processText] goes on with keeps the first units of the
    cleaned text. *)
Lemma stored_form_prefix (raw rest : jsstring) (a b c : N) :
  cleanText raw = a :: b :: c :: rest ->
  exists rest', stored_form raw = a :: b :: c :: rest'.
Proof.
  intros Hclean. unfold stored_form. rewrite Hclean.
  destruct (String_length (a :: b :: c :: rest) >? MAX_TEXT_LENGTH); [| eauto].
  unfold substring0, MAX_TEXT_LENGTH.
  replace (Z.to_nat 100000) with (S (S (S (Z.to_nat 99997)))) by lia.
  cbn [firstn app]. eauto.
Qed.

Lemma acc_label_prefix (rest : jsstring) : test acc_label (lit "ACC" ++ rest) = true.
Proof.
  cbn. destruct rest as [| c rest]; cbn; [reflexivity |].
  reflexivity.
Qed.

(** X2. Texts that start with ACC: processText drops every text whose
    cleaned form starts with the three letters ACC, whatever follows them
    (the third indicator pattern is anchored at the start only): nothing
    is sent and the frame is left as it was. *)
Theorem acc_prefix_rejected (f : frame) (now : Z) (raw : jsstring) (src : source)
    (rest : jsstring) :
  cleanText raw = lit "ACC" ++ rest ->
  processText f now raw src = (f, []).
Proof.
  intros Hclean.
  destruct (stored_form_prefix raw rest 65 67 67 Hclean) as [rest' Hstored].
  unfold processText. fold (stored_form raw). rewrite Hstored.
  destruct (String_length _ <? MIN_TEXT_LENGTH); [reflexivity |].
  destruct (test all_digits _); [reflexivity |].
  destruct (test timer_text _); [reflexivity |].
  change (65 :: 67 :: 67 :: rest')%N with (lit "ACC" ++ rest').
  rewrite acc_label_prefix. reflexivity.
Qed.

(** A rejection by the filters does not depend on the frame, the time or
    the source label. *)
Lemma processText_filtered (f f' : frame) (now now' : Z) (raw : jsstring) (src src' : source) :
  processText f now raw src = (f, []) ->
  Set_has (fingerprint (stored_form raw)) (seenText f) = false ->
  processText f' now' raw src' = (f', []).
Proof.
  unfold processText. fold (stored_form raw).
  destruct (String_length (stored_form raw) <? MIN_TEXT_LENGTH); [reflexivity |].
  destruct (test all_digits (stored_form raw)); [reflexivity |].
  destruct (test timer_text (stored_form raw)); [reflexivity |].
  destruct (test acc_label (stored_form raw)); [reflexivity |].
  destruct (bool_decide (stored_form raw = lit "ACC")); [reflexivity |].
  destruct (existsb _ NOISE_PATTERNS); [reflexivity |].
  cbv zeta.
  destruct (10 * count_class css_punct (stored_form raw) >? String_length (stored_form raw));
    [reflexivity |].
  intros Hsame Hnew. rewrite Hnew in Hsame. discriminate.
Qed.

Lemma Set_has_seen_with (h : jsstring) (f : frame) :
  Set_has h (seenText (seen_with h f)) = true.
Proof.
  unfold Set_has. apply bool_decide_eq_true_2. cbn [seen_with seenText].
  apply elem_of_union_l, elem_of_singleton. reflexivity.
Qed.

(** X3. Local deduplication: processing the same raw text a second
    time in the same frame, at any time and from any source, sends
    nothing and leaves the frame as the first call left it. *)
Theorem local_dedup_idempotent (f : frame) (now now' : Z) (raw : jsstring) (src src' : source) :
  processText (fst (processText f now raw src)) now' raw src'
  = (fst (processText f now raw src), []).
Proof.
  destruct (processText_cases f now raw src) as [Hnone | (Hsent & _)].
  - rewrite Hnone. cbn [fst].
    destruct (Set_has (fingerprint (stored_form raw)) (seenText f)) eqn:Hseen.
    + destruct (processText_cases f now' raw src') as [Hagain | (_ & _ & _ & Hnew)];
        [exact Hagain | congruence].
    + exact (processText_filtered f f now now' raw src src' Hnone Hseen).
  - rewrite Hsent. cbn [fst].
    destruct (processText_cases (seen_with (fingerprint (stored_form raw)) f) now' raw src')
      as [Hagain | (_ & _ & _ & Hnew)]; [exact Hagain |].
    rewrite Set_has_seen_with in Hnew. discriminate.
Qed.

(** *** The fingerprint *)

Lemma lit_inj (a b : string) : lit a = lit b -> a = b.
Proof.
  unfold lit. intros Heq.
  rewrite <- (string_of_list_ascii_of_string a), <- (string_of_list_ascii_of_string b).
  f_equal. revert Heq. generalize (list_ascii_of_string a) (list_ascii_of_string b).
  induction l as [| x l IH]; intros [| y l']; cbn; try discriminate; [reflexivity |].
  intros Heq. injection Heq as Hxy Hrest.
  f_equal; [| exact (IH l' Hrest)].
  rewrite <- (ascii_N_embedding x), <- (ascii_N_embedding y). congruence.
Qed.

Lemma String_of_Z_inj (a b : Z) : 0 <= a -> 0 <= b -> String_of_Z a = String_of_Z b -> a = b.
Proof.
  intros Ha Hb Heq. unfold String_of_Z in Heq. apply lit_inj in Heq.
  apply DecimalZ.to_int_inj.
  assert (Hread : forall n, 0 <= n ->
            NilZero.int_of_string (NilZero.string_of_int (Z.to_int n)) = Some (Z.to_int n)).
  { intros n Hn. apply NilZero.isi.
    - destruct n as [| p | p]; cbn; [discriminate | | lia].
      intros Hnil. injection Hnil as Hnil.
      pose proof (DecimalPos.Unsigned.of_to p) as Hback. rewrite Hnil in Hback.
      cbn in Hback. discriminate.
    - destruct n as [| p | p]; cbn; [discriminate | discriminate | lia]. }
  pose proof (Hread a Ha) as Hra. pose proof (Hread b Hb) as Hrb.
  rewrite Heq in Hra. congruence.
Qed.

Lemma digits_small :
  forallb (fun k => Nat.eqb (length (String_of_Z (Z.of_nat k))) (if (k <? 10)%nat then 1 else 2))
          (seq 0 100) = true.
Proof. vm_compute. reflexivity. Qed.

(** The decimal numeral of a length has one digit below 10, two below
    100 and at least three from there on. *)
Lemma digits_of_length (n : nat) :
  ((n < 10 /\ length (String_of_Z (Z.of_nat n)) = 1)
   \/ (10 <= n < 100 /\ length (String_of_Z (Z.of_nat n)) = 2)
   \/ (100 <= n /\ 3 <= length (String_of_Z (Z.of_nat n))))%nat.
Proof.
  destruct (le_lt_dec 100 n) as [Hbig | Hsmall].
  - right; right. split; [exact Hbig |]. apply String_of_Z_long. lia.
  - pose proof digits_small as Hall. rewrite forallb_forall in Hall.
    specialize (Hall n ltac:(apply in_seq; lia)).
    apply Nat.eqb_eq in Hall.
    destruct (Nat.ltb_spec n 10); [left | right; left]; split; (lia || exact Hall).
Qed.

(** X4. The deduplication key: the first 100 characters followed by
    the length in decimal, with nothing between them, is the same for two
    texts exactly when they have the same length and the same first 100
    characters.  The missing separator merges no two such pairs. *)
Theorem fingerprint_injective (a b : jsstring) :
  fingerprint a = fingerprint b
  <-> String_length a = String_length b /\ substring0 100 a = substring0 100 b.
Proof.
  unfold fingerprint, substring0, String_length. split.
  - intros Heq.
    assert (Hlen : (length (firstn (Z.to_nat 100) a) + length (String_of_Z (Z.of_nat (length a)))
                    = length (firstn (Z.to_nat 100) b) + length (String_of_Z (Z.of_nat (length b))))%nat)
      by (rewrite <- !length_app; congruence).
    rewrite !length_firstn in Hlen.
    assert (Hhead : length (firstn (Z.to_nat 100) a) = length (firstn (Z.to_nat 100) b)).
    { rewrite !length_firstn.
      destruct (digits_of_length (length a)) as [Ha | [Ha | Ha]],
               (digits_of_length (length b)) as [Hb | [Hb | Hb]]; lia. }
    destruct (app_inj_1 _ _ _ _ Hhead Heq) as [Hpre Hnum].
    apply String_of_Z_inj in Hnum; [| lia | lia].
    split; [lia | exact Hpre].
  - intros [Hlen Hpre]. rewrite Hpre, Hlen. reflexivity.
Qed.

(** X5. Two checks that cannot fire: a text that has passed the
    minimum length of processText (10 characters) neither has the form of
    the timer, two digits, a colon and two digits, nor is equal to ACC. *)
Theorem indicator_checks_unreachable (t : jsstring) :
  MIN_TEXT_LENGTH <= String_length t ->
  test timer_text t = false /\ t <> lit "ACC".
Proof.
  unfold MIN_TEXT_LENGTH, String_length. intros Hlong.
  destruct t as [| a [| b [| c [| d [| e [| g t]]]]]]; cbn [length] in Hlong; try lia.
  split; [| discriminate].
  cbn. repeat match goal with |- context [if ?x then _ else _] => destruct x end; reflexivity.
Qed.

End TextGate.

(** ** The flash on its way up *)

Section FlashChain.

Import ContentScript Relay.

(** X6. Flash cooldown: while capturing, flashing an iframe that has
    not flashed within FLASH_COOLDOWN (500 ms) draws one overlay and
    records the time; flashing the same iframe again less than 500 ms
    later does nothing, flashing it 500 ms later or more draws again, and
    what another iframe does is not affected. *)
Theorem flash_cooldown (f : frame) (now later : Z) (iframe : nat) :
  isCapturing f = true ->
  FLASH_COOLDOWN <= now - default 0 (iframeFlashCooldowns f !! iframe) ->
  flashIframeBorder f now iframe = (cooled_at iframe now f, [FlashOverlay iframe])
  /\ (later < now + FLASH_COOLDOWN ->
      flashIframeBorder (cooled_at iframe now f) later iframe = (cooled_at iframe now f, []))
  /\ (now + FLASH_COOLDOWN <= later ->
      snd (flashIframeBorder (cooled_at iframe now f) later iframe) = [FlashOverlay iframe])
  /\ (forall other : nat, other <> iframe ->
      snd (flashIframeBorder (cooled_at iframe now f) later other)
      = snd (flashIframeBorder f later other)).
Proof.
  intros Hrec Hcool. unfold FLASH_COOLDOWN in *.
  assert (Hlast : default 0 (iframeFlashCooldowns (cooled_at iframe now f) !! iframe) = now).
  { cbn [cooled_at iframeFlashCooldowns]. rewrite lookup_insert_eq. reflexivity. }
  assert (Hstill : isCapturing (cooled_at iframe now f) = true) by exact Hrec.
  repeat split.
  - unfold flashIframeBorder, FLASH_COOLDOWN. rewrite Hrec. cbn [negb].
    destruct (now - default 0 (iframeFlashCooldowns f !! iframe) <? 500) eqn:Hcmp;
      [lia | reflexivity].
  - intros Hsoon. unfold flashIframeBorder, FLASH_COOLDOWN.
    rewrite Hstill, Hlast. cbn [negb].
    destruct (later - now <? 500) eqn:Hcmp; [reflexivity | lia].
  - intros Hlate. unfold flashIframeBorder, FLASH_COOLDOWN.
    rewrite Hstill, Hlast. cbn [negb].
    destruct (later - now <? 500) eqn:Hcmp; [lia | reflexivity].
  - intros other Hother. unfold flashIframeBorder, FLASH_COOLDOWN.
    rewrite Hstill, Hrec. cbn [negb].
    assert (Hsame : iframeFlashCooldowns (cooled_at iframe now f) !! other
                    = iframeFlashCooldowns f !! other).
    { cbn [cooled_at iframeFlashCooldowns]. apply lookup_insert_ne. congruence. }
    rewrite Hsame.
    destruct (later - default 0 (iframeFlashCooldowns f !! other) <? 500); reflexivity.
Qed.

(** *** The chain of frames *)

Lemma posted_app_post (flashed : list effect) (depth : Z) :
  posted (flashed ++ [PostFlashToParent depth]) = Some depth.
Proof. unfold posted. rewrite fold_left_app. reflexivity. Qed.

(** What one frame does with a signal of depth at least 1. *)
Lemma onFlashMessage_cases (f : frame) (now : Z) (sourceWindow : nat) (depth : Z) :
  1 <= depth ->
  let effs := snd (onFlashMessage f now sourceWindow (Some depth)) in
  (effs = [] /\ posted effs = None)
  \/ (depth <= MAX_IFRAME_DEPTH
      /\ (length (List.filter is_overlay effs) <= 1)%nat
      /\ (posted effs = None \/ posted effs = Some (depth + 1))).
Proof.
  intros Hpos effs. subst effs. unfold onFlashMessage, depth_or_1.
  destruct (depth =? 0) eqn:Hz; [lia |].
  destruct (isCapturing f); [| left; split; reflexivity].
  unfold handleChildFlashMessage, MAX_IFRAME_DEPTH.
  destruct (depth >? 10) eqn:Hdeep; [left; split; reflexivity |].
  right. split; [lia |].
  assert (Hflash : forall i, snd (flashIframeBorder f now i) = []
                             \/ snd (flashIframeBorder f now i) = [FlashOverlay i]).
  { intros i. unfold flashIframeBorder.
    destruct (negb (isCapturing f)); [left; reflexivity |].
    destruct (_ <? FLASH_COOLDOWN); [left | right]; reflexivity. }
  destruct (findIframeForWindow f sourceWindow) as [iframe |].
  - specialize (Hflash iframe).
    destruct (flashIframeBorder f now iframe) as [f' flashed]. cbn [snd] in *.
    destruct (isTopFrame f); destruct Hflash as [-> | ->]; cbn; split; (lia || auto).
  - destruct (isTopFrame f); cbn; split; (lia || auto).
Qed.

Lemma overlays_cons (effs : list effect) (handled : list (list effect)) :
  overlays (effs :: handled) = (length (List.filter is_overlay effs) + overlays handled)%nat.
Proof. unfold overlays. cbn [concat]. rewrite List.filter_app, length_app. reflexivity. Qed.

Lemma climb_bound (ancestors : list (frame * nat * Z)) (depth : Z) :
  1 <= depth ->
  (overlays (climb depth ancestors) <= Z.to_nat (MAX_IFRAME_DEPTH + 1 - depth))%nat.
Proof.
  revert depth. induction ancestors as [| [[f w] now] outer IH]; intros depth Hpos;
    [unfold overlays; cbn; lia |].
  cbn [climb]. rewrite overlays_cons.
  destruct (onFlashMessage_cases f now w depth Hpos) as [[-> ->] | (Hin & Hone & [-> | ->])].
  - unfold overlays. cbn. lia.
  - unfold overlays at 1. cbn [concat List.filter length]. unfold MAX_IFRAME_DEPTH in *. lia.
  - specialize (IH (depth + 1) ltac:(lia)). unfold MAX_IFRAME_DEPTH in *. lia.
Qed.

(** A frame that flashes, with the signal within the bound, draws one
    overlay; the top frame posts nothing, a frame below it posts the
    signal on. *)
Lemma flashes_step (f : frame) (now : Z) (sourceWindow : nat) (depth : Z) :
  flashes (f, sourceWindow, now) -> 1 <= depth <= MAX_IFRAME_DEPTH ->
  exists iframe,
    snd (onFlashMessage f now sourceWindow (Some depth))
    = FlashOverlay iframe
      :: (if isTopFrame f then [] else [PostFlashToParent (depth + 1)]).
Proof.
  intros (Hrec & iframe & Hfound & Hcool) [Hpos Hin]. exists iframe.
  unfold onFlashMessage, depth_or_1. rewrite Hrec.
  destruct (depth =? 0) eqn:Hz; [lia |].
  unfold handleChildFlashMessage, MAX_IFRAME_DEPTH in *.
  destruct (depth >? 10) eqn:Hdeep; [lia |].
  rewrite Hfound. unfold flashIframeBorder. rewrite Hrec. cbn [negb].
  destruct (_ <? FLASH_COOLDOWN) eqn:Hcmp; [lia |].
  destruct (isTopFrame f); reflexivity.
Qed.

Lemma climb_exact (ancestors : list (frame * nat * Z)) (depth : Z) :
  1 <= depth -> Forall flashes ancestors -> nested ancestors ->
  overlays (climb depth ancestors)
  = Nat.min (length ancestors) (Z.to_nat (MAX_IFRAME_DEPTH + 1 - depth)).
Proof.
  revert depth. induction ancestors as [| [[f w] now] outer IH]; intros depth Hpos Hall Hnested;
    [reflexivity |].
  inversion Hall as [| hop rest Hhop Hrest]; subst.
  cbn [climb length]. rewrite overlays_cons.
  destruct (Z_le_gt_dec depth MAX_IFRAME_DEPTH) as [Hin | Hout].
  - destruct (flashes_step f now w depth Hhop (conj Hpos Hin)) as [iframe ->].
    unfold MAX_IFRAME_DEPTH in *.
    replace (Z.to_nat (10 + 1 - depth)) with (S (Z.to_nat (10 + 1 - (depth + 1)))) by lia.
    rewrite <- Nat.succ_min_distr.
    destruct outer as [| next outer].
    + destruct (isTopFrame f); cbn; reflexivity.
    + destruct Hnested as [Hbelow Hnested]. rewrite Hbelow.
      change (posted [FlashOverlay iframe; PostFlashToParent (depth + 1)])
        with (Some (depth + 1)).
      cbv iota.
      rewrite (IH (depth + 1) ltac:(lia) Hrest Hnested).
      change (length (List.filter is_overlay
                        [FlashOverlay iframe; PostFlashToParent (depth + 1)])) with 1%nat.
      reflexivity.
  - destruct (onFlashMessage_cases f now w depth Hpos) as [[-> ->] | (Hin & _)]; [| lia].
    unfold MAX_IFRAME_DEPTH in *.
    replace (Z.to_nat (10 + 1 - depth)) with 0%nat by lia.
    rewrite Nat.min_0_r. reflexivity.
Qed.

(** The signal ends at the top frame: what is listed beyond it handles
    nothing. *)
Lemma climb_ends_at_top (inner beyond : list (frame * nat * Z)) (top : frame)
    (sourceWindow : nat) (now depth : Z) :
  isTopFrame top = true ->
  climb depth (inner ++ (top, sourceWindow, now) :: beyond)
  = climb depth (inner ++ [(top, sourceWindow, now)]).
Proof.
  intros Htop. revert depth. induction inner as [| [[f w] t] inner IH]; intros depth.
  - cbn [app climb].
    assert (Hnone : posted (snd (onFlashMessage top now sourceWindow (Some depth))) = None).
    { unfold onFlashMessage. destruct (isCapturing top) eqn:Hrec; [| reflexivity].
      unfold handleChildFlashMessage. destruct (_ >? MAX_IFRAME_DEPTH); [reflexivity |].
      rewrite Htop.
      destruct (findIframeForWindow top sourceWindow) as [iframe |]; [| reflexivity].
      unfold flashIframeBorder. rewrite Hrec. cbn [negb].
      destruct (_ <? FLASH_COOLDOWN); reflexivity. }
    rewrite Hnone. reflexivity.
  - cbn [app climb].
    destruct (posted (snd (onFlashMessage f t w (Some depth)))); [| reflexivity].
    rewrite IH. reflexivity.
Qed.

(** X7. Reach of the flash: the signal a capturing frame sends upward
    with hop counter 1 draws at most ten overlays, whatever the frames
    around it.  When every frame around it, the top frame included,
    flashes (it is capturing, holds the iframe of the window below and is
    out of its cooldown) and none but the last of them is the top frame,
    the overlays drawn are exactly the smaller of the number of those
    frames and ten: the top frame draws its overlay like the others.  The
    signal ends at the first top frame: frames listed beyond it handle
    nothing. *)
Theorem flash_reaches_ten_frames (ancestors : list (frame * nat * Z)) :
  (overlays (climb 1 ancestors) <= 10)%nat
  /\ (Forall flashes ancestors -> nested ancestors ->
      overlays (climb 1 ancestors) = Nat.min (length ancestors) 10)
  /\ (forall inner beyond top sourceWindow now,
        ancestors = inner ++ (top, sourceWindow, now) :: beyond ->
        isTopFrame top = true ->
        climb 1 ancestors = climb 1 (inner ++ [(top, sourceWindow, now)])).
Proof.
  split; [exact (climb_bound ancestors 1 ltac:(lia)) |]. split.
  - intros Hall Hnested. exact (climb_exact ancestors 1 ltac:(lia) Hall Hnested).
  - intros inner beyond top sourceWindow now -> Htop. apply climb_ends_at_top. exact Htop.
Qed.

End FlashChain.

(** ** The popup and the background script *)

Section PopupView.

Import ContentScript Background Popup BackgroundFacts.

Variable Date_parse : jsstring -> option Z.
Variable toTimeString : Z -> jsstring.

Local Abbreviation stopCapture := (Background.stopCapture Date_parse toTimeString).
Local Abbreviation stopCapture_finish := (Background.stopCapture_finish Date_parse toTimeString).
Local Abbreviation autoStopCapture := (Background.autoStopCapture Date_parse toTimeString).
Local Abbreviation saveCapture := (Background.saveCapture Date_parse toTimeString).
Local Abbreviation captureText := (Background.captureText Date_parse toTimeString).
Local Abbreviation resume := (Background.resume Date_parse toTimeString).
Local Abbreviation toggle := (Background.toggle Date_parse toTimeString).
Local Abbreviation onMessage := (Background.onMessage Date_parse toTimeString).
Local Abbreviation handle := (Background.handle Date_parse toTimeString).
Local Abbreviation step := (Background.step Date_parse toTimeString).
Local Abbreviation run := (Background.run Date_parse toTimeString).

Lemma tells_nothing (s : state) : tells s [] s.
Proof. intros p ->. reflexivity. Qed.

Lemma stopCapture_finish_tells (w : bool) (now : Z) (s : state) :
  tells s (snd (stopCapture_finish w now s)) (fst (stopCapture_finish w now s)).
Proof.
  unfold Background.stopCapture_finish.
  destruct (w && negb (Nat.eqb (length (capturedText s)) 0)).
  - unfold Background.saveCapture.
    destruct (Background.formatOutput Date_parse s now) as [content |];
      [| apply tells_nothing].
    destruct content, (capturedText s); intros p ->; reflexivity.
  - intros p ->. reflexivity.
Qed.

Lemma stopCapture_tells (now : Z) (s : state) :
  tells s (snd (fst (stopCapture now s))) (fst (fst (stopCapture now s))).
Proof.
  unfold Background.stopCapture.
  destruct (isCapturing s) eqn:Hrec; cbn [negb]; [| apply tells_nothing].
  destruct (truthy_tab (activeTabId (stopped s))) as [tab |].
  - intros p ->. reflexivity.
  - pose proof (stopCapture_finish_tells true now (stopped s)) as Hfin.
    destruct (Background.stopCapture_finish Date_parse toTimeString true now (stopped s))
      as [s2 effs]. cbn [fst snd] in *.
    intros p ->. cbn [hears fold_left Popup.onMessage].
    exact (Hfin (updateUI false) eq_refl).
Qed.

Lemma autoStopCapture_tells (reason : jsstring) (now : Z) (s : state) :
  tells s (snd (fst (autoStopCapture reason now s))) (fst (fst (autoStopCapture reason now s))).
Proof.
  unfold Background.autoStopCapture.
  destruct (truthy_tab (activeTabId s)) as [tab |]; [| apply stopCapture_tells].
  intros p ->. reflexivity.
Qed.

Lemma captureText_tells (sender_tab : option Z) (e : entry) (now : Z) (s : state) :
  tells s (snd (fst (captureText sender_tab e now s))) (fst (fst (captureText sender_tab e now s))).
Proof.
  unfold Background.captureText.
  destruct (negb (isCapturing s)); [apply tells_nothing |].
  destruct (negb (same_tab sender_tab (activeTabId s))); [apply tells_nothing |].
  destruct (Set_has _ _); [apply tells_nothing |].
  destruct (_ >? MAX_CAPTURE_SIZE).
  - exact (autoStopCapture_tells size_limit_reason now (remember (fingerprint (text e)) s)).
  - cbn [fst snd]. destruct sender_tab; intros p ->; reflexivity.
Qed.

Lemma toggle_tells (tabId now : Z) (s : state) :
  tells s (snd (fst (toggle tabId now s))) (fst (fst (toggle tabId now s))).
Proof.
  unfold Background.toggle.
  destruct (isCapturing s) eqn:Hrec; cbn [negb]; [apply stopCapture_tells |].
  unfold startCapture. rewrite Hrec. cbn [fst snd]. intros p ->. reflexivity.
Qed.

Lemma resume_tells (t : task) (now : Z) (s : state) :
  tells s (snd (fst (resume t now s))) (fst (fst (resume t now s))).
Proof.
  destruct t as [| w]; cbn [Background.resume]; [apply stopCapture_tells |].
  pose proof (stopCapture_finish_tells w now s) as Hfin.
  destruct (Background.stopCapture_finish Date_parse toTimeString w now s) as [s' effs].
  exact Hfin.
Qed.

Lemma handle_tells (ev : event) (now : Z) (s : state) (waiting : list task) :
  tells s (snd (fst (fst (handle ev now s waiting)))) (fst (fst (fst (handle ev now s waiting)))).
Proof.
  destruct ev as [sender_tab m | [tabId |] | tabId | i]; cbn [Background.handle].
  - destruct m as [| tabId | e | imageUrl filename]; cbn [Background.onMessage].
    + apply tells_nothing.
    + pose proof (toggle_tells tabId now s) as H.
      destruct (Background.toggle Date_parse toTimeString tabId now s) as [[s' effs] spawned].
      exact H.
    + pose proof (captureText_tells sender_tab e now s) as H.
      destruct (Background.captureText Date_parse toTimeString sender_tab e now s)
        as [[s' effs] spawned].
      exact H.
    + intros p ->. reflexivity.
  - pose proof (toggle_tells tabId now s) as H.
    destruct (Background.toggle Date_parse toTimeString tabId now s) as [[s' effs] spawned].
    exact H.
  - apply tells_nothing.
  - destruct (isCapturing s && same_tab (Some tabId) (activeTabId s)); [| apply tells_nothing].
    pose proof (stopCapture_tells now s) as H.
    destruct (Background.stopCapture Date_parse toTimeString now s) as [[s' effs] spawned].
    exact H.
  - destruct (waiting !! i) as [t |]; [| apply tells_nothing].
    pose proof (resume_tells t now s) as H.
    destruct (Background.resume Date_parse toTimeString t now s) as [[s' effs] spawned].
    exact H.
Qed.

Lemma hears_app (calls1 calls2 : list effect) (p : popup) :
  hears (calls1 ++ calls2) p = hears calls2 (hears calls1 p).
Proof. unfold hears. apply fold_left_app. Qed.

Lemma step_tells (sys : system) (ev : event) (now : Z) :
  exists effs,
    calls (step sys ev now) = calls sys ++ effs
    /\ tells (vars sys) effs (vars (step sys ev now)).
Proof.
  pose proof (handle_tells ev now (vars sys) (suspended sys)) as Hstep.
  unfold Background.step.
  destruct (Background.handle Date_parse toTimeString ev now (vars sys) (suspended sys))
    as [[[s' effs] spawned] waiting].
  exists effs. split; [reflexivity | exact Hstep].
Qed.

Lemma run_tells (evs : list (event * Z)) (sys : system) :
  exists heard,
    calls (run sys evs) = calls sys ++ heard
    /\ hears heard (updateUI (isCapturing (vars sys)))
       = updateUI (isCapturing (vars (run sys evs))).
Proof.
  revert sys. induction evs as [| [ev now] evs IH]; intros sys.
  - exists []. split; [symmetry; apply app_nil_r | reflexivity].
  - change (run sys ((ev, now) :: evs)) with (run (step sys ev now) evs).
    destruct (IH (step sys ev now)) as (heard & Hcalls & Hview).
    destruct (step_tells sys ev now) as (effs & Hmade & Htold).
    exists (effs ++ heard). split.
    + rewrite Hcalls, Hmade, <- app_assoc. reflexivity.
    + rewrite hears_app, (Htold _ eq_refl). exact Hview.
Qed.

(** X8. The popup follows the background script: a popup that has
    opened in any state the event loop can reach, and has heard the
    stateChanged messages sent since, shows the state the background
    script is in; its button reads Stop Recording exactly when
    isCapturing is true. *)
Theorem popup_follows_state (evs evs' : list (event * Z)) :
  let sys := run boot evs in
  let sys' := run sys evs' in
  exists heard,
    calls sys' = calls sys ++ heard
    /\ hears heard (opened (Some (getState None (vars sys))))
       = updateUI (isCapturing (vars sys'))
    /\ (recordText (hears heard (opened (Some (getState None (vars sys)))))
        = lit "Stop Recording" <-> isCapturing (vars sys') = true).
Proof.
  intros sys sys'.
  destruct (run_tells evs' sys) as (heard & Hcalls & Hview).
  exists heard. split; [exact Hcalls |].
  assert (Hsame : hears heard (opened (Some (getState None (vars sys))))
                  = updateUI (isCapturing (vars sys'))) by exact Hview.
  split; [exact Hsame |].
  rewrite Hsame. destruct (isCapturing (vars sys')); cbn; split; (reflexivity || discriminate).
Qed.

End PopupView.

(** ** The tab title *)

Section Collapse.

(** Runs of a class that become one unit of the class, and the two ends
    cleared of the class. *)
Variable k : cclass.
Variable sp : N.

Local Abbreviation squeeze := (replace_runs k [sp]).
Local Abbreviation of_class := (class_matches k).
Local Abbreviation tidy := (PageFacts.tidy k sp).

Lemma squeeze_length (b : bool) (s : jsstring) : (length (squeeze b s) <= length s)%nat.
Proof.
  revert b. induction s as [| c s IH]; intros b; cbn [replace_runs]; [reflexivity |].
  destruct (of_class c).
  - pose proof (IH true) as Hrun. destruct b; cbn [app length]; lia.
  - pose proof (IH false) as Hrun. cbn [length]. lia.
Qed.

(** A unit outside the class ends the run before it. *)
Lemma squeeze_split (b : bool) (u v : jsstring) (c : N) :
  of_class c = false ->
  squeeze b (u ++ c :: v) = squeeze b u ++ c :: squeeze false v.
Proof.
  intros Hc. revert b. induction u as [| x u IH]; intros b; cbn [app replace_runs].
  - rewrite Hc. reflexivity.
  - destruct (of_class x).
    + destruct b; rewrite IH; reflexivity.
    + rewrite IH. reflexivity.
Qed.

Lemma squeeze_flag (b : bool) (c : N) (v : jsstring) :
  of_class c = false -> squeeze b (c :: v) = c :: squeeze false v.
Proof. intros Hc. exact (squeeze_split b [] v c Hc). Qed.

(** Two strings of which the parts are no longer than the parts of two
    others, and which make the same whole, are those. *)
Lemma app_eq_shorter (a a' b b' : jsstring) :
  a ++ b = a' ++ b' -> (length a <= length a')%nat -> (length b <= length b')%nat ->
  a = a' /\ b = b'.
Proof.
  intros Heq Ha Hb. apply app_inj_1; [| exact Heq].
  apply (f_equal (@length N)) in Heq. rewrite !length_app in Heq. lia.
Qed.

Lemma drop_while_fixed (s : jsstring) (c : N) (rest : jsstring) :
  s = c :: rest -> of_class c = false -> drop_while of_class s = s.
Proof. intros -> Hc. cbn. rewrite Hc. reflexivity. Qed.

Lemma drop_while_cases (s : jsstring) :
  drop_while of_class s = []
  \/ exists c rest, drop_while of_class s = c :: rest /\ of_class c = false.
Proof.
  destruct (drop_while of_class s) as [| c rest] eqn:Hd; [left; reflexivity |].
  right. exists c, rest. split; [reflexivity | exact (drop_while_head _ _ _ _ Hd)].
Qed.

Lemma drop_end_while_cases (s : jsstring) :
  drop_end_while of_class s = []
  \/ exists front c, drop_end_while of_class s = front ++ [c] /\ of_class c = false.
Proof.
  destruct (drop_end_while of_class s) as [| x kept] eqn:He; [left; reflexivity |].
  right. destruct (exists_last (l := x :: kept) ltac:(discriminate)) as (front & c & Hlast).
  exists front, c. split; [exact Hlast |].
  rewrite Hlast in He. exact (drop_end_while_last _ _ _ _ He).
Qed.

Lemma drop_end_while_fixed (front : jsstring) (c : N) :
  of_class c = false -> drop_end_while of_class (front ++ [c]) = front ++ [c].
Proof.
  intros Hc. induction front as [| x front IH]; cbn [app drop_end_while].
  - rewrite Hc. reflexivity.
  - rewrite IH. destruct front; reflexivity.
Qed.

Lemma drop_end_while_app (u v : jsstring) :
  v <> [] -> drop_end_while of_class v = v -> drop_end_while of_class (u ++ v) = u ++ v.
Proof.
  intros Hv Hfixed.
  destruct (drop_end_while_cases v) as [Hnil | (front & c & Hlast & Hc)]; [congruence |].
  rewrite Hfixed in Hlast. rewrite Hlast, app_assoc. apply drop_end_while_fixed. exact Hc.
Qed.

Lemma squeeze_drop_while (y : jsstring) :
  squeeze false y = y -> squeeze false (drop_while of_class y) = drop_while of_class y.
Proof.
  intros Hy.
  destruct (drop_while_cases y) as [-> | (c & rest & Hd & Hc)]; [reflexivity |].
  destruct (drop_while_suffix of_class y) as [gone Hsplit].
  rewrite Hd in *. rewrite Hsplit in Hy. rewrite squeeze_split in Hy by exact Hc.
  destruct (app_eq_shorter _ _ _ _ Hy (squeeze_length false gone)) as [_ Hrest].
  - cbn [length]. pose proof (squeeze_length false rest). lia.
  - rewrite squeeze_flag by exact Hc. exact Hrest.
Qed.

Lemma squeeze_drop_end_while (y : jsstring) :
  squeeze false y = y -> squeeze false (drop_end_while of_class y) = drop_end_while of_class y.
Proof.
  intros Hy.
  destruct (drop_end_while_cases y) as [-> | (front & c & He & Hc)]; [reflexivity |].
  destruct (drop_end_while_prefix of_class y) as [gone Hsplit].
  rewrite He in *. rewrite <- app_assoc in Hsplit. cbn [app] in Hsplit.
  rewrite Hsplit in Hy. rewrite squeeze_split in Hy by exact Hc.
  destruct (app_eq_shorter _ _ _ _ Hy (squeeze_length false front)) as [Hfront _].
  - cbn [length]. pose proof (squeeze_length false gone). lia.
  - rewrite squeeze_split by exact Hc. cbn [replace_runs]. rewrite Hfront. reflexivity.
Qed.

Lemma squeeze_twice (s : jsstring) :
  of_class sp = true ->
  squeeze false (squeeze false s) = squeeze false s
  /\ squeeze false (squeeze true s) = squeeze true s
  /\ squeeze true (squeeze true s) = squeeze true s.
Proof.
  intros Hsp. induction s as [| c s (IHff & IHft & IHtt)]; cbn [replace_runs];
    [repeat split; reflexivity |].
  destruct (of_class c) eqn:Hc.
  - cbn [app replace_runs]. rewrite Hsp. cbn [app]. rewrite IHtt. repeat split; assumption.
  - cbn [replace_runs]. rewrite Hc, IHff. repeat split; reflexivity.
Qed.

Lemma drop_end_while_twice (s : jsstring) :
  drop_end_while of_class (drop_end_while of_class s) = drop_end_while of_class s.
Proof.
  destruct (drop_end_while_cases s) as [-> | (front & c & -> & Hc)]; [reflexivity |].
  apply drop_end_while_fixed. exact Hc.
Qed.

Lemma drop_while_drop_end (z : jsstring) :
  drop_while of_class z = z ->
  drop_while of_class (drop_end_while of_class z) = drop_end_while of_class z.
Proof.
  intros Hz.
  destruct (drop_end_while of_class z) as [| x kept] eqn:He; [reflexivity |].
  destruct (drop_end_while_prefix of_class z) as [gone Hsplit]. rewrite He in Hsplit.
  rewrite Hsplit in Hz. cbn [app] in Hz.
  apply (drop_while_fixed _ x kept eq_refl).
  exact (drop_while_head _ _ _ _ Hz).
Qed.

Lemma drop_while_twice (s : jsstring) :
  drop_while of_class (drop_while of_class s) = drop_while of_class s.
Proof.
  destruct (drop_while_cases s) as [-> | (c & rest & -> & Hc)]; [reflexivity |].
  cbn. rewrite Hc. reflexivity.
Qed.

Lemma tidy_normal (s : jsstring) :
  of_class sp = true ->
  tidy (drop_end_while of_class (drop_while of_class (squeeze false s))).
Proof.
  intros Hsp. destruct (squeeze_twice s Hsp) as (Hff & _).
  repeat split.
  - apply squeeze_drop_end_while, squeeze_drop_while. exact Hff.
  - apply drop_while_drop_end, drop_while_twice.
  - apply drop_end_while_twice.
Qed.

Lemma tidy_head (c : N) (rest : jsstring) : tidy (c :: rest) -> of_class c = false.
Proof. intros (_ & Hd & _). exact (drop_while_head _ _ _ _ Hd). Qed.

(** Units outside the class before a tidy string that is not empty,
    with one unit of the class between: tidy again. *)
Lemma tidy_prefixed (a b : N) (g : jsstring) :
  of_class a = false -> of_class b = false -> of_class sp = true ->
  g <> [] -> tidy g -> tidy (a :: b :: sp :: g).
Proof.
  intros Ha Hb Hsp Hg Htidy. destruct g as [| c rest]; [congruence |].
  pose proof (tidy_head c rest Htidy) as Hc.
  destruct Htidy as (Hs & Hd & He).
  repeat split.
  - rewrite squeeze_flag in Hs by exact Hc. injection Hs as Hs.
    rewrite !squeeze_flag by assumption. cbn [replace_runs]. rewrite Hsp, Hc. cbn [app].
    rewrite Hs. reflexivity.
  - cbn. rewrite Ha. reflexivity.
  - apply (drop_end_while_app [a; b; sp] (c :: rest)); [discriminate | exact He].
Qed.

End Collapse.

Section TabTitle.

Import ContentScript Page.

Lemma strip_and_collapse_tidy (s : jsstring) : PageFacts.tidy ascii_whitespace 32 (strip_and_collapse s).
Proof. apply tidy_normal. reflexivity. Qed.

Lemma strip_and_collapse_fixed (s : jsstring) :
  PageFacts.tidy ascii_whitespace 32 s -> strip_and_collapse s = s.
Proof.
  intros (Hs & Hd & He). unfold strip_and_collapse.
  change (lit " ") with [32%N]. rewrite Hs, Hd, He. reflexivity.
Qed.

(** Reading the title twice reads the same. *)
Lemma strip_and_collapse_twice (s : jsstring) :
  strip_and_collapse (strip_and_collapse s) = strip_and_collapse s.
Proof. apply strip_and_collapse_fixed, strip_and_collapse_tidy. Qed.

Lemma marked_title (g : jsstring) :
  g <> [] -> PageFacts.tidy ascii_whitespace 32 g ->
  strip_and_collapse (RECORDING_EMOJI ++ g) = RECORDING_EMOJI ++ g.
Proof.
  intros Hg Htidy. apply strip_and_collapse_fixed.
  apply (tidy_prefixed ascii_whitespace 32 55357 56628 g); auto.
Qed.

Lemma startsWith_app (prefix s : jsstring) : startsWith prefix (prefix ++ s) = true.
Proof.
  unfold startsWith. apply bool_decide_eq_true_2.
  rewrite firstn_app, Nat.sub_diag, firstn_all. cbn. apply app_nil_r.
Qed.

(** X9. The recording marker is put once: for a title that is not
    empty, after the callback of the title observer the title starts with
    the marker, and the callback and setRecordingTitle change nothing when
    they run again.  For an empty title the space that ends the marker is
    lost when the title is read back: the title is the red circle alone,
    which does not start with the marker, and the next callback puts a
    second marker before it. *)
Theorem recording_marker_once (t : titling) :
  (document_title t <> [] ->
   startsWith RECORDING_EMOJI (document_title (onTitleMutation true t)) = true
   /\ onTitleMutation true (onTitleMutation true t) = onTitleMutation true t
   /\ setRecordingTitle true (setRecordingTitle true t) = setRecordingTitle true t)
  /\ (document_title t = [] ->
      document_title (onTitleMutation true t) = [55357; 56628]%N
      /\ document_title (onTitleMutation true (onTitleMutation true t))
         = RECORDING_EMOJI ++ [55357; 56628]%N).
Proof.
  assert (Htidy : PageFacts.tidy ascii_whitespace 32 (document_title t)).
  { unfold document_title. destruct (title_text t); [apply strip_and_collapse_tidy |].
    repeat split. }
  assert (Hkeep : forall u, startsWith RECORDING_EMOJI (document_title u) = true ->
            onTitleMutation true u = u).
  { intros u Hstart. unfold onTitleMutation. rewrite Hstart. reflexivity. }
  assert (Hmark : forall u, document_title u <> [] -> PageFacts.tidy ascii_whitespace 32 (document_title u) ->
            startsWith RECORDING_EMOJI (document_title (onTitleMutation true u)) = true
            /\ onTitleMutation true (onTitleMutation true u) = onTitleMutation true u).
  { intros u Hu Hut.
    destruct (startsWith RECORDING_EMOJI (document_title u)) eqn:Hstart.
    - rewrite !(Hkeep u Hstart). split; [exact Hstart | reflexivity].
    - assert (Hwrite : onTitleMutation true u
                       = write_title (RECORDING_EMOJI ++ document_title u) u)
        by (unfold onTitleMutation; rewrite Hstart; reflexivity).
      assert (Hread : document_title (write_title (RECORDING_EMOJI ++ document_title u) u)
                      = RECORDING_EMOJI ++ document_title u)
        by (apply marked_title; assumption).
      assert (Hnow : startsWith RECORDING_EMOJI (document_title (onTitleMutation true u))
                     = true) by (rewrite Hwrite, Hread; apply startsWith_app).
      split; [exact Hnow | exact (Hkeep _ Hnow)]. }
  pose (remembered := fun u : titling =>
          match originalTitle u with
          | None => {| title_text := title_text u; originalTitle := Some (document_title u);
                       titleObserver := titleObserver u |}
          | Some _ => u
          end).
  assert (Hset : forall u, setRecordingTitle true u = onTitleMutation true (remembered u))
    by reflexivity.
  assert (Hread : forall u, document_title (remembered u) = document_title u)
    by (intros u; unfold remembered; destruct (originalTitle u); reflexivity).
  assert (Hdone : forall u, originalTitle u <> None -> remembered u = u)
    by (intros u Hu; unfold remembered; destruct (originalTitle u); [reflexivity | congruence]).
  assert (Hsaved : forall u, originalTitle (onTitleMutation true (remembered u)) <> None).
  { intros u. unfold onTitleMutation, remembered.
    destruct (true && _); destruct (originalTitle u) eqn:Hu; cbn; congruence. }
  split.
  - intros Hsome. destruct (Hmark t Hsome Htidy) as [Hstart Hagain].
    split; [exact Hstart |]. split; [exact Hagain |].
    rewrite !Hset. rewrite (Hdone _ (Hsaved t)).
    apply Hmark; rewrite Hread; assumption.
  - intros Hnone.
    assert (Hfirst : document_title (onTitleMutation true t) = [55357; 56628]%N).
    { unfold onTitleMutation. rewrite Hnone. reflexivity. }
    split; [exact Hfirst |].
    unfold onTitleMutation at 1. rewrite Hfirst. reflexivity.
Qed.

End TabTitle.

(** ** Decimal numerals *)

Section Numerals.

Lemma usize_nb_digits (d : Decimal.uint) :
  DecimalPos.Unsigned.usize d = N.of_nat (Decimal.nb_digits d).
Proof. induction d; cbn [DecimalPos.Unsigned.usize Decimal.nb_digits]; lia. Qed.

Lemma of_uint_acc_lower (d : Decimal.uint) (acc : positive) :
  (N.pos acc * 10 ^ N.of_nat (Decimal.nb_digits d) <= N.pos (Pos.of_uint_acc d acc))%N.
Proof. rewrite Unsigned.of_uint_acc_rev, usize_nb_digits. lia. Qed.

(** The numeral of a positive number does not start with a zero. *)
Lemma to_uint_head (p : positive) :
  match Pos.to_uint p with
  | Decimal.Nil | Decimal.D0 _ => False
  | _ => True
  end.
Proof.
  pose proof (DecimalPos.Unsigned.to_of (Pos.to_uint p)) as Hnorm.
  rewrite DecimalPos.Unsigned.of_to in Hnorm. cbn [N.to_uint] in Hnorm.
  pose proof (Unsigned.to_uint_nonnil p) as Hnonnil.
  pose proof (Unsigned.to_uint_nonzero p) as Hnonzero.
  destruct (Pos.to_uint p) as [| l | l | l | l | l | l | l | l | l | l] eqn:Hd;
    try exact I; try congruence.
  unfold Decimal.unorm in Hnorm. cbn [Decimal.nzhead] in Hnorm.
  pose proof (nb_digits_nzhead l) as Hshort.
  destruct (Decimal.nzhead l) eqn:Hhead; try congruence;
    injection Hnorm as Hnorm; rewrite <- Hnorm in Hshort; cbn in Hshort; lia.
Qed.

Lemma to_uint_lower (p : positive) :
  (10 ^ N.of_nat (Decimal.nb_digits (Pos.to_uint p) - 1) <= N.pos p)%N.
Proof.
  pose proof (to_uint_head p) as Hhead.
  rewrite <- (DecimalPos.Unsigned.of_to p).
  destruct (Pos.to_uint p) as [| l | l | l | l | l | l | l | l | l | l];
    try contradiction;
    cbn [Pos.of_uint Decimal.nb_digits]; rewrite Nat.sub_succ, Nat.sub_0_r;
    match goal with |- (_ <= N.pos (Pos.of_uint_acc l ?acc))%N =>
      pose proof (of_uint_acc_lower l acc) end; nia.
Qed.

Lemma String_of_Z_pos (p : positive) :
  length (String_of_Z (Z.pos p)) = Decimal.nb_digits (Pos.to_uint p).
Proof.
  unfold String_of_Z. rewrite lit_length. cbn [Z.to_int NilZero.string_of_int].
  unfold NilZero.string_of_uint. pose proof (Unsigned.to_uint_nonnil p) as Hnonnil.
  destruct (Pos.to_uint p) eqn:Hd; try congruence; rewrite string_of_uint_length; reflexivity.
Qed.

(** A number below 10^k has at most k digits. *)
Lemma String_of_Z_short (n : Z) (k : nat) :
  0 <= n < 10 ^ Z.of_nat k -> (1 <= k)%nat -> (length (String_of_Z n) <= k)%nat.
Proof.
  intros [Hpos Hlt] Hk. destruct n as [| p | p]; [cbn; lia | | lia].
  rewrite String_of_Z_pos. pose proof (to_uint_lower p) as Hlow.
  destruct (le_lt_dec (Decimal.nb_digits (Pos.to_uint p)) k) as [Hok | Hlong]; [exact Hok |].
  exfalso.
  assert (Hpow : (10 ^ N.of_nat k <= 10 ^ N.of_nat (Decimal.nb_digits (Pos.to_uint p) - 1))%N)
    by (apply N.pow_le_mono_r; lia).
  assert (Hz : Z.of_N (10 ^ N.of_nat k) = 10 ^ Z.of_nat k)
    by (rewrite N2Z.inj_pow, nat_N_Z; reflexivity).
  lia.
Qed.

Lemma string_of_uint_digits (d : Decimal.uint) :
  Forall (fun c => is_digit c = true) (lit (NilEmpty.string_of_uint d)).
Proof. induction d; cbn; constructor; (reflexivity || assumption). Qed.

Lemma String_of_Z_digits (n : Z) :
  0 <= n -> Forall (fun c => is_digit c = true) (String_of_Z n).
Proof.
  intros Hpos. destruct n as [| p | p]; [repeat constructor | | lia].
  unfold String_of_Z. cbn [Z.to_int NilZero.string_of_int]. unfold NilZero.string_of_uint.
  destruct (Pos.to_uint p) eqn:Hd; rewrite <- ?Hd; try apply string_of_uint_digits.
  repeat constructor.
Qed.

(** The units of a decimal numeral: digits, and a minus sign. *)
Lemma String_of_Z_units (n : Z) :
  Forall (fun c => is_digit c = true \/ c = 45%N) (String_of_Z n).
Proof.
  destruct (Z_le_gt_dec 0 n) as [Hpos | Hneg].
  - eapply Forall_impl; [apply String_of_Z_digits; exact Hpos | intros c Hc; left; exact Hc].
  - destruct n as [| p | p]; try lia.
    unfold String_of_Z. cbn [Z.to_int NilZero.string_of_int]. unfold NilZero.string_of_uint.
    change (lit (String "-" ?s)) with (45%N :: lit s).
    constructor; [right; reflexivity |].
    eapply Forall_impl with (P := fun c => is_digit c = true); [| intros c Hc; left; exact Hc].
    destruct (Pos.to_uint p) eqn:Hd; rewrite <- ?Hd; try apply string_of_uint_digits.
    repeat constructor.
Qed.

Lemma padStart_length (width : nat) (c : N) (s : jsstring) :
  length (padStart width c s) = Nat.max width (length s).
Proof. unfold padStart. rewrite length_app, repeat_length. lia. Qed.

End Numerals.

(** ** What the indicator shows is not captured *)

Section OwnTexts.

Import ContentScript Page.

Lemma cleanText_length (t : jsstring) : String_length (cleanText t) <= String_length t.
Proof.
  unfold cleanText, remove_class, String_length.
  pose proof (trim_length (List.filter (fun c => negb (class_matches zero_width c))
                             (replace_runs CSpace (lit " ") false t))) as H1.
  pose proof (list_filter_length (fun c => negb (class_matches zero_width c))
                (replace_runs CSpace (lit " ") false t)) as H2.
  pose proof (replace_runs_length false t) as H3. lia.
Qed.

(** A text shorter than MIN_TEXT_LENGTH goes no further. *)
Lemma short_rejected (f : frame) (now : Z) (raw : jsstring) (src : source) :
  String_length raw < MIN_TEXT_LENGTH -> processText f now raw src = (f, []).
Proof.
  intros Hshort. pose proof (cleanText_length raw) as Hclean.
  unfold processText. fold (stored_form raw).
  rewrite stored_form_short by (unfold MIN_TEXT_LENGTH, MAX_TEXT_LENGTH in *; lia).
  destruct (String_length (cleanText raw) <? MIN_TEXT_LENGTH) eqn:Hcmp; [reflexivity | lia].
Qed.

Lemma replace_runs_none (b : bool) (s : jsstring) :
  Forall (fun c => is_space c = false) s -> replace_runs CSpace (lit " ") b s = s.
Proof.
  intros Hall. revert b. induction Hall as [| c s Hc Hs IH]; intros b; [reflexivity |].
  cbn [replace_runs class_matches]. rewrite Hc, IH. reflexivity.
Qed.

Lemma drop_end_while_none (s : jsstring) :
  Forall (fun c => is_space c = false) s -> drop_end_while is_space s = s.
Proof.
  induction 1 as [| c s Hc Hs IH]; [reflexivity |].
  cbn [drop_end_while]. rewrite IH, Hc. destruct s; reflexivity.
Qed.

Lemma digit_plain (c : N) :
  is_digit c = true -> is_space c = false /\ class_matches zero_width c = false.
Proof.
  intros Hc. unfold is_digit, between in Hc.
  apply andb_true_iff in Hc. destruct Hc as [Hlo Hhi]. apply N.leb_le in Hlo, Hhi.
  assert (Hin : In c [48; 49; 50; 51; 52; 53; 54; 55; 56; 57]%N) by (cbn; lia).
  cbn in Hin.
  repeat (destruct Hin as [<- | Hin]; [split; reflexivity |]). contradiction.
Qed.

(** A string of digits is its own cleaned text. *)
Lemma cleanText_digits (s : jsstring) :
  Forall (fun c => is_digit c = true) s -> cleanText s = s.
Proof.
  intros Hall.
  assert (Hplain : Forall (fun c => is_space c = false) s)
    by (eapply Forall_impl; [exact Hall | intros c Hc; apply (digit_plain c Hc)]).
  unfold cleanText, remove_class, trim. rewrite (replace_runs_none false s Hplain).
  assert (Hkeep : List.filter (fun c => negb (class_matches zero_width c)) s = s).
  { clear Hplain. induction Hall as [| c s Hc Hs IH]; [reflexivity |].
    cbn [List.filter]. rewrite IH.
    destruct (digit_plain c Hc) as [_ ->]. reflexivity. }
  rewrite Hkeep.
  destruct s as [| c s]; [reflexivity |]. cbn [drop_while].
  inversion Hplain as [| ? ? Hc Hs]; subst. rewrite Hc.
  apply drop_end_while_none. exact Hplain.
Qed.

Lemma all_digits_matches (s : jsstring) :
  s <> [] -> Forall (fun c => is_digit c = true) s -> test all_digits s = true.
Proof.
  intros Hs Hall.
  assert (Hstar : forall t, Forall (fun c => is_digit c = true) t ->
            match_star CDigit (match_here [] true) t = true).
  { induction 1 as [| c t Hc Ht IH]; [reflexivity |].
    cbn [match_star match_here class_matches]. rewrite Hc. exact IH. }
  destruct Hall as [| c s Hc Hrest]; [congruence |].
  cbn [test all_digits whole from_start pieces to_end match_here match_times class_matches].
  rewrite Hc. apply Hstar. exact Hrest.
Qed.

(** X10. The indicator's own texts are not captured: processText
    drops the decimal text of every count from 0 to 2^53, and the text
    formatTime gives for every number of seconds from 0 to 60 million. *)
Theorem indicator_updates_not_captured (f : frame) (now : Z) (src : source) :
  (forall count : Z, 0 <= count < 2 ^ 53 ->
     processText f now (String_of_Z count) src = (f, []))
  /\ (forall seconds : Z, 0 <= seconds < 60 * 10 ^ 6 ->
        processText f now (formatTime seconds) src = (f, [])).
Proof.
  split.
  - intros count [Hpos Hsafe].
    pose proof (String_of_Z_digits count Hpos) as Hdigits.
    assert (Hlen : (length (String_of_Z count) <= 16)%nat)
      by (apply String_of_Z_short; [change (Z.of_nat 16) with 16; lia | lia]).
    destruct (Z_lt_ge_dec (String_length (String_of_Z count)) MIN_TEXT_LENGTH) as [Hshort | Hlong];
      [apply short_rejected; exact Hshort |].
    unfold processText. fold (stored_form (String_of_Z count)).
    rewrite stored_form_short
      by (rewrite cleanText_digits by exact Hdigits;
          unfold String_length, MAX_TEXT_LENGTH; lia).
    rewrite cleanText_digits by exact Hdigits.
    destruct (String_length (String_of_Z count) <? MIN_TEXT_LENGTH); [reflexivity |].
    rewrite all_digits_matches; [reflexivity | | exact Hdigits].
    intros Hnil. rewrite Hnil in Hlong. unfold MIN_TEXT_LENGTH, String_length in Hlong.
    cbn in Hlong. lia.
  - intros seconds [Hpos Hbound]. apply short_rejected.
    unfold formatTime, String_length, MIN_TEXT_LENGTH.
    rewrite !length_app, !padStart_length. change (length (lit ":")) with 1%nat.
    assert (Hmins : (length (String_of_Z (seconds / 60)) <= 6)%nat).
    { apply String_of_Z_short; [| lia]. change (Z.of_nat 6) with 6.
      split; [apply Z.div_pos; lia | apply Z.div_lt_upper_bound; lia]. }
    assert (Hsecs : (length (String_of_Z (Z.rem seconds 60)) <= 2)%nat).
    { apply String_of_Z_short; [| lia]. change (Z.of_nat 2) with 2.
      pose proof (Z.rem_bound_pos seconds 60 Hpos ltac:(lia)). lia. }
    lia.
Qed.

End OwnTexts.

(** ** The extension of a saved image *)

Section ImageNames.

Import ContentScript Page.

(** A unit that matches a lower-case letter under the [i] flag is that
    letter once it is lowered. *)
Lemma CCharI_lowered (x c : N) :
  is_lower x = true -> class_matches (CCharI x) c = true ->
  (if is_upper c then (c + 32)%N else c) = x.
Proof.
  unfold is_lower, is_upper, between. intros Hx. cbn [class_matches].
  unfold between, fold_case, is_lower, between. rewrite Hx.
  apply andb_true_iff in Hx. destruct Hx as [Hlo Hhi]. apply N.leb_le in Hlo, Hhi.
  destruct ((0 <=? c)%N && (c <=? 127)%N) eqn:Hascii.
  - destruct ((97 <=? c)%N && (c <=? 122)%N) eqn:Hlow; intros Heq; apply N.eqb_eq in Heq.
    + apply andb_true_iff in Hlow. destruct Hlow as [H1 H2]. apply N.leb_le in H1, H2.
      replace ((65 <=? c)%N && (c <=? 90)%N) with false
        by (symmetry; apply andb_false_iff; right; apply N.leb_gt; lia).
      lia.
    + assert (Hup : (65 <= c <= 90)%N) by lia.
      replace ((65 <=? c)%N && (c <=? 90)%N) with true
        by (symmetry; apply andb_true_iff; split; apply N.leb_le; lia).
      lia.
  - intros Heq. apply N.eqb_eq in Heq. subst c.
    apply andb_false_iff in Hascii. destruct Hascii as [H | H]; apply N.leb_gt in H; lia.
Qed.

Lemma toLowerCase_cons (c : N) (s : jsstring) :
  toLowerCase (c :: s) = (if is_upper c then (c + 32)%N else c) :: toLowerCase s.
Proof. reflexivity. Qed.

(** The pieces of a literal under the [i] flag, matched at the head. *)
Lemma stri_head (x : ascii) (rest : string) (at_end : bool) (s : jsstring) :
  match_here (stri (String x rest)) at_end s = true ->
  exists c s', s = c :: s' /\ class_matches (CCharI (N_of_ascii x)) c = true
               /\ match_here (stri rest) at_end s' = true.
Proof.
  change (stri (String x rest)) with ((CCharI (N_of_ascii x), Once) :: stri rest).
  cbn [match_here match_times]. destruct s as [| c s']; [discriminate |].
  destruct (class_matches (CCharI (N_of_ascii x)) c) eqn:Hc; [| discriminate].
  intros Hrest. exists c, s'. auto.
Qed.

Ltac read_letter H :=
  let c := fresh "c" in let s := fresh "s" in
  let Hc := fresh "Hc" in let Hs := fresh "Hs" in
  apply stri_head in H; destruct H as (c & s & Hs & Hc & H);
  try (injection Hs as <- <-); try subst;
  try (apply CCharI_lowered in Hc; [| reflexivity]).

Ltac lowered :=
  repeat match goal with
         | H : (if is_upper _ then _ else _) = _ |- _ => rewrite H; clear H
         end;
  reflexivity.

Lemma first_extension_lowered (address found : jsstring) :
  first_extension address = Some found ->
  toLowerCase found = lit "png" \/ toLowerCase found = lit "jpeg"
  \/ toLowerCase found = lit "jpg".
Proof.
  induction address as [| c0 after IH]; cbn [first_extension]; [discriminate |].
  destruct (match_here (stri ".png") false (c0 :: after)) eqn:Hpng.
  - intros Hf. injection Hf as <-. left.
    read_letter Hpng. read_letter Hpng. read_letter Hpng. read_letter Hpng.
    cbn [firstn]. rewrite !toLowerCase_cons. lowered.
  - destruct (match_here (stri ".jpeg") false (c0 :: after)) eqn:Hjpeg.
    + intros Hf. injection Hf as <-. right; left.
      read_letter Hjpeg. read_letter Hjpeg. read_letter Hjpeg. read_letter Hjpeg.
      read_letter Hjpeg.
      cbn [firstn]. rewrite !toLowerCase_cons. lowered.
    + destruct (match_here (stri ".jpg") false (c0 :: after)) eqn:Hjpg; [| exact IH].
      intros Hf. injection Hf as <-. right; right.
      read_letter Hjpg. read_letter Hjpg. read_letter Hjpg. read_letter Hjpg.
      cbn [firstn]. rewrite !toLowerCase_cons. lowered.
Qed.

Lemma match_anywhere_somewhere (ps : list (cclass * quant)) (at_end : bool) (s : jsstring) :
  match_anywhere ps at_end s = true ->
  exists before from, s = before ++ from /\ match_here ps at_end from = true.
Proof.
  induction s as [| c s IH]; cbn [match_anywhere].
  - destruct (match_here ps at_end []) eqn:Hhere; [| discriminate].
    intros _. exists [], []. auto.
  - destruct (match_here ps at_end (c :: s)) eqn:Hhere.
    + intros _. exists [], (c :: s). auto.
    + intros Hlater. destruct (IH Hlater) as (before & from & -> & Hfrom).
      exists (c :: before), from. auto.
Qed.

(** A literal matched with more after it is matched on its own. *)
Lemma stri_alone (word : string) (more : list (cclass * quant)) (at_end : bool) (s : jsstring) :
  match_here (stri word ++ more) at_end s = true -> match_here (stri word) false s = true.
Proof.
  revert s. induction word as [| x word IH]; intros s; [reflexivity |].
  change (stri (String x word) ++ more) with ((CCharI (N_of_ascii x), Once) :: (stri word ++ more)).
  change (stri (String x word)) with ((CCharI (N_of_ascii x), Once) :: stri word).
  cbn [match_here match_times]. destruct s as [| c s]; [discriminate |].
  destruct (class_matches (CCharI (N_of_ascii x)) c); [apply IH | discriminate].
Qed.

Lemma first_extension_finds (before from : jsstring) :
  match_here (stri ".png") false from = true
  \/ match_here (stri ".jpg") false from = true
  \/ match_here (stri ".jpeg") false from = true ->
  first_extension (before ++ from) <> None.
Proof.
  intros Hfrom. induction before as [| c before IH]; cbn [app first_extension].
  - destruct from as [| c from]; [destruct Hfrom as [H | [H | H]]; discriminate |].
    cbn [first_extension].
    destruct (match_here (stri ".png") false (c :: from)); [discriminate |].
    destruct (match_here (stri ".jpeg") false (c :: from)); [discriminate |].
    destruct (match_here (stri ".jpg") false (c :: from)); [discriminate |].
    destruct Hfrom as [H | [H | H]]; discriminate.
  - destruct (match_here (stri ".png") false (c :: before ++ from)); [discriminate |].
    destruct (match_here (stri ".jpeg") false (c :: before ++ from)); [discriminate |].
    destruct (match_here (stri ".jpg") false (c :: before ++ from)); [discriminate |].
    exact IH.
Qed.

Lemma saved_extension_cases (address : jsstring) :
  saved_extension address = lit "png" \/ saved_extension address = lit "jpg".
Proof.
  unfold saved_extension.
  destruct (first_extension address) as [found |] eqn:Hfound; [| left; reflexivity].
  cbn [option_map].
  destruct (first_extension_lowered address found Hfound) as [-> | [-> | ->]];
    [left | right | right]; reflexivity.
Qed.

(** X11. Extension of a saved image: the file name a save dot asks
    for ends in png or in jpg, whatever the address of the image; and an
    address that passes IMG_EXTENSIONS, as that of every image with a dot
    does, holds an extension for the click handler to find. *)
Theorem saved_image_extension (address : jsstring) :
  (saved_extension address = lit "png" \/ saved_extension address = lit "jpg")
  /\ (IMG_EXTENSIONS_test address = true -> first_extension address <> None).
Proof.
  split; [apply saved_extension_cases |].
  - unfold IMG_EXTENSIONS_test, IMG_EXTENSIONS. cbn [flat_map app existsb].
    unfold test. cbn [from_start pieces to_end].
    intros Hsome.
    repeat (apply orb_true_iff in Hsome; destruct Hsome as [Hsome | Hsome]);
      try discriminate;
      apply match_anywhere_somewhere in Hsome;
      destruct Hsome as (before & from & -> & Hfrom);
      apply first_extension_finds;
      first [ left; exact (stri_alone ".png" [] true from ltac:(rewrite app_nil_r; exact Hfrom))
            | left; exact (stri_alone ".png" _ true from Hfrom)
            | right; left; exact (stri_alone ".jpg" [] true from ltac:(rewrite app_nil_r; exact Hfrom))
            | right; left; exact (stri_alone ".jpg" _ true from Hfrom)
            | right; right; exact (stri_alone ".jpeg" [] true from ltac:(rewrite app_nil_r; exact Hfrom))
            | right; right; exact (stri_alone ".jpeg" _ true from Hfrom) ].
Qed.

End ImageNames.

(** ** File names *)

Section FileNames.

Import ContentScript Background BackgroundFacts.

Variable toTimeString : Z -> jsstring.

Lemma pad_num_units (width : nat) (n : Z) : Forall date_unit (pad_num width n).
Proof.
  unfold pad_num, padStart. apply Forall_app. split.
  - apply List.Forall_forall. intros c Hin. apply repeat_spec in Hin. subst c. left. reflexivity.
  - eapply Forall_impl; [apply String_of_Z_units |].
    intros c [Hc | Hc]; [left | right; left]; exact Hc.
Qed.

Lemma iso_year_units (y : Z) : Forall date_unit (iso_year y).
Proof.
  unfold iso_year. destruct ((0 <=? y) && (y <=? 9999)); [apply pad_num_units |].
  destruct (y <? 0); (constructor; [| apply pad_num_units]).
  - right; left; reflexivity.
  - right; right; reflexivity.
Qed.

Lemma dash_units : Forall date_unit (lit "-").
Proof. constructor; [right; left; reflexivity | constructor]. Qed.

Lemma take_while_stops (p : N -> bool) (a b : jsstring) (c : N) :
  Forall (fun x => p x = true) a -> p c = false -> take_while p (a ++ c :: b) = a.
Proof.
  intros Ha Hc. induction Ha as [| x a Hx Ha IH]; cbn [app take_while].
  - rewrite Hc. reflexivity.
  - rewrite Hx, IH. reflexivity.
Qed.

Lemma date_unit_plain (c : N) : date_unit c -> c <> 84%N /\ c <> 58%N /\ c <> 47%N.
Proof.
  intros [Hc | [-> | ->]]; [| repeat split; discriminate | repeat split; discriminate].
  unfold is_digit, between in Hc. apply andb_true_iff in Hc. destruct Hc as [Hlo Hhi].
  apply N.leb_le in Hlo, Hhi. lia.
Qed.

Lemma date_fields_units (y m d : Z) :
  Forall date_unit (iso_year y ++ lit "-" ++ pad_num 2 m ++ lit "-" ++ pad_num 2 d).
Proof.
  apply Forall_app; split; [apply iso_year_units |].
  apply Forall_app; split; [apply dash_units |].
  apply Forall_app; split; [apply pad_num_units |].
  apply Forall_app; split; [apply dash_units | apply pad_num_units].
Qed.

Lemma app_five (a1 a2 a3 a4 a5 rest : jsstring) :
  a1 ++ a2 ++ a3 ++ a4 ++ a5 ++ rest = (a1 ++ a2 ++ a3 ++ a4 ++ a5) ++ rest.
Proof. rewrite <- !app_assoc. reflexivity. Qed.

(** [getTodayDate] is the date of the ISO string: year, month and day. *)
Lemma getTodayDate_fields (now : Z) :
  let '(y, m, d) := civil_from_days (now / msPerDay) in
  getTodayDate now = iso_year y ++ lit "-" ++ pad_num 2 m ++ lit "-" ++ pad_num 2 d.
Proof.
  unfold getTodayDate, toISOString.
  destruct (civil_from_days (now / msPerDay)) as [[y m] d].
  rewrite app_five. change (lit "T" ++ ?rest) with (84%N :: rest).
  apply take_while_stops; [| reflexivity].
  eapply Forall_impl; [apply date_fields_units |].
  intros c Hc. destruct (date_unit_plain c Hc) as (HT & _).
  apply negb_true_iff, N.eqb_neq. exact HT.
Qed.

Lemma getTodayDate_units (now : Z) : Forall date_unit (getTodayDate now).
Proof.
  pose proof (getTodayDate_fields now) as Hfields.
  destruct (civil_from_days (now / msPerDay)) as [[y m] d]. rewrite Hfields.
  apply date_fields_units.
Qed.

(** X12. File names: getTodayDate is the year, the month and the day
    of the ISO string joined by hyphens, without colon or slash; the name
    generateFilename gives is ACC-, that date, a slash, a time and
    _capture.txt, and holds no colon whatever toTimeString returns; the
    name generateImageFilename gives is ACC-, the date, a slash and the
    name it is given. *)
Theorem capture_filename_shape (now : Z) (originalFilename : jsstring) :
  (let '(y, m, d) := civil_from_days (now / msPerDay) in
   getTodayDate now = iso_year y ++ lit "-" ++ pad_num 2 m ++ lit "-" ++ pad_num 2 d)
  /\ Forall (fun c => c <> 58%N /\ c <> 47%N) (getTodayDate now)
  /\ Forall (fun c => c <> 58%N) (generateFilename toTimeString now)
  /\ (exists time,
        generateFilename toTimeString now
        = lit "ACC-" ++ getTodayDate now ++ lit "/" ++ time ++ lit "_capture.txt"
        /\ generateImageFilename now originalFilename
           = lit "ACC-" ++ getTodayDate now ++ lit "/" ++ originalFilename).
Proof.
  split; [apply getTodayDate_fields |].
  assert (Hdate : Forall (fun c => c <> 58%N /\ c <> 47%N) (getTodayDate now)).
  { eapply Forall_impl; [apply getTodayDate_units |].
    intros c Hc. destruct (date_unit_plain c Hc) as (_ & H1 & H2). auto. }
  split; [exact Hdate |]. split; [| eexists; split; reflexivity].
  unfold generateFilename.
  repeat (apply Forall_app; split).
  - repeat constructor; discriminate.
  - eapply Forall_impl; [exact Hdate | intros c [H _]; exact H].
  - repeat constructor; discriminate.
  - apply List.Forall_forall. intros c Hin. apply in_map_iff in Hin.
    destruct Hin as (x & <- & _). destruct (N.eqb_spec x 58); [discriminate | assumption].
  - repeat constructor; discriminate.
Qed.

End FileNames.

(** ** From the content script to the tag line *)

Section Offsets.

Import ContentScript Background.

Variable Date_parse : jsstring -> option Z.

(** X13. From the content script to the tag line: for an entry that
    processText sends at the time now, in an engine that parses the ISO
    string of now back to now, the offset the serializer prints for a
    session started at start is the whole number of seconds nearest to
    now - start (halves upward); and the entry carries the frame id and
    the address of the frame that sent it. *)
Theorem entry_offset_is_elapsed
    (f : frame) (now start : Z) (raw : jsstring) (src : source) (e : entry) :
  Date_parse (toISOString now) = Some now ->
  In (SendCaptureText e) (snd (processText f now raw src)) ->
  timeOffset Date_parse start e = String_of_Z (round_div1000 (now - start))
  /\ -500 <= (now - start) - 1000 * round_div1000 (now - start) < 500
  /\ frameId e = getFrameId f /\ url e = href f.
Proof.
  intros Hparse Hsent.
  destruct (processText_cases f now raw src) as [Hnone | (Hsome & _)];
    [rewrite Hnone in Hsent; destruct Hsent | rewrite Hsome in Hsent].
  cbn [snd] in Hsent. destruct Hsent as [Heq | Hflash];
    [| destruct (triggerFlashUpward_sends_no_entry _ _ Hflash)].
  injection Heq as <-. unfold timeOffset. cbn [timestamp frameId url]. rewrite Hparse.
  split; [reflexivity |]. split; [| split; reflexivity].
  unfold round_div1000. Z.to_euclidean_division_equations. lia.
Qed.

End Offsets.

(** ** The document tree *)

Section Extraction.

Import ContentScript Page PageFacts.

(** The text of an element that passes the three tests is made of the
    parts of its children, in order. *)
Lemma extractText_parts (within : bool) (tagName id : jsstring) (childNodes : list node) :
  extractText within (ElementNode tagName id childNodes)
  = if Set_has tagName IGNORED_TAGS then []
    else if bool_decide (id = INDICATOR_ID) then []
    else if within then []
    else concat (List.map part childNodes).
Proof.
  cbn [extractText].
  destruct (Set_has tagName IGNORED_TAGS); [reflexivity |].
  destruct (bool_decide (id = INDICATOR_ID)); [reflexivity |].
  destruct within; [reflexivity |].
  induction childNodes as [| child rest IH]; [reflexivity |].
  cbn [List.map concat]. rewrite <- IH. destruct child; reflexivity.
Qed.

Lemma textContent_parts (tagName id : jsstring) (childNodes : list node) :
  textContent (ElementNode tagName id childNodes)
  = concat (List.map (fun child => match child with
                                   | CommentNode _ => []
                                   | _ => textContent child
                                   end) childNodes).
Proof.
  cbn [textContent].
  induction childNodes as [| child rest IH]; [reflexivity |].
  cbn [List.map concat]. rewrite <- IH. reflexivity.
Qed.

Lemma plain_text (n : node) :
  plain n = true ->
  match n with
  | TextNode _ | CommentNode _ => True
  | _ => extractText false n = textContent n
  end.
Proof.
  revert n. fix IH 1. intros [data | data | id img | tagName id childNodes] Hplain;
    [exact I | exact I | reflexivity |].
  rewrite extractText_parts, textContent_parts.
  cbn [plain] in Hplain.
  apply andb_true_iff in Hplain. destruct Hplain as [Hself Hkids].
  apply andb_true_iff in Hself. destruct Hself as [Htag Hid].
  apply negb_true_iff in Htag, Hid. rewrite Htag, Hid.
  f_equal. clear Htag Hid.
  induction childNodes as [| child rest IHrest]; [reflexivity |].
  cbn [forallb] in Hkids. apply andb_true_iff in Hkids. destruct Hkids as [Hchild Hrest].
  cbn [List.map]. f_equal; [| exact (IHrest Hrest)].
  pose proof (IH child Hchild) as Hsame. destruct child; try reflexivity; exact Hsame.
Qed.

(** X14. What extractText reads: for an element below which no tag is
    ignored and no element is the indicator, extractText gives the
    element's textContent; and a child that is an ignored element, the
    indicator or a comment adds nothing: the text is what it is without
    that child. *)
Theorem extractText_is_visible_text
    (within : bool) (tagName id : jsstring) (before after : list node) (child : node) :
  (plain (ElementNode tagName id (before ++ child :: after)) = true ->
   extractText false (ElementNode tagName id (before ++ child :: after))
   = textContent (ElementNode tagName id (before ++ child :: after)))
  /\ (part child = [] ->
      extractText within (ElementNode tagName id (before ++ child :: after))
      = extractText within (ElementNode tagName id (before ++ after)))
  /\ (forall (tag ident : jsstring) (inner : list node),
        Set_has tag IGNORED_TAGS = true \/ ident = INDICATOR_ID ->
        part (ElementNode tag ident inner) = [])
  /\ (forall data : jsstring, part (CommentNode data) = []).
Proof.
  split; [intros Hplain; exact (plain_text _ Hplain) |].
  split; [| split; [| reflexivity]].
  - intros Hnone. rewrite !extractText_parts.
    rewrite !List.map_app, !concat_app. cbn [List.map concat]. rewrite Hnone. reflexivity.
  - intros tag ident inner Hignored. unfold part. rewrite extractText_parts.
    destruct Hignored as [-> | ->]; [reflexivity |].
    destruct (Set_has tag IGNORED_TAGS); [reflexivity |].
    rewrite bool_decide_eq_true_2 by reflexivity. reflexivity.
Qed.

End Extraction.

(** ** The content script in its page *)

Section Lifecycle.

Import ContentScript Page PageFacts.

Variable Date_parse : jsstring -> option Z.
Variables getHours getMinutes getSeconds : Z -> Z.

Local Abbreviation startCapture := (Page.startCapture Date_parse).
Local Abbreviation onMessage := (Page.onMessage Date_parse).
Local Abbreviation onStateReply := (Page.onStateReply Date_parse).
Local Abbreviation step := (Page.step Date_parse getHours getMinutes getSeconds).
Local Abbreviation run := (Page.run Date_parse getHours getMinutes getSeconds).

(** *** What the text filter sends *)

Lemma cleanText_spaces (t : jsstring) :
  Forall (fun c => is_space c = true -> c = 32%N) (cleanText t).
Proof.
  unfold cleanText, remove_class.
  apply trim_Forall, Forall_list_filter, replace_runs_spaces.
Qed.

Lemma stored_form_spaces (raw : jsstring) :
  Forall (fun c => is_space c = true -> c = 32%N) (stored_form raw).
Proof.
  unfold stored_form.
  destruct (String_length (cleanText raw) >? MAX_TEXT_LENGTH); [| apply cleanText_spaces].
  apply Forall_app. split.
  - unfold substring0. rewrite <- (firstn_skipn (Z.to_nat MAX_TEXT_LENGTH) (cleanText raw)).
    pose proof (cleanText_spaces raw) as Hall.
    rewrite <- (firstn_skipn (Z.to_nat MAX_TEXT_LENGTH) (cleanText raw)) in Hall.
    apply Forall_app in Hall. destruct Hall as [Hhead _].
    rewrite firstn_skipn. exact Hhead.
  - unfold truncation_marker.
    repeat (constructor; [intros Hsp; first [reflexivity | discriminate Hsp] |]).
    constructor.
Qed.

Lemma sent_entries_app (a b : list call) :
  sent_entries (a ++ b) = sent_entries a ++ sent_entries b.
Proof. unfold sent_entries. apply flat_map_app. Qed.

Lemma sent_by_site (f f' : frame) (now : Z) (e : entry) :
  isTopFrame f' = isTopFrame f -> pathname f' = pathname f -> href f' = href f ->
  sent_by f' now e -> sent_by f now e.
Proof.
  intros Htop Hpath Hhref (Hlen & Hsp & Htime & Hid & Hurl).
  repeat split; try assumption; try apply Hlen.
  - rewrite Hid. unfold getFrameId. rewrite Htop, Hpath. reflexivity.
  - rewrite Hurl. exact Hhref.
Qed.

Lemma site_of_skeleton (p q : page) : skeleton q = skeleton p -> site q = site p.
Proof. unfold skeleton, site. intros Heq. injection Heq as _ _ _ _ _ _ -> -> -> _. reflexivity. Qed.

Lemma sent_by_moved (p q : page) (now : Z) (entries : list entry) :
  site q = site p ->
  Forall (sent_by (frame_of q) now) entries -> Forall (sent_by (frame_of p) now) entries.
Proof.
  unfold site. intros Hsite Hall. injection Hsite as Htop Hpath Hhref.
  eapply Forall_impl; [exact Hall |]. intros e. apply sent_by_site; auto.
Qed.

Lemma process_orderly (now : Z) (raw : jsstring) (src : source) (p : page) :
  orderly now p (process now raw src p).
Proof.
  unfold orderly, process.
  destruct (processText_cases (frame_of p) now raw src) as [-> | (-> & Hmin & _)].
  - split; [reflexivity | constructor].
  - split; [reflexivity |].
    cbn [snd List.map sent_entries flat_map app].
    assert (Hflash : sent_entries (List.map Filter (triggerFlashUpward (frame_of p))) = []).
    { unfold triggerFlashUpward. destruct (isTopFrame (frame_of p)); reflexivity. }
    fold (sent_entries (List.map Filter (triggerFlashUpward (frame_of p)))).
    rewrite Hflash. constructor; [| constructor].
    unfold sent_by. cbn [text timestamp frameId url].
    rewrite truncation_marker_length.
    repeat split; try reflexivity; [exact Hmin | apply stored_form_bound | apply stored_form_spaces].
Qed.

Lemma orderly_same (now : Z) (p : page) : orderly now p (p, []).
Proof. split; [reflexivity | constructor]. Qed.

Lemma orderly_quiet (now : Z) (p q : page) (calls : list call) :
  skeleton q = skeleton p -> sent_entries calls = [] -> orderly now p (q, calls).
Proof. intros Hskel Hnone. split; [exact Hskel | cbn [snd]; rewrite Hnone; constructor]. Qed.

Lemma and_then_orderly (now : Z) (p : page) (first : page * list call)
    (next : page -> page * list call) :
  orderly now p first ->
  (forall q, skeleton q = skeleton p -> orderly now q (next q)) ->
  orderly now p (and_then first next).
Proof.
  intros [Hskel Hsent] Hnext. unfold and_then.
  destruct first as [p1 calls1]. cbn [fst snd] in *.
  destruct (Hnext p1 Hskel) as [Hskel2 Hsent2].
  destruct (next p1) as [p2 calls2]. cbn [fst snd] in *.
  split; cbn [fst snd]; [exact (eq_trans Hskel2 Hskel) |].
  rewrite sent_entries_app. apply Forall_app. split; [exact Hsent |].
  apply (sent_by_moved p p1); [apply site_of_skeleton; exact Hskel | exact Hsent2].
Qed.

Lemma for_each_orderly {A : Type} (now : Z) (body : A -> page -> page * list call)
    (items : list A) :
  (forall item q, orderly now q (body item q)) ->
  forall p, orderly now p (for_each body items p).
Proof.
  intros Hbody. induction items as [| item rest IH]; intros p; cbn [for_each].
  - apply orderly_same.
  - apply and_then_orderly; [apply Hbody | intros q _; apply IH].
Qed.

Lemma process_if_any_orderly (now : Z) (raw : jsstring) (src : source) (p : page) :
  orderly now p (process_if_any now raw src p).
Proof. destruct raw; [apply orderly_same | apply process_orderly]. Qed.

Lemma addDotToImage_orderly (now : Z) (img : image) (p : page) :
  orderly now p (addDotToImage img p).
Proof.
  unfold addDotToImage.
  destruct (negb (shouldAddDot (imageDotsAdded p) img)); [apply orderly_same |].
  destruct (parent_position img) as [position |]; apply orderly_quiet; try reflexivity.
  destruct (bool_decide (position = lit "static")); reflexivity.
Qed.

Lemma dot_when_loaded_orderly (now : Z) (img : image) (p : page) :
  orderly now p (dot_when_loaded img p).
Proof.
  unfold dot_when_loaded. destruct (complete img); [apply addDotToImage_orderly |].
  apply orderly_quiet; reflexivity.
Qed.

Lemma scanForImages_orderly (w : world) (p : page) :
  orderly (clock w) p (scanForImages w p).
Proof.
  unfold scanForImages. destruct (_ || _); [apply orderly_same |].
  apply for_each_orderly. intros img q. apply dot_when_loaded_orderly.
Qed.

Lemma captureInitialContent_orderly (w : world) (p : page) :
  orderly (clock w) p (captureInitialContent w p).
Proof.
  unfold captureInitialContent.
  destruct (document_body w) as [[within body] |]; [| apply orderly_same].
  apply process_if_any_orderly.
Qed.

Lemma process_added_orderly (w : world) (placed : bool * node) (p : page) :
  orderly (clock w) p (process_added w placed p).
Proof.
  unfold process_added. destruct placed as [within n].
  assert (Helement : forall images : page -> page * list call,
            (forall q, orderly (clock w) q (images q)) ->
            orderly (clock w) p
              (and_then (process_if_any (clock w) (extractText within n) added p)
                 (fun p1 => if isTopFrame (frame_of p1) && isCapturing (frame_of p1)
                            then images p1 else (p1, [])))).
  { intros images Himages. apply and_then_orderly; [apply process_if_any_orderly |].
    intros q _. destruct (_ && _); [apply Himages | apply orderly_same]. }
  destruct n as [data | data | id img | tagName id childNodes].
  - apply process_if_any_orderly.
  - apply orderly_same.
  - apply (Helement (dot_when_loaded img)). intros q. apply dot_when_loaded_orderly.
  - apply (Helement (for_each dot_when_loaded (images_within (ElementNode tagName id childNodes)))).
    intros q. apply for_each_orderly. intros img q'. apply dot_when_loaded_orderly.
Qed.

Lemma process_mutation_orderly (w : world) (m : mutation) (p : page) :
  orderly (clock w) p (process_mutation w m p).
Proof.
  unfold process_mutation. apply and_then_orderly.
  - apply for_each_orderly. intros placed q. apply process_added_orderly.
  - intros q _. destruct (type m); [apply orderly_same | apply process_if_any_orderly].
Qed.

(** *** Every handler *)

Lemma lawful_of_orderly (now : Z) (p : page) (r : page * list call) :
  orderly now p r -> lawful now p r.
Proof. intros [Hskel Hsent]. split; [apply site_of_skeleton; exact Hskel | exact Hsent]. Qed.

Lemma lawful_rebase (now : Z) (p q : page) (r : page * list call) :
  site q = site p -> lawful now q r -> lawful now p r.
Proof.
  intros Hsite [Hkept Hsent]. split; [congruence |].
  exact (sent_by_moved p q now _ Hsite Hsent).
Qed.

Lemma lawful_quiet (now : Z) (p q : page) (calls : list call) :
  site q = site p -> sent_entries calls = [] -> lawful now p (q, calls).
Proof. intros Hsite Hnone. split; [exact Hsite | cbn [snd]; rewrite Hnone; constructor]. Qed.

Lemma and_then_lawful (now : Z) (p : page) (first : page * list call)
    (next : page -> page * list call) :
  lawful now p first ->
  (forall q, site q = site p -> lawful now q (next q)) ->
  lawful now p (and_then first next).
Proof.
  intros [Hsite Hsent] Hnext. unfold and_then.
  destruct first as [p1 calls1]. cbn [fst snd] in *.
  destruct (Hnext p1 Hsite) as [Hsite2 Hsent2].
  destruct (next p1) as [p2 calls2]. cbn [fst snd] in *.
  split; cbn [fst snd]; [congruence |].
  rewrite sent_entries_app. apply Forall_app. split; [exact Hsent |].
  exact (sent_by_moved p p1 now _ Hsite Hsent2).
Qed.

(** A handler that ends with one more change of the variables. *)
Lemma lawful_then (now : Z) (p : page) (r : page * list call) (change : page -> page) :
  lawful now p r -> (forall q, site (change q) = site q) ->
  lawful now p (let '(q, calls) := r in (change q, calls)).
Proof.
  intros [Hsite Hsent] Hchange. destruct r as [q calls]. cbn [fst snd] in *.
  split; cbn [fst snd]; [rewrite Hchange; exact Hsite | exact Hsent].
Qed.

Lemma startObserver_lawful (w : world) (p : page) :
  lawful (clock w) p (startObserver w p).
Proof.
  unfold startObserver. destruct (document_body w) as [body |] eqn:Hbody.
  - apply (lawful_then _ _ (captureInitialContent w p) startObserverOnBody);
      [apply lawful_of_orderly, captureInitialContent_orderly | reflexivity].
  - apply lawful_quiet; reflexivity.
Qed.

Lemma onRootMutation_lawful (w : world) (p : page) :
  lawful (clock w) p (onRootMutation w p).
Proof.
  unfold onRootMutation. destruct (document_body w) as [body |] eqn:Hbody.
  - match goal with |- lawful _ _ (let '(_, _) := captureInitialContent w ?q in _) =>
      apply (lawful_rebase _ p q); [reflexivity |];
      apply (lawful_then _ _ (captureInitialContent w q) startObserverOnBody);
      [apply lawful_of_orderly, captureInitialContent_orderly | reflexivity]
    end.
  - apply lawful_quiet; reflexivity.
Qed.

Lemma processPendingMutations_lawful (w : world) (p : page) :
  lawful (clock w) p (processPendingMutations w p).
Proof.
  unfold processPendingMutations.
  destruct (pendingMutations (feed_of p)) as [| m rest]; [apply lawful_quiet; reflexivity |].
  match goal with |- lawful _ _ (for_each _ _ ?q) =>
    apply (lawful_rebase _ p q); [reflexivity |]
  end.
  apply lawful_of_orderly, for_each_orderly. intros m' q. apply process_mutation_orderly.
Qed.

Lemma startCapture_lawful (w : world) (startTimeISO : option jsstring) (initialCount : Z)
    (p : page) :
  lawful (clock w) p (startCapture w startTimeISO initialCount p).
Proof.
  unfold Page.startCapture.
  destruct (isCapturing (frame_of p)); [apply lawful_quiet; reflexivity |].
  match goal with |- lawful _ _ (if _ then _ else startObserver w ?q1) =>
    apply (lawful_rebase _ p q1); [reflexivity |];
    destruct (isTopFrame (frame_of q1)) eqn:Htop; [| apply startObserver_lawful];
    unfold createIndicator; rewrite Htop; cbn [negb];
    destruct (document_body w) as [body |]; [| apply lawful_quiet; reflexivity]
  end.
  apply and_then_lawful; [| intros q _; apply startObserver_lawful].
  match goal with |- lawful _ ?q1 (scanForImages w ?q4) =>
    apply (lawful_rebase _ q1 q4); [reflexivity |]
  end.
  apply lawful_of_orderly, scanForImages_orderly.
Qed.

Lemma stopCapture_quiet (p : page) :
  site (fst (stopCapture p)) = site p /\ sent_entries (snd (stopCapture p)) = [].
Proof.
  unfold stopCapture. destruct (isCapturing (frame_of p)); cbn [negb]; [| split; reflexivity].
  destruct (isTopFrame (frame_of (stopObserver (with_frame (switched false (frame_of p)) p))));
    split; reflexivity.
Qed.

Lemma stopCapture_lawful (now : Z) (p : page) : lawful now p (stopCapture p).
Proof.
  destruct (stopCapture_quiet p) as [Hsite Hnone].
  split; [exact Hsite | rewrite Hnone; constructor].
Qed.

Lemma onMessage_lawful (w : world) (message : Background.directive) (p : page) :
  lawful (clock w) p (onMessage w message p).
Proof.
  destruct message as [startTime entryCount | | count | reason]; cbn [Page.onMessage].
  - apply startCapture_lawful.
  - apply stopCapture_lawful.
  - apply lawful_quiet; [| reflexivity].
    unfold updateCount. destruct (indicator_found _); reflexivity.
  - destruct (stopCapture_quiet p) as [Hsite Hnone].
    destruct (stopCapture p) as [p1 calls]. cbn [fst snd] in *.
    apply lawful_quiet; [exact Hsite |].
    rewrite sent_entries_app, Hnone. destruct (isTopFrame (frame_of p1)); reflexivity.
Qed.

Lemma caught_sent (P : entry -> Prop) (calls : list call) :
  Forall P (sent_entries calls) -> Forall P (sent_entries (fst (caught calls))).
Proof.
  unfold sent_entries. induction calls as [| c calls IH]; intros Hall; [constructor |].
  cbn [flat_map] in Hall. apply Forall_app in Hall. destruct Hall as [Hc Hrest].
  specialize (IH Hrest).
  destruct c; cbn [caught]; try constructor;
    destruct (caught calls) as [before thrown]; cbn [fst flat_map] in *;
    apply Forall_app; split; assumption.
Qed.

Lemma onStateFailure_quiet (attempt : Z) : sent_entries (onStateFailure attempt) = [].
Proof. unfold onStateFailure. destruct (_ <? 3); reflexivity. Qed.

Lemma onStateReply_lawful (w : world) (attempt : Z) (reply : option Background.state_reply)
    (p : page) :
  lawful (clock w) p (onStateReply w attempt reply p).
Proof.
  unfold Page.onStateReply. destruct reply as [state |]; [| apply lawful_quiet; reflexivity].
  destruct (_ && _); [| apply lawful_quiet; reflexivity].
  destruct (startCapture_lawful w (Background.reply_startTime state)
              (Background.reply_entryCount state) p) as [Hsite Hsent].
  destruct (Page.startCapture _ _ _ _ _) as [p1 calls]. cbn [fst snd] in *.
  pose proof (caught_sent _ calls Hsent) as Hbefore.
  destruct (caught calls) as [before thrown]. cbn [fst] in Hbefore.
  split; cbn [fst snd]; [exact Hsite |].
  rewrite sent_entries_app. apply Forall_app. split; [exact Hbefore |].
  destruct thrown; [rewrite onStateFailure_quiet |]; constructor.
Qed.

Lemma flash_sends_no_entry (f : frame) (now : Z) (sourceWindow : nat) (depth : option Z) :
  sent_entries (List.map Filter (snd (onFlashMessage f now sourceWindow depth))) = []
  /\ isTopFrame (fst (onFlashMessage f now sourceWindow depth)) = isTopFrame f
  /\ pathname (fst (onFlashMessage f now sourceWindow depth)) = pathname f
  /\ href (fst (onFlashMessage f now sourceWindow depth)) = href f
  /\ isCapturing (fst (onFlashMessage f now sourceWindow depth)) = isCapturing f.
Proof.
  unfold onFlashMessage. destruct (isCapturing f) eqn:Hrec; [| repeat split; exact Hrec].
  unfold handleChildFlashMessage. destruct (_ >? MAX_IFRAME_DEPTH); [repeat split; exact Hrec |].
  destruct (findIframeForWindow f sourceWindow) as [iframe |].
  - unfold flashIframeBorder. rewrite Hrec. cbn [negb].
    destruct (_ <? FLASH_COOLDOWN); destruct (isTopFrame f) eqn:Htop; cbn;
      repeat split; first [reflexivity | exact Hrec | exact Htop].
  - destruct (isTopFrame f) eqn:Htop; cbn;
      repeat split; first [reflexivity | exact Hrec | exact Htop].
Qed.

Lemma step_lawful (p : page) (ev : event) (w : world) : lawful (clock w) p (step p ev w).
Proof.
  destruct ev as [message | mutations | | | value | | | img | img | attempt reply | attempt
                  | attempt | sourceWindow depth];
    cbn [Page.step].
  - apply onMessage_lawful.
  - destruct (Nat.eqb _ 0); apply lawful_quiet; reflexivity.
  - destruct (timers (feed_of p)) as [| remaining]; [apply lawful_quiet; reflexivity |].
    match goal with |- lawful _ _ (processPendingMutations w ?q) =>
      apply (lawful_rebase _ p q); [reflexivity | apply processPendingMutations_lawful]
    end.
  - destruct (Nat.eqb _ 0); [apply lawful_quiet; reflexivity | apply onRootMutation_lawful].
  - apply lawful_quiet; reflexivity.
  - destruct (titleObserver (titling_of p)); apply lawful_quiet; reflexivity.
  - destruct (timerInterval p); [| apply lawful_quiet; reflexivity].
    apply lawful_quiet; [| reflexivity].
    unfold updateTimer. destruct (indicator_found p), (startTime p); reflexivity.
  - apply lawful_of_orderly, addDotToImage_orderly.
  - apply lawful_quiet; reflexivity.
  - apply onStateReply_lawful.
  - apply lawful_quiet; [reflexivity | apply onStateFailure_quiet].
  - apply lawful_quiet; [reflexivity |]. unfold checkAndResumeCapture.
    destruct (isCapturing (frame_of p)); reflexivity.
  - destruct (flash_sends_no_entry (frame_of p) (clock w) sourceWindow depth)
      as (Hnone & Htop & Hpath & Hhref & _).
    destruct (onFlashMessage (frame_of p) (clock w) sourceWindow depth) as [f effs].
    cbn [fst snd] in *. apply lawful_quiet; [| exact Hnone].
    unfold site. cbn. congruence.
Qed.

(** X15. Every entry comes from the text filter: whatever event the
    content script handles, in whatever state, each entry it sends has a
    text of 10 to 100022 characters whose white space is plain spaces,
    the ISO string of the current time as its timestamp, the frame id of
    the frame and the address of the frame. *)
Theorem page_sends_filtered_entries (p : page) (ev : event) (w : world) :
  Forall (sent_by (frame_of p) (clock w)) (sent_entries (snd (step p ev w))).
Proof. exact (proj2 (step_lawful p ev w)). Qed.

(** *** What a handler leaves of the variables *)

Ltac fields H :=
  unfold skeleton in H;
  injection H as ?Hfeed ?Htitling ?Hstart ?Hcount ?Hshown ?Hinterval ?Htop ?Hpath ?Hhref ?Hrec.

Lemma startObserver_skeleton (w : world) (q : page) :
  skeleton (fst (startObserver w q))
  = skeleton match document_body w with
             | Some _ => startObserverOnBody q
             | None =>
                 with_feed
                   {| observer := observer (feed_of q);
                      connected := connected (feed_of q);
                      bodyWaiters := S (bodyWaiters (feed_of q));
                      pendingMutations := pendingMutations (feed_of q);
                      processingScheduled := processingScheduled (feed_of q);
                      timers := timers (feed_of q) |} q
             end.
Proof.
  unfold startObserver. destruct (document_body w) as [body |]; [| reflexivity].
  destruct (captureInitialContent_orderly w q) as [Hskel _].
  destruct (captureInitialContent w q) as [q2 calls2]. cbn [fst] in *.
  fields Hskel. unfold skeleton, startObserverOnBody. cbn. congruence.
Qed.

(** The start that is cut short: in the top frame of a document without
    a body. *)
Lemma startCapture_cut (w : world) (startTimeISO : option jsstring) (initialCount : Z)
    (p : page) :
  isCapturing (frame_of p) = false -> isTopFrame (frame_of p) = true ->
  document_body w = None ->
  let r := startCapture w startTimeISO initialCount p in
  snd r = [Uncaught]
  /\ isCapturing (frame_of (fst r)) = true
  /\ isTopFrame (frame_of (fst r)) = true
  /\ feed_of (fst r) = feed_of p
  /\ titling_of (fst r) = titling_of p
  /\ timerInterval (fst r) = timerInterval p
  /\ statusIndicator (fst r)
     = Some {| shown_count := String_of_Z initialCount; shown_timer := lit "00:00";
               in_document := false |}.
Proof.
  intros Hidle Htop Hbody r. subst r. unfold Page.startCapture, createIndicator.
  rewrite Hidle. cbn. rewrite Htop, Hbody. cbn. rewrite Htop. repeat split; reflexivity.
Qed.

Lemma startCapture_fields (w : world) (startTimeISO : option jsstring) (initialCount : Z)
    (p : page) :
  isCapturing (frame_of p) = false ->
  (isTopFrame (frame_of p) = true -> document_body w <> None) ->
  let p' := fst (startCapture w startTimeISO initialCount p) in
  let d := feed_of p in
  isCapturing (frame_of p') = true
  /\ isTopFrame (frame_of p') = isTopFrame (frame_of p)
  /\ feed_of p'
     = match document_body w with
       | Some _ =>
           {| observer := true; connected := S (connected d); bodyWaiters := bodyWaiters d;
              pendingMutations := pendingMutations d;
              processingScheduled := processingScheduled d; timers := timers d |}
       | None =>
           {| observer := observer d; connected := connected d;
              bodyWaiters := S (bodyWaiters d); pendingMutations := pendingMutations d;
              processingScheduled := processingScheduled d; timers := timers d |}
       end
  /\ statusIndicator p'
     = (if isTopFrame (frame_of p)
        then Some {| shown_count := String_of_Z initialCount; shown_timer := lit "00:00";
                     in_document := true |}
        else statusIndicator p)
  /\ timerInterval p' = (if isTopFrame (frame_of p) then true else timerInterval p)
  /\ titling_of p'
     = (if isTopFrame (frame_of p)
        then startTitleObserver true (setRecordingTitle true (titling_of p))
        else titling_of p)
  /\ entryCount p' = initialCount
  /\ startTime p'
     = Some match startTimeISO with
            | Some (c :: iso) => Date_parse (c :: iso)
            | _ => Some (clock w)
            end.
Proof.
  intros Hidle Hcomplete p' d. subst p' d. unfold Page.startCapture. rewrite Hidle.
  cbn [frame_of capturing_afresh isTopFrame].
  destruct (isTopFrame (frame_of p)) eqn:Htop.
  - unfold createIndicator. cbn [frame_of capturing_afresh isTopFrame]. rewrite Htop.
    cbn [negb]. destruct (document_body w) as [body |] eqn:Hbody;
      [| exfalso; exact (Hcomplete eq_refl eq_refl)].
    match goal with |- context [and_then (scanForImages w ?q4) _] => set (p4 := q4) end.
    destruct (scanForImages_orderly w p4) as [Hskel _].
    unfold and_then. destruct (scanForImages w p4) as [q calls]. cbn [fst] in Hskel.
    pose proof (startObserver_skeleton w q) as Hskel'. rewrite Hbody in Hskel'.
    destruct (startObserver w q) as [q' calls']. cbn [fst] in *.
    assert (Hp4 : skeleton p4
                  = (feed_of p, startTitleObserver true (setRecordingTitle true (titling_of p)),
                     Some match startTimeISO with
                          | Some (c :: iso) => Date_parse (c :: iso)
                          | _ => Some (clock w)
                          end,
                     initialCount,
                     Some {| shown_count := String_of_Z initialCount;
                             shown_timer := lit "00:00"; in_document := true |},
                     true, (true, pathname (frame_of p), href (frame_of p), true))).
    { subst p4. unfold skeleton. cbn. rewrite Htop. reflexivity. }
    rewrite Hp4 in Hskel. clear Hp4.
    fields Hskel. fields Hskel'.
    unfold startObserverOnBody in *; cbn in *; repeat split; congruence.
  - match goal with |- context [startObserver w ?q1] => set (p1 := q1) end.
    pose proof (startObserver_skeleton w p1) as Hskel'.
    destruct (startObserver w p1) as [q' calls']. cbn [fst] in *.
    destruct (document_body w); fields Hskel';
      unfold startObserverOnBody in *; subst p1; cbn in *; rewrite ?Htop in *;
      repeat split; congruence.
Qed.

Lemma stopCapture_fields (p : page) :
  isCapturing (frame_of p) = true ->
  let p' := fst (stopCapture p) in
  let d := feed_of p in
  isCapturing (frame_of p') = false
  /\ isTopFrame (frame_of p') = isTopFrame (frame_of p)
  /\ seenText (frame_of p') = ∅
  /\ feed_of p'
     = {| observer := false;
          connected := if observer d then Nat.pred (connected d) else connected d;
          bodyWaiters := bodyWaiters d; pendingMutations := [];
          processingScheduled := false; timers := timers d |}
  /\ statusIndicator p' = (if isTopFrame (frame_of p) then None else statusIndicator p)
  /\ timerInterval p' = (if isTopFrame (frame_of p) then false else timerInterval p)
  /\ titling_of p'
     = (if isTopFrame (frame_of p)
        then restoreTitle true (stopTitleObserver (titling_of p))
        else titling_of p).
Proof.
  intros Hrec p' d. subst p' d. unfold stopCapture. rewrite Hrec. cbn [negb].
  destruct (isTopFrame (frame_of p)) eqn:Htop; cbn; rewrite Htop; cbn; rewrite ?Htop;
    repeat split; reflexivity.
Qed.

Lemma stopCapture_idle (p : page) :
  isCapturing (frame_of p) = false -> stopCapture p = (p, []).
Proof. intros Hidle. unfold stopCapture. rewrite Hidle. reflexivity. Qed.

Lemma processPendingMutations_skeleton (w : world) (p : page) :
  skeleton (fst (processPendingMutations w p))
  = skeleton
      (with_feed
         {| observer := observer (feed_of p); connected := connected (feed_of p);
            bodyWaiters := bodyWaiters (feed_of p); pendingMutations := [];
            processingScheduled := false; timers := timers (feed_of p) |} p).
Proof.
  unfold processPendingMutations.
  destruct (pendingMutations (feed_of p)) as [| m rest] eqn:Hpending.
  - reflexivity.
  - match goal with |- context [for_each ?body ?items ?q] =>
      destruct (for_each_orderly (clock w) body items
                  (fun m' q' => process_mutation_orderly w m' q') q) as [Hskel _];
      rewrite Hskel
    end.
    reflexivity.
Qed.

Lemma onRootMutation_skeleton (w : world) (p : page) :
  skeleton (fst (onRootMutation w p))
  = skeleton
      match document_body w with
      | Some _ =>
          with_feed
            {| observer := true; connected := S (connected (feed_of p));
               bodyWaiters := Nat.pred (bodyWaiters (feed_of p));
               pendingMutations := pendingMutations (feed_of p);
               processingScheduled := processingScheduled (feed_of p);
               timers := timers (feed_of p) |} p
      | None => p
      end.
Proof.
  unfold onRootMutation. destruct (document_body w) as [body |]; [| reflexivity].
  match goal with |- context [captureInitialContent w ?q] =>
    destruct (captureInitialContent_orderly w q) as [Hskel _];
    destruct (captureInitialContent w q) as [q2 calls2]
  end.
  cbn [fst] in *. fields Hskel. unfold skeleton, startObserverOnBody. cbn in *.
  rewrite Hfeed, Htitling, Hstart, Hcount, Hshown, Hinterval, Htop, Hpath, Hhref, Hrec.
  reflexivity.
Qed.

(** *** The throttle *)

Lemma throttled_skeleton (p q : page) : skeleton q = skeleton p -> throttled p -> throttled q.
Proof. intros Hskel [Htimer Hflag]. fields Hskel. constructor; rewrite Hfeed; assumption. Qed.

Lemma throttled_feed (p q : page) :
  pendingMutations (feed_of q) = pendingMutations (feed_of p) ->
  processingScheduled (feed_of q) = processingScheduled (feed_of p) ->
  timers (feed_of q) = timers (feed_of p) ->
  throttled p -> throttled q.
Proof. intros H1 H2 H3 [Htimer Hflag]. constructor; rewrite ?H1, ?H2, ?H3; assumption. Qed.

Lemma throttled_cleared (q : page) :
  pendingMutations (feed_of q) = [] -> processingScheduled (feed_of q) = false -> throttled q.
Proof. intros H1 H2. constructor; congruence. Qed.

Lemma updateCount_keeps (count : Z) (p : page) :
  frame_of (updateCount count p) = frame_of p
  /\ feed_of (updateCount count p) = feed_of p
  /\ titling_of (updateCount count p) = titling_of p
  /\ timerInterval (updateCount count p) = timerInterval p
  /\ (statusIndicator (updateCount count p) = None <-> statusIndicator p = None).
Proof.
  unfold updateCount, indicator_found. cbn.
  destruct (statusIndicator p) as [[shown timer []] |]; cbn;
    repeat split; intros; congruence.
Qed.

Lemma updateTimer_keeps (now : Z) (p : page) :
  frame_of (updateTimer now p) = frame_of p
  /\ feed_of (updateTimer now p) = feed_of p
  /\ titling_of (updateTimer now p) = titling_of p
  /\ timerInterval (updateTimer now p) = timerInterval p
  /\ (statusIndicator (updateTimer now p) = None <-> statusIndicator p = None).
Proof.
  unfold updateTimer, indicator_found.
  destruct (statusIndicator p) as [[shown timer []] |] eqn:Hshown, (startTime p); cbn;
    rewrite ?Hshown; repeat split; intros; congruence.
Qed.

Lemma start_ways (w : world) (p : page) :
  (isTopFrame (frame_of p) = true /\ document_body w = None)
  \/ (isTopFrame (frame_of p) = true -> document_body w <> None).
Proof.
  destruct (isTopFrame (frame_of p)), (document_body w);
    first [right; congruence | left; split; reflexivity].
Qed.

Lemma onStateReply_page (w : world) (attempt : Z) (reply : option Background.state_reply)
    (p : page) :
  fst (onStateReply w attempt reply p) = p
  \/ exists iso count,
       isCapturing (frame_of p) = false
       /\ fst (onStateReply w attempt reply p) = fst (startCapture w iso count p).
Proof.
  unfold Page.onStateReply. destruct reply as [state |]; [| left; reflexivity].
  destruct (isCapturing (frame_of p)) eqn:Hrec;
    [rewrite andb_false_r; left; reflexivity |].
  destruct (Background.reply_isCapturing state); [| left; reflexivity].
  right. exists (Background.reply_startTime state), (Background.reply_entryCount state).
  split; [reflexivity |]. cbn [andb negb].
  destruct (Page.startCapture _ _ _ _ _) as [p1 calls].
  destruct (caught calls) as [before thrown]. reflexivity.
Qed.

Lemma startCapture_throttled (w : world) (iso : option jsstring) (count : Z) (p : page) :
  throttled p -> throttled (fst (startCapture w iso count p)).
Proof.
  intros Hp. destruct (isCapturing (frame_of p)) eqn:Hrec.
  - unfold Page.startCapture. rewrite Hrec. exact Hp.
  - destruct (start_ways w p) as [[Htop Hbody] | Hcomplete].
    + destruct (startCapture_cut w iso count p Hrec Htop Hbody) as (_ & _ & _ & Hfeed & _).
      apply (throttled_feed p); [| | | exact Hp]; rewrite Hfeed; reflexivity.
    + destruct (startCapture_fields w iso count p Hrec Hcomplete) as (_ & _ & Hfeed & _).
      apply (throttled_feed p); [| | | exact Hp]; rewrite Hfeed;
        destruct (document_body w); reflexivity.
Qed.

Lemma stopCapture_throttled (p : page) : throttled p -> throttled (fst (stopCapture p)).
Proof.
  intros Hp. destruct (isCapturing (frame_of p)) eqn:Hrec.
  - destruct (stopCapture_fields p Hrec) as (_ & _ & _ & Hfeed & _).
    apply throttled_cleared; rewrite Hfeed; reflexivity.
  - rewrite (stopCapture_idle p Hrec). exact Hp.
Qed.

Lemma step_throttled (p : page) (ev : event) (w : world) :
  throttled p -> throttled (fst (step p ev w)).
Proof.
  intros Hp. destruct ev as [message | mutations | | | value | | | img | img | attempt reply | attempt
                  | attempt | sourceWindow depth];
    cbn [Page.step].
  - destruct message as [startTime entryCount | | count | reason]; cbn [Page.onMessage].
    + apply startCapture_throttled. exact Hp.
    + apply stopCapture_throttled. exact Hp.
    + cbn [fst]. destruct (updateCount_keeps count p) as (_ & Hfeed & _).
      apply (throttled_feed p); [| | | exact Hp]; rewrite Hfeed; reflexivity.
    + pose proof (stopCapture_throttled p Hp) as Hq.
      destruct (stopCapture p) as [p1 calls]. exact Hq.
  - destruct (Nat.eqb _ 0); [exact Hp |]. cbn [fst]. destruct Hp as [Htimer Hflag].
    constructor; unfold onMutations; cbn; [| reflexivity].
    intros _. destruct (processingScheduled (feed_of p)); [apply Htimer; reflexivity | lia].
  - destruct (timers (feed_of p)) as [| remaining]; [exact Hp |].
    eapply throttled_skeleton; [apply processPendingMutations_skeleton |].
    apply throttled_cleared; reflexivity.
  - destruct (Nat.eqb _ 0); [exact Hp |].
    eapply throttled_skeleton; [apply onRootMutation_skeleton |].
    destruct (document_body w); [| exact Hp].
    apply (throttled_feed p); [reflexivity | reflexivity | reflexivity | exact Hp].
  - apply (throttled_feed p); [reflexivity | reflexivity | reflexivity | exact Hp].
  - destruct (titleObserver (titling_of p)); [| exact Hp].
    apply (throttled_feed p); [reflexivity | reflexivity | reflexivity | exact Hp].
  - destruct (timerInterval p); [| exact Hp].
    cbn [fst]. destruct (updateTimer_keeps (clock w) p) as (_ & Hfeed & _).
    apply (throttled_feed p); [| | | exact Hp]; rewrite Hfeed; reflexivity.
  - destruct (addDotToImage_orderly 0 img p) as [Hskel _].
    exact (throttled_skeleton p _ Hskel Hp).
  - exact Hp.
  - destruct (onStateReply_page w attempt reply p) as [-> | (iso & count & _ & ->)];
      [| apply startCapture_throttled]; exact Hp.
  - exact Hp.
  - exact Hp.
  - destruct (onFlashMessage (frame_of p) (clock w) sourceWindow depth) as [f effs].
    apply (throttled_feed p); [reflexivity | reflexivity | reflexivity | exact Hp].
Qed.

(** *** The observer follows the capture *)

Lemma steady_same (p q : page) :
  feed_of q = feed_of p -> isCapturing (frame_of q) = isCapturing (frame_of p) ->
  steady p -> steady q.
Proof. intros Hfeed Hrec [H1 H2 H3]. constructor; rewrite Hfeed, ?Hrec; assumption. Qed.

Lemma steady_skeleton (p q : page) : skeleton q = skeleton p -> steady p -> steady q.
Proof. intros Hskel. fields Hskel. apply steady_same; assumption. Qed.

Lemma startCapture_steady (w : world) (iso : option jsstring) (count : Z) (p : page) :
  document_body w <> None -> steady p -> steady (fst (startCapture w iso count p)).
Proof.
  intros Hbody Hp. destruct (isCapturing (frame_of p)) eqn:Hrec.
  - unfold Page.startCapture. rewrite Hrec. exact Hp.
  - destruct (startCapture_fields w iso count p Hrec (fun _ => Hbody)) as (Hnow & _ & Hfeed & _).
    destruct Hp as [Hwait Hidle _]. destruct (Hidle Hrec) as (_ & Hnone & _).
    destruct (document_body w); [| congruence].
    constructor; rewrite Hfeed, ?Hnow; cbn; [exact Hwait | discriminate |].
    intros _. rewrite Hnone. split; reflexivity.
Qed.

Lemma stopCapture_steady (p : page) : steady p -> steady (fst (stopCapture p)).
Proof.
  intros Hp. destruct (isCapturing (frame_of p)) eqn:Hrec.
  - destruct (stopCapture_fields p Hrec) as (Hnow & _ & _ & Hfeed & _).
    destruct Hp as [Hwait _ Hlive]. destruct (Hlive Hrec) as (Hobs & Hone).
    constructor; rewrite Hfeed, ?Hnow; cbn; [exact Hwait | | discriminate].
    intros _. rewrite Hobs, Hone. repeat split; reflexivity.
  - rewrite (stopCapture_idle p Hrec). exact Hp.
Qed.

Lemma step_steady (p : page) (ev : event) (w : world) :
  document_body w <> None -> steady p -> steady (fst (step p ev w)).
Proof.
  intros Hbody Hp. destruct ev as [message | mutations | | | value | | | img | img | attempt reply | attempt
                  | attempt | sourceWindow depth];
    cbn [Page.step].
  - destruct message as [startTime entryCount | | count | reason]; cbn [Page.onMessage].
    + apply startCapture_steady; assumption.
    + apply stopCapture_steady. exact Hp.
    + cbn [fst]. destruct (updateCount_keeps count p) as (Hframe & Hfeed & _).
      apply (steady_same p); [exact Hfeed | rewrite Hframe; reflexivity | exact Hp].
    + pose proof (stopCapture_steady p Hp) as Hq.
      destruct (stopCapture p) as [p1 calls]. exact Hq.
  - destruct (Nat.eqb_spec (connected (feed_of p)) 0) as [Hnone | Hsome]; [exact Hp |].
    cbn [fst]. destruct Hp as [Hwait Hidle Hlive].
    constructor; unfold onMutations; cbn; [exact Hwait | | exact Hlive].
    intros Hrec. destruct (Hidle Hrec) as (_ & Hzero & _). contradiction.
  - destruct (timers (feed_of p)) as [| remaining]; [exact Hp |].
    eapply steady_skeleton; [apply processPendingMutations_skeleton |].
    destruct Hp as [Hwait Hidle Hlive].
    constructor; cbn; [exact Hwait | | exact Hlive].
    intros Hrec. destruct (Hidle Hrec) as (Hobs & Hzero & _). repeat split; assumption.
  - destruct (Nat.eqb_spec (bodyWaiters (feed_of p)) 0) as [Hnone | Hsome]; [exact Hp |].
    destruct Hp as [Hwait _ _]. contradiction.
  - apply (steady_same p); [reflexivity | reflexivity | exact Hp].
  - destruct (titleObserver (titling_of p)); [| exact Hp].
    apply (steady_same p); [reflexivity | reflexivity | exact Hp].
  - destruct (timerInterval p); [| exact Hp].
    cbn [fst]. destruct (updateTimer_keeps (clock w) p) as (Hframe & Hfeed & _).
    apply (steady_same p); [exact Hfeed | rewrite Hframe; reflexivity | exact Hp].
  - destruct (addDotToImage_orderly 0 img p) as [Hskel _].
    exact (steady_skeleton p _ Hskel Hp).
  - exact Hp.
  - destruct (onStateReply_page w attempt reply p) as [-> | (iso & count & _ & ->)];
      [| apply startCapture_steady]; assumption.
  - exact Hp.
  - exact Hp.
  - destruct (flash_sends_no_entry (frame_of p) (clock w) sourceWindow depth)
      as (_ & _ & _ & _ & Hrec).
    destruct (onFlashMessage (frame_of p) (clock w) sourceWindow depth) as [f effs].
    apply (steady_same p); [reflexivity | exact Hrec | exact Hp].
Qed.

(** A handler that sends an entry leaves the script capturing. *)
Lemma step_silent (p : page) (ev : event) (w : world) :
  steady p ->
  isCapturing (frame_of (fst (step p ev w))) = false ->
  sent_entries (snd (step p ev w)) = [].
Proof.
  intros Hp.
  assert (Hstart : forall iso count,
            isCapturing (frame_of (fst (startCapture w iso count p))) = false ->
            sent_entries (snd (startCapture w iso count p)) = []).
  { intros iso count. destruct (isCapturing (frame_of p)) eqn:Hrec.
    - unfold Page.startCapture. rewrite Hrec. reflexivity.
    - destruct (start_ways w p) as [[Htop Hbody] | Hcomplete].
      + destruct (startCapture_cut w iso count p Hrec Htop Hbody) as (_ & Hnow & _).
        congruence.
      + destruct (startCapture_fields w iso count p Hrec Hcomplete) as (Hnow & _).
        congruence. }
  destruct ev as [message | mutations | | | value | | | img | img | attempt reply | attempt
                  | attempt | sourceWindow depth];
    cbn [Page.step].
  - destruct message as [startTime entryCount | | count | reason]; cbn [Page.onMessage].
    + apply Hstart.
    + intros _. apply stopCapture_quiet.
    + reflexivity.
    + intros _. destruct (stopCapture_quiet p) as [_ Hnone].
      destruct (stopCapture p) as [p1 calls]. cbn [fst snd] in *.
      rewrite sent_entries_app, Hnone. destruct (isTopFrame (frame_of p1)); reflexivity.
  - destruct (Nat.eqb _ 0); reflexivity.
  - destruct (timers (feed_of p)) as [| remaining]; [reflexivity |].
    match goal with |- context [processPendingMutations w ?q] =>
      pose proof (processPendingMutations_skeleton w q) as Hskel; set (r := q) in *
    end.
    fields Hskel. cbn in Hrec. intros Hidle. rewrite Hrec in Hidle.
    destruct Hp as [_ Hquiet _]. destruct (Hquiet Hidle) as (_ & _ & Hnone).
    subst r. unfold processPendingMutations. cbn. rewrite Hnone. reflexivity.
  - destruct (Nat.eqb_spec (bodyWaiters (feed_of p)) 0) as [Hnone | Hsome]; [reflexivity |].
    destruct Hp as [Hwait _ _]. contradiction.
  - reflexivity.
  - destruct (titleObserver (titling_of p)); reflexivity.
  - destruct (timerInterval p); reflexivity.
  - intros _. unfold addDotToImage.
    destruct (negb _); [reflexivity |].
    destruct (parent_position img) as [position |]; [| reflexivity].
    destruct (bool_decide (position = lit "static")); reflexivity.
  - reflexivity.
  - unfold Page.onStateReply. destruct reply as [state |]; [| reflexivity].
    destruct (_ && _); [| reflexivity].
    specialize (Hstart (Background.reply_startTime state) (Background.reply_entryCount state)).
    destruct (Page.startCapture _ _ _ _ _) as [p1 calls]. cbn [fst snd] in *.
    pose proof (caught_sent (fun _ => False) calls) as Hbefore.
    destruct (caught calls) as [before thrown]. cbn [fst snd] in *.
    intros Hidle. rewrite sent_entries_app.
    assert (Hnone : sent_entries before = []).
    { destruct (sent_entries before) as [| e rest]; [reflexivity |].
      rewrite (Hstart Hidle) in Hbefore. specialize (Hbefore (List.Forall_nil _)).
      inversion Hbefore as [| ? ? Hfalse _]. destruct Hfalse. }
    rewrite Hnone. destruct thrown; [apply onStateFailure_quiet | reflexivity].
  - intros _. apply onStateFailure_quiet.
  - intros _. unfold checkAndResumeCapture. destruct (isCapturing (frame_of p)); reflexivity.
  - intros _.
    destruct (flash_sends_no_entry (frame_of p) (clock w) sourceWindow depth) as (Hnone & _).
    destruct (onFlashMessage (frame_of p) (clock w) sourceWindow depth) as [f effs].
    exact Hnone.
Qed.

(** *** Runs *)

Lemma run_last (p : page) (evs : list (event * world)) (ev : event) (w : world) :
  run p (evs ++ [(ev, w)])
  = (fst (step (fst (run p evs)) ev w),
     snd (run p evs) ++ snd (step (fst (run p evs)) ev w)).
Proof.
  unfold Page.run. rewrite fold_left_app. cbn [fold_left fst snd].
  destruct (step _ ev w). reflexivity.
Qed.

Lemma loaded_steady (top : bool) (path address : jsstring) (frames : list (nat * nat))
    (title : option jsstring) :
  steady (loaded top path address frames title).
Proof. constructor; cbn; [reflexivity | repeat split | discriminate]. Qed.

Lemma run_steady (p : page) (evs : list (event * world)) :
  steady p -> Forall (fun x => document_body (snd x) <> None) evs ->
  steady (fst (run p evs)).
Proof.
  intros Hp. induction evs as [| [ev w] evs IH] using rev_ind; intros Hall; [exact Hp |].
  apply Forall_app in Hall. destruct Hall as [Hevs Hlast].
  inversion Hlast as [| ? ? Hbody _]; subst. cbn [snd] in Hbody.
  rewrite run_last. cbn [fst]. apply step_steady; [exact Hbody | exact (IH Hevs)].
Qed.

(** X16. A stopped script sends nothing: in a frame whose document has
    had a body at every event since the script was loaded, a handler that
    leaves the script not capturing sends no entry, be it a late timeout
    of the throttle, a late load of an image or a flash message. *)
Theorem stopped_page_is_silent
    (top : bool) (path address : jsstring) (frames : list (nat * nat))
    (title : option jsstring) (evs : list (event * world)) (ev : event) (w : world) :
  Forall (fun x => document_body (snd x) <> None) evs ->
  let p := fst (run (loaded top path address frames title) evs) in
  isCapturing (frame_of (fst (step p ev w))) = false ->
  sent_entries (snd (step p ev w)) = [].
Proof.
  intros Hbodies p. apply step_silent.
  apply run_steady; [apply loaded_steady | exact Hbodies].
Qed.

Lemma loaded_throttled (top : bool) (path address : jsstring) (frames : list (nat * nat))
    (title : option jsstring) :
  throttled (loaded top path address frames title).
Proof. constructor; cbn; [discriminate | congruence]. Qed.

(** X17. The throttle loses no mutation: whatever the script has
    handled since it was loaded, mutations wait in pendingMutations only
    while processingScheduled is set, and processingScheduled is set only
    while a timeout of processPendingMutations is still to fire, across
    stops and new starts. *)
Theorem mutations_wait_for_a_timer
    (top : bool) (path address : jsstring) (frames : list (nat * nat))
    (title : option jsstring) (evs : list (event * world)) :
  throttled (fst (run (loaded top path address frames title) evs)).
Proof.
  induction evs as [| [ev w] evs IH] using rev_ind; [apply loaded_throttled |].
  rewrite run_last. cbn [fst]. apply step_throttled. exact IH.
Qed.

(** *** The indicator and the title follow the capture *)

Lemma dressed_same (p q : page) :
  (statusIndicator q = None <-> statusIndicator p = None) ->
  timerInterval q = timerInterval p ->
  originalTitle (titling_of q) = originalTitle (titling_of p) ->
  isTopFrame (frame_of q) = isTopFrame (frame_of p) ->
  isCapturing (frame_of q) = isCapturing (frame_of p) ->
  dressed p -> dressed q.
Proof.
  intros Hshown Hinterval Htitle Htop Hrec [H1 H2 H3].
  constructor; rewrite Htop, Hrec; [| rewrite Hinterval; exact H2 | rewrite Htitle; exact H3].
  unfold not in *. rewrite Hshown. exact H1.
Qed.

Lemma dressed_skeleton (p q : page) : skeleton q = skeleton p -> dressed p -> dressed q.
Proof.
  intros Hskel. fields Hskel. apply dressed_same; try assumption.
  - rewrite Hshown. reflexivity.
  - rewrite Htitling. reflexivity.
Qed.

(** Off the top frame, or while stopped, a dressed page has none of the three. *)
Lemma dressed_bare (p : page) :
  dressed p -> isTopFrame (frame_of p) && isCapturing (frame_of p) = false ->
  statusIndicator p = None /\ timerInterval p = false
  /\ originalTitle (titling_of p) = None.
Proof.
  intros [H1 H2 H3] Hoff.
  assert (Hno : ~ (isTopFrame (frame_of p) = true /\ isCapturing (frame_of p) = true)).
  { intros [Ha Hb]. rewrite Ha, Hb in Hoff. discriminate. }
  repeat split.
  - destruct (statusIndicator p); [| reflexivity]. exfalso. apply Hno, H1. discriminate.
  - destruct (timerInterval p); [| reflexivity]. exfalso. apply Hno, H2. reflexivity.
  - destruct (originalTitle (titling_of p)); [| reflexivity].
    exfalso. apply Hno, H3. discriminate.
Qed.

Lemma dressed_off (q : page) :
  isTopFrame (frame_of q) && isCapturing (frame_of q) = false ->
  statusIndicator q = None -> timerInterval q = false ->
  originalTitle (titling_of q) = None -> dressed q.
Proof.
  intros Hoff H1 H2 H3.
  constructor; rewrite ?H1, ?H2, ?H3; (split; [congruence |]);
    intros [Ha Hb]; rewrite Ha, Hb in Hoff; discriminate.
Qed.

Lemma setRecordingTitle_remembers (t : titling) :
  originalTitle (setRecordingTitle true t)
  = Some match originalTitle t with
         | Some original => original
         | None => document_title t
         end.
Proof.
  unfold setRecordingTitle. cbn [negb].
  destruct (originalTitle t) as [original |] eqn:Horiginal;
    destruct (negb _); cbn; rewrite ?Horiginal; reflexivity.
Qed.

Lemma startTitleObserver_keeps (top : bool) (t : titling) :
  originalTitle (startTitleObserver top t) = originalTitle t
  /\ title_text (startTitleObserver top t) = title_text t.
Proof.
  unfold startTitleObserver. destruct (negb top); [split; reflexivity |].
  destruct (title_text t) eqn:Htext; cbn; rewrite ?Htext; split; reflexivity.
Qed.

Lemma restoreTitle_forgets (t : titling) : originalTitle (restoreTitle true t) = None.
Proof.
  unfold restoreTitle. cbn [negb].
  destruct (originalTitle t) eqn:Horiginal; [reflexivity |].
  destruct (startsWith _ _); cbn; exact Horiginal.
Qed.

Lemma onTitleMutation_keeps (rec : bool) (t : titling) :
  originalTitle (onTitleMutation rec t) = originalTitle t.
Proof. unfold onTitleMutation. destruct (_ && _); reflexivity. Qed.

Lemma startCapture_dressed (w : world) (iso : option jsstring) (count : Z) (p : page) :
  document_body w <> None -> dressed p -> dressed (fst (startCapture w iso count p)).
Proof.
  intros Hbody Hp. destruct (isCapturing (frame_of p)) eqn:Hrec.
  - unfold Page.startCapture. rewrite Hrec. exact Hp.
  - destruct (startCapture_fields w iso count p Hrec (fun _ => Hbody))
      as (Hnow & Htop & _ & Hshown & Hinterval & Htitle & _).
    destruct (isTopFrame (frame_of p)) eqn:Hp_top.
    + constructor; rewrite Hnow, Htop, ?Hshown, ?Hinterval, ?Htitle;
        (split; [intros _; split; reflexivity | intros _]);
        [discriminate | reflexivity |].
      rewrite (proj1 (startTitleObserver_keeps true _)), setRecordingTitle_remembers.
      discriminate.
    + destruct (dressed_bare p Hp) as (H1 & H2 & H3); [rewrite Hp_top; reflexivity |].
      apply dressed_off; rewrite ?Htop, ?Hshown, ?Hinterval, ?Htitle; assumption || reflexivity.
Qed.

Lemma stopCapture_dressed (p : page) : dressed p -> dressed (fst (stopCapture p)).
Proof.
  intros Hp. destruct (isCapturing (frame_of p)) eqn:Hrec.
  - destruct (stopCapture_fields p Hrec)
      as (Hnow & Htop & _ & _ & Hshown & Hinterval & Htitle).
    destruct (isTopFrame (frame_of p)) eqn:Hp_top.
    + apply dressed_off; rewrite ?Hnow, ?Hshown, ?Hinterval, ?Htitle;
        [apply andb_false_r | reflexivity | reflexivity | apply restoreTitle_forgets].
    + destruct (dressed_bare p Hp) as (H1 & H2 & H3); [rewrite Hp_top; reflexivity |].
      apply dressed_off; rewrite ?Htop, ?Hshown, ?Hinterval, ?Htitle; assumption || reflexivity.
  - rewrite (stopCapture_idle p Hrec). exact Hp.
Qed.

Lemma step_dressed (p : page) (ev : event) (w : world) :
  document_body w <> None -> dressed p -> dressed (fst (step p ev w)).
Proof.
  intros Hbody Hp. destruct ev as [message | mutations | | | value | | | img | img | attempt reply | attempt
                  | attempt | sourceWindow depth];
    cbn [Page.step].
  - destruct message as [startTime entryCount | | count | reason]; cbn [Page.onMessage].
    + apply startCapture_dressed; assumption.
    + apply stopCapture_dressed. exact Hp.
    + cbn [fst]. destruct (updateCount_keeps count p) as (Hframe & _ & Htitle & Hinterval & Hshown).
      apply (dressed_same p); rewrite ?Hframe, ?Htitle; try reflexivity; assumption.
    + pose proof (stopCapture_dressed p Hp) as Hq.
      destruct (stopCapture p) as [p1 calls]. exact Hq.
  - destruct (Nat.eqb _ 0); [exact Hp |].
    apply (dressed_same p); try reflexivity; exact Hp.
  - destruct (timers (feed_of p)) as [| remaining]; [exact Hp |].
    eapply dressed_skeleton; [apply processPendingMutations_skeleton |].
    apply (dressed_same p); try reflexivity; exact Hp.
  - destruct (Nat.eqb _ 0); [exact Hp |].
    eapply dressed_skeleton; [apply onRootMutation_skeleton |].
    destruct (document_body w); [| exact Hp].
    apply (dressed_same p); try reflexivity; exact Hp.
  - apply (dressed_same p); try reflexivity; exact Hp.
  - destruct (titleObserver (titling_of p)); [| exact Hp].
    apply (dressed_same p); try reflexivity; [apply onTitleMutation_keeps | exact Hp].
  - destruct (timerInterval p) eqn:Hon; [| exact Hp].
    cbn [fst]. destruct (updateTimer_keeps (clock w) p) as (Hframe & _ & Htitle & Hinterval & Hshown).
    apply (dressed_same p); rewrite ?Hframe, ?Htitle; try reflexivity; assumption.
  - destruct (addDotToImage_orderly 0 img p) as [Hskel _].
    exact (dressed_skeleton p _ Hskel Hp).
  - exact Hp.
  - destruct (onStateReply_page w attempt reply p) as [-> | (iso & count & _ & ->)];
      [| apply startCapture_dressed]; assumption.
  - exact Hp.
  - exact Hp.
  - destruct (flash_sends_no_entry (frame_of p) (clock w) sourceWindow depth)
      as (_ & Htop & _ & _ & Hrec).
    destruct (onFlashMessage (frame_of p) (clock w) sourceWindow depth) as [f effs].
    apply (dressed_same p); try reflexivity; assumption.
Qed.

Lemma loaded_dressed (top : bool) (path address : jsstring) (frames : list (nat * nat))
    (title : option jsstring) :
  dressed (loaded top path address frames title).
Proof. apply dressed_off; [apply andb_false_r | reflexivity ..]. Qed.

(** X18. The indicator follows the capture: in a frame whose document
    has had a body at every event since the script was loaded, the
    indicator element, its one-second interval and the remembered
    original title are there exactly when the script is capturing in the
    top frame. *)
Theorem indicator_follows_capture
    (top : bool) (path address : jsstring) (frames : list (nat * nat))
    (title : option jsstring) (evs : list (event * world)) :
  Forall (fun x => document_body (snd x) <> None) evs ->
  dressed (fst (run (loaded top path address frames title) evs)).
Proof.
  induction evs as [| [ev w] evs IH] using rev_ind; intros Hall; [apply loaded_dressed |].
  apply Forall_app in Hall. destruct Hall as [Hevs Hlast].
  inversion Hlast as [| ? ? Hbody _]; subst. cbn [snd] in Hbody.
  rewrite run_last. cbn [fst]. apply step_dressed; [exact Hbody | exact (IH Hevs)].
Qed.

(** *** The title over a capture *)

(** While the capture goes on, the title the script remembers stays. *)
Lemma step_remembers (p : page) (ev : event) (w : world) :
  keeps_capturing ev = true ->
  isCapturing (frame_of p) = true ->
  isCapturing (frame_of (fst (step p ev w))) = true
  /\ isTopFrame (frame_of (fst (step p ev w))) = isTopFrame (frame_of p)
  /\ originalTitle (titling_of (fst (step p ev w))) = originalTitle (titling_of p).
Proof.
  intros Hkeeps Hrec.
  assert (Hskeleton : forall q r, skeleton q = skeleton r ->
            titling_of r = titling_of p ->
            isTopFrame (frame_of r) = isTopFrame (frame_of p) ->
            isCapturing (frame_of r) = true ->
            isCapturing (frame_of q) = true
            /\ isTopFrame (frame_of q) = isTopFrame (frame_of p)
            /\ originalTitle (titling_of q) = originalTitle (titling_of p)).
  { intros q r Hskel Hr1 Hr2 Hr3. fields Hskel. rewrite Htitling, Hr1.
    repeat split; congruence. }
  destruct ev as [message | mutations | | | value | | | img | img | attempt reply | attempt
                  | attempt | sourceWindow depth];
    cbn [Page.step].
  - destruct message as [startTime entryCount | | count | reason];
      cbn [Page.onMessage]; try discriminate Hkeeps.
    + unfold Page.startCapture. rewrite Hrec. repeat split; assumption.
    + cbn [fst]. destruct (updateCount_keeps count p) as (Hframe & _ & Htitle & _).
      rewrite Hframe, Htitle. repeat split; assumption.
  - destruct (Nat.eqb _ 0); repeat split; assumption.
  - destruct (timers (feed_of p)) as [| remaining]; [repeat split; assumption |].
    eapply Hskeleton; [apply processPendingMutations_skeleton | reflexivity ..| exact Hrec].
  - destruct (Nat.eqb _ 0); [repeat split; assumption |].
    eapply Hskeleton; [apply onRootMutation_skeleton | ..];
      destruct (document_body w); first [reflexivity | exact Hrec].
  - repeat split; assumption.
  - destruct (titleObserver (titling_of p)); [| repeat split; assumption].
    cbn. rewrite onTitleMutation_keeps. repeat split; assumption.
  - destruct (timerInterval p); [| repeat split; assumption].
    cbn [fst]. destruct (updateTimer_keeps (clock w) p) as (Hframe & _ & Htitle & _).
    rewrite Hframe, Htitle. repeat split; assumption.
  - eapply Hskeleton; [apply (addDotToImage_orderly 0 img p) | reflexivity ..| exact Hrec].
  - repeat split; assumption.
  - destruct (onStateReply_page w attempt reply p) as [-> | (iso & count & Hidle & _)];
      [repeat split; assumption | congruence].
  - repeat split; assumption.
  - repeat split; assumption.
  - destruct (flash_sends_no_entry (frame_of p) (clock w) sourceWindow depth)
      as (_ & Htop & _ & _ & Hsame).
    destruct (onFlashMessage (frame_of p) (clock w) sourceWindow depth) as [f effs].
    cbn in *. repeat split; congruence.
Qed.

Lemma run_remembers (p : page) (evs : list (event * world)) :
  Forall (fun x => keeps_capturing (fst x) = true) evs ->
  isCapturing (frame_of p) = true ->
  isCapturing (frame_of (fst (run p evs))) = true
  /\ isTopFrame (frame_of (fst (run p evs))) = isTopFrame (frame_of p)
  /\ originalTitle (titling_of (fst (run p evs))) = originalTitle (titling_of p).
Proof.
  intros Hall Hrec. induction evs as [| [ev w] evs IH] using rev_ind;
    [repeat split; assumption |].
  apply Forall_app in Hall. destruct Hall as [Hevs Hlast].
  inversion Hlast as [| ? ? Hkeeps _]; subst. cbn [fst] in Hkeeps.
  destruct (IH Hevs) as (Hnow & Htop & Htitle).
  rewrite run_last. cbn [fst].
  destruct (step_remembers (fst (run p evs)) ev w Hkeeps Hnow) as (H1 & H2 & H3).
  repeat split; congruence.
Qed.

Lemma document_title_fixed (t : titling) :
  strip_and_collapse (document_title t) = document_title t.
Proof.
  unfold document_title. destruct (title_text t); [apply strip_and_collapse_twice | reflexivity].
Qed.

(** X19. The title over a capture: when a capture is started in the
    top frame of a document with a body, by a script that remembers no
    title, and later stopped, the title read after the stop is the title
    read before the start, whatever the page and the title observer have
    written in between, the page's own new title included; nothing is
    remembered and no title observer is left. *)
Theorem title_restored_after_capture
    (p : page) (w : world) (startTimeISO : option jsstring) (initialCount : Z)
    (evs : list (event * world)) :
  isTopFrame (frame_of p) = true ->
  isCapturing (frame_of p) = false ->
  originalTitle (titling_of p) = None ->
  document_body w <> None ->
  Forall (fun x => keeps_capturing (fst x) = true) evs ->
  let started := fst (startCapture w startTimeISO initialCount p) in
  let stopped := fst (stopCapture (fst (run started evs))) in
  document_title (titling_of stopped) = document_title (titling_of p)
  /\ originalTitle (titling_of stopped) = None
  /\ titleObserver (titling_of stopped) = false.
Proof.
  intros Htop Hidle Hnone Hbody Hall started stopped.
  destruct (startCapture_fields w startTimeISO initialCount p Hidle (fun _ => Hbody))
    as (Hnow & Htop1 & _ & _ & _ & Htitle & _).
  fold started in Hnow, Htop1, Htitle. rewrite Htop in Htop1, Htitle.
  destruct (run_remembers started evs Hall Hnow) as (Hnow2 & Htop2 & Htitle2).
  rewrite Htitle, (proj1 (startTitleObserver_keeps true _)), setRecordingTitle_remembers,
    Hnone in Htitle2.
  destruct (stopCapture_fields (fst (run started evs)) Hnow2)
    as (_ & _ & _ & _ & _ & _ & Hrestored).
  fold stopped in Hrestored. rewrite Htop2, Htop1 in Hrestored. rewrite Hrestored.
  unfold restoreTitle, stopTitleObserver. cbn. rewrite Htitle2. cbn.
  repeat split. apply document_title_fixed.
Qed.

(** *** A start before the document has a body *)

(** X20. A start before the body: in a frame that is not the top
    frame, a capture started while the document has no body and stopped
    before the body appears leaves an observer waiting; when the body
    appears the initial content goes through the text filter and its
    entries are sent although the script is not capturing, and an
    observer of the body is connected. *)
Theorem body_waiter_outlives_stop
    (p : page) (w0 w1 : world) (startTimeISO : option jsstring) (initialCount : Z) :
  isTopFrame (frame_of p) = false ->
  isCapturing (frame_of p) = false ->
  document_body w0 = None ->
  document_body w1 <> None ->
  let stopped := fst (stopCapture (fst (startCapture w0 startTimeISO initialCount p))) in
  let late := step stopped RootChanged w1 in
  isCapturing (frame_of stopped) = false
  /\ bodyWaiters (feed_of stopped) = S (bodyWaiters (feed_of p))
  /\ sent_entries (snd late) = sent_entries (snd (captureInitialContent w1 stopped))
  /\ isCapturing (frame_of (fst late)) = false
  /\ observer (feed_of (fst late)) = true
  /\ (0 < connected (feed_of (fst late)))%nat.
Proof.
  intros Htop Hidle Hnone Hbody stopped late.
  destruct (startCapture_fields w0 startTimeISO initialCount p Hidle)
    as (Hnow & Htop1 & Hfeed & _); [congruence |].
  rewrite Hnone in Hfeed.
  destruct (stopCapture_fields _ Hnow) as (Hoff & _ & _ & Hfeed2 & _).
  fold stopped in Hoff, Hfeed2. rewrite Hfeed in Hfeed2. cbn in Hfeed2.
  assert (Hwait : bodyWaiters (feed_of stopped) = S (bodyWaiters (feed_of p)))
    by (rewrite Hfeed2; reflexivity).
  split; [exact Hoff |]. split; [exact Hwait |].
  subst late. cbn [Page.step]. rewrite Hwait. cbn [Nat.eqb].
  pose proof (onRootMutation_skeleton w1 stopped) as Hskel.
  unfold onRootMutation in *.
  destruct (document_body w1) as [[within body] |] eqn:Hw1; [| congruence].
  match goal with |- context [captureInitialContent w1 ?q] => set (q1 := q) in * end.
  assert (Hsame : snd (captureInitialContent w1 q1) = snd (captureInitialContent w1 stopped)).
  { unfold captureInitialContent. rewrite Hw1. unfold process_if_any.
    destruct (extractText within body); [reflexivity |].
    unfold process. subst q1. cbn [frame_of with_feed].
    destruct (processText _ _ _ _). reflexivity. }
  destruct (captureInitialContent w1 q1) as [q2 calls]. cbn [fst snd] in *.
  unfold skeleton in Hskel. cbn in Hskel |- *. rewrite Hsame.
  repeat split; [congruence | lia].
Qed.

(** X21. A start before the body, in the top frame: createIndicator
    throws, and startCapture ends there.  The script is capturing, with
    no observer added, the title untouched, no interval and an indicator
    that is not in the document; every later start is ignored; and when
    the start came from the answer to the state query, the query is tried
    again as after a failure. *)
Theorem start_without_body_in_top_frame
    (p : page) (w : world) (startTimeISO : option jsstring) (initialCount : Z)
    (attempt : Z) (state : Background.state_reply) :
  isTopFrame (frame_of p) = true ->
  isCapturing (frame_of p) = false ->
  document_body w = None ->
  let r := startCapture w startTimeISO initialCount p in
  snd r = [Uncaught]
  /\ isCapturing (frame_of (fst r)) = true
  /\ feed_of (fst r) = feed_of p
  /\ titling_of (fst r) = titling_of p
  /\ timerInterval (fst r) = timerInterval p
  /\ indicator_found (fst r) = None
  /\ (forall w' startTimeISO' initialCount',
        startCapture w' startTimeISO' initialCount' (fst r) = (fst r, []))
  /\ (Background.reply_isCapturing state = true ->
      snd (onStateReply w attempt (Some state) p) = onStateFailure attempt).
Proof.
  intros Htop Hidle Hnone r.
  destruct (startCapture_cut w startTimeISO initialCount p Hidle Htop Hnone)
    as (Hcalls & Hnow & _ & Hfeed & Htitle & Hinterval & Hshown).
  fold r in Hcalls, Hnow, Hfeed, Htitle, Hinterval, Hshown.
  repeat split; try assumption.
  - unfold indicator_found. rewrite Hshown. reflexivity.
  - intros w' iso' count'. unfold Page.startCapture at 1. rewrite Hnow. reflexivity.
  - intros Hreply. unfold Page.onStateReply. rewrite Hreply, Hidle. cbn [andb negb].
    destruct (startCapture_cut w (Background.reply_startTime state)
                (Background.reply_entryCount state) p Hidle Htop Hnone) as (Hthrown & _).
    cbv zeta in Hthrown. revert Hthrown.
    destruct (startCapture w (Background.reply_startTime state)
                (Background.reply_entryCount state) p) as [p1 calls].
    cbn [snd]. intros ->. reflexivity.
Qed.

End Lifecycle.

(** ** Reaching the page after a navigation *)

Section Navigation.

Import ContentScript Background Tabs.

Lemma retry_delay_bounds (attempt : Z) :
  1 <= attempt < 10 -> (100 <= retry_delay attempt <= 1000)%Q.
Proof.
  intros Hrange.
  assert (Hcases : In attempt [1; 2; 3; 4; 5; 6; 7; 8; 9]) by (cbn; lia).
  cbn [In] in Hcases.
  repeat (destruct Hcases as [<- | Hcases]; [vm_compute; split; discriminate |]).
  destruct Hcases.
Qed.

Lemma attempts_schedule (outcomes : list bool) (attempt : Z) (delay : Q) :
  1 <= attempt <= 10 -> (100 <= delay <= 1000)%Q ->
  let tries := attempts attempt delay outcomes in
  (length tries <= Z.to_nat (11 - attempt))%nat
  /\ List.map fst tries = List.map (fun i => attempt + Z.of_nat i) (seq 0 (length tries))
  /\ Forall (fun try => (100 <= snd try <= 1000)%Q) tries.
Proof.
  revert attempt delay. induction outcomes as [| rejected later IH]; intros attempt delay Ha Hd.
  - cbn. repeat split; [lia | constructor].
  - cbn [attempts]. cbv zeta.
    assert (Hone : (1 <= Z.to_nat (11 - attempt))%nat) by lia.
    assert (Hlast : forall rest : list (Z * Q), rest = [] ->
              (length ((attempt, delay) :: rest) <= Z.to_nat (11 - attempt))%nat
              /\ List.map fst ((attempt, delay) :: rest)
                 = List.map (fun i => attempt + Z.of_nat i)
                     (seq 0 (length ((attempt, delay) :: rest)))
              /\ Forall (fun try => (100 <= snd try <= 1000)%Q) ((attempt, delay) :: rest)).
    { intros rest ->. cbn. repeat split; [lia | f_equal; lia | repeat constructor; apply Hd]. }
    destruct rejected; [| apply Hlast; reflexivity].
    unfold onRejected. destruct (Z.ltb_spec attempt 10) as [Hmore | Hdone];
      [| apply Hlast; reflexivity].
    destruct (IH (attempt + 1) (retry_delay attempt)) as (Hlen & Hnum & Hall);
      [lia | apply retry_delay_bounds; lia |].
    cbn [length List.map fst seq]. repeat split.
    + lia.
    + rewrite Hnum, <- seq_shift, List.map_map. f_equal; [lia |].
      apply List.map_ext. intros i. lia.
    + constructor; [exact Hd | exact Hall].
Qed.

(** X22. Retries of the start message after a page load: whatever the
    outcomes, at most ten attempts are made, numbered from 1 upward, and
    each is made between 100 and 1000 milliseconds after the one
    before. *)
Theorem start_message_retries (outcomes : list bool) :
  let tries := attempts 1 100 outcomes in
  (length tries <= 10)%nat
  /\ List.map fst tries = List.map (fun i => 1 + Z.of_nat i) (seq 0 (length tries))
  /\ Forall (fun try => (100 <= snd try <= 1000)%Q) tries.
Proof.
  apply (attempts_schedule outcomes 1 100); [lia | split; discriminate].
Qed.

End Navigation.

Section Resume.

Import ContentScript Page PageFacts.

Variable Date_parse : jsstring -> option Z.

Local Abbreviation startCapture := (Page.startCapture Date_parse).
Local Abbreviation onMessage := (Page.onMessage Date_parse).
Local Abbreviation onStateReply := (Page.onStateReply Date_parse).

Lemma toISOString_not_empty (t : Z) : toISOString t <> [].
Proof.
  unfold toISOString. destruct (civil_from_days _) as [[y m] d].
  intros Hnil. apply (f_equal (@length N)) in Hnil.
  rewrite !length_app in Hnil. cbn in Hnil. lia.
Qed.

(** X23. Resuming after a navigation: while a session is recording on
    a tab, the start message the background script sends to the tab and
    the answer it gives to the state query of the tab's new page start a
    content script that is not capturing, in a document with a body, in
    the same way: capturing, with the number of entries of the session
    and the session's start time as its ISO string parses; and once the
    script has started, the start message changes nothing. *)
Theorem resume_after_navigation
    (s : Background.state) (tab started : Z) (p : page) (w : world) (attempt : Z) :
  Background.isCapturing s = true ->
  Background.activeTabId s = Some tab ->
  Background.captureStartTime s = Some started ->
  isCapturing (frame_of p) = false ->
  document_body w <> None ->
  exists message,
    Tabs.sendStartMessage tab s = Some (Background.TabsSend tab message)
    /\ let pushed := fst (onMessage w message p) in
       let pulled :=
         fst (onStateReply w attempt (Some (Background.getState (Some tab) s)) p) in
       pulled = pushed
       /\ isCapturing (frame_of pushed) = true
       /\ entryCount pushed = Z.of_nat (length (Background.capturedText s))
       /\ startTime pushed = Some (Date_parse (toISOString started))
       /\ forall w', fst (onMessage w' message pushed) = pushed.
Proof.
  intros Hrec Hactive Hstarted Hidle Hbody.
  unfold Tabs.sendStartMessage. rewrite Hstarted. eexists. split; [reflexivity |].
  cbv zeta. cbn [Page.onMessage].
  set (count := Z.of_nat (length (Background.capturedText s))).
  destruct (startCapture_fields Date_parse w (Some (toISOString started)) count p Hidle
              (fun _ => Hbody)) as (Hnow & _ & _ & _ & _ & _ & Hcount & Htime).
  split; [| split; [exact Hnow | split; [exact Hcount | split]]].
  - unfold Page.onStateReply, Background.getState.
    cbn [Background.reply_isCapturing Background.reply_startTime Background.reply_entryCount].
    rewrite Hrec, Hactive, Hstarted, Hidle. cbn [Background.same_tab option_map].
    rewrite Z.eqb_refl. cbn [andb negb]. fold count.
    destruct (Page.startCapture _ _ _ _ _) as [p1 calls].
    destruct (caught calls) as [before thrown]. reflexivity.
  - rewrite Htime. destruct (toISOString started) as [| c iso] eqn:Hiso; [| reflexivity].
    destruct (toISOString_not_empty started Hiso).
  - intros w'. unfold Page.startCapture at 1. rewrite Hnow. reflexivity.
Qed.

End Resume.

(** ** The properties on the samples *)

Lemma acc_prefix_rejected_witness :
  ContentScript.cleanText (lit " ACCOUNT   SETTINGS ") = lit "ACC" ++ lit "OUNT SETTINGS"
  /\ ContentScript.processText Samples.top_frame Samples.t0
       (lit " ACCOUNT   SETTINGS ") ContentScript.added
     = (Samples.top_frame, []).
Proof.
  split; [vm_compute; reflexivity |].
  apply (acc_prefix_rejected Samples.top_frame Samples.t0 (lit " ACCOUNT   SETTINGS ")
           ContentScript.added (lit "OUNT SETTINGS")).
  vm_compute. reflexivity.
Defined.

Lemma indicator_checks_unreachable_witness :
  ContentScript.MIN_TEXT_LENGTH <= String_length (lit "12:34 and on")
  /\ test ContentScript.timer_text (lit "12:34 and on") = false
  /\ test ContentScript.timer_text (lit "12:34") = true.
Proof.
  split; [vm_compute; discriminate |].
  split; [| vm_compute; reflexivity].
  apply (indicator_checks_unreachable (lit "12:34 and on")). vm_compute. discriminate.
Defined.

Lemma flash_cooldown_witness :
  ContentScript.flashIframeBorder Samples.nested_frame Samples.t0 5
  = (ContentScript.cooled_at 5 Samples.t0 Samples.nested_frame, [ContentScript.FlashOverlay 5])
  /\ ContentScript.flashIframeBorder
       (ContentScript.cooled_at 5 Samples.t0 Samples.nested_frame) (Samples.t0 + 499) 5
     = (ContentScript.cooled_at 5 Samples.t0 Samples.nested_frame, []).
Proof.
  destruct (flash_cooldown Samples.nested_frame Samples.t0 (Samples.t0 + 499) 5)
    as (Hfirst & Hsoon & _); [reflexivity | vm_compute; discriminate |].
  split; [exact Hfirst |]. apply Hsoon. vm_compute. reflexivity.
Defined.

Lemma flash_reaches_ten_frames_witness :
  Relay.complete PageSamples.lesson_chain
  /\ Forall Relay.flashes PageSamples.lesson_chain
  /\ Relay.overlays (Relay.climb 1 PageSamples.lesson_chain) = 2%nat.
Proof.
  assert (Hnested : Relay.nested PageSamples.lesson_chain) by (split; reflexivity).
  assert (Hflashes : Forall Relay.flashes PageSamples.lesson_chain).
  { repeat constructor; exists 5%nat; (split; [reflexivity | vm_compute; discriminate]). }
  split; [split; [exact Hnested |] |].
  - exists [(Samples.nested_frame, 9%nat, Samples.t0 + 1)], Samples.top_frame, 9%nat,
           (Samples.t0 + 2).
    split; reflexivity.
  - split; [exact Hflashes |].
    rewrite (proj1 (proj2 (flash_reaches_ten_frames PageSamples.lesson_chain))
               Hflashes Hnested).
    reflexivity.
Defined.

Lemma entry_offset_is_elapsed_witness :
  In (ContentScript.SendCaptureText Samples.hello_at_start)
     (snd (ContentScript.processText Samples.top_frame Samples.t0
             (lit "  Hello   world, this is a test paragraph.  ") ContentScript.initial))
  /\ Background.timeOffset UTC.Date_parse (Samples.t0 - 2500) Samples.hello_at_start = lit "3".
Proof.
  assert (Hsent : In (ContentScript.SendCaptureText Samples.hello_at_start)
                    (snd (ContentScript.processText Samples.top_frame Samples.t0
                            (lit "  Hello   world, this is a test paragraph.  ")
                            ContentScript.initial)))
    by (vm_compute; left; reflexivity).
  split; [exact Hsent |].
  destruct (entry_offset_is_elapsed UTC.Date_parse Samples.top_frame Samples.t0
              (Samples.t0 - 2500) _ _ _ eq_refl Hsent) as (Hoffset & _).
  rewrite Hoffset. vm_compute. reflexivity.
Defined.

Section PageWitnesses.

Import ContentScript Page PageFacts PageSamples.

Local Abbreviation startCapture := (Page.startCapture UTC.Date_parse).
Local Abbreviation onStateReply := (Page.onStateReply UTC.Date_parse).
Local Abbreviation step := (Page.step UTC.Date_parse getHours getMinutes getSeconds).
Local Abbreviation run := (Page.run UTC.Date_parse getHours getMinutes getSeconds).

Lemma lecture_bodies : Forall (fun x : event * world => document_body (snd x) <> None) lecture.
Proof. repeat constructor; discriminate. Qed.

Lemma interrupted_bodies :
  Forall (fun x : event * world => document_body (snd x) <> None) interrupted.
Proof. repeat constructor; discriminate. Qed.

Lemma stopped_page_is_silent_witness :
  pendingMutations (feed_of (fst (run course_page interrupted))) = []
  /\ timers (feed_of (fst (run course_page interrupted))) = 1%nat
  /\ sent_entries
       (snd (step (fst (run course_page interrupted)) ThrottleFires
               (with_body (Samples.t0 + 5250))))
     = [].
Proof.
  split; [vm_compute; reflexivity |]. split; [vm_compute; reflexivity |].
  apply (stopped_page_is_silent UTC.Date_parse getHours getMinutes getSeconds
           true (lit "/course") (lit "https://example.com/course") []
           (Some (lit "  Closures   101 ")) interrupted ThrottleFires
           (with_body (Samples.t0 + 5250)) interrupted_bodies).
  vm_compute. reflexivity.
Defined.

Lemma indicator_follows_capture_witness :
  timerInterval (fst (run course_page lecture)) = true
  /\ timerInterval (fst (run course_page interrupted)) = false.
Proof.
  split.
  - apply (interval_there _
             (indicator_follows_capture UTC.Date_parse getHours getMinutes getSeconds
                true (lit "/course") (lit "https://example.com/course") []
                (Some (lit "  Closures   101 ")) lecture lecture_bodies)).
    split; vm_compute; reflexivity.
  - vm_compute. reflexivity.
Defined.

Lemma title_restored_after_capture_witness :
  document_title
    (titling_of
       (fst (run (fst (startCapture (with_body (Samples.t0 + 50))
                         (Some (toISOString Samples.t0)) 0 course_page))
               retitled)))
  = RECORDING_EMOJI ++ lit "Lesson 2"
  /\ document_title
       (titling_of
          (fst (stopCapture
                  (fst (run (fst (startCapture (with_body (Samples.t0 + 50))
                                    (Some (toISOString Samples.t0)) 0 course_page))
                          retitled)))))
     = lit "Closures 101".
Proof.
  split; [vm_compute; reflexivity |].
  destruct (title_restored_after_capture UTC.Date_parse getHours getMinutes getSeconds
              course_page (with_body (Samples.t0 + 50)) (Some (toISOString Samples.t0)) 0
              retitled) as (Htitle & _);
    [reflexivity | reflexivity | reflexivity | discriminate
    | repeat constructor |].
  rewrite Htitle. vm_compute. reflexivity.
Defined.

Lemma body_waiter_outlives_stop_witness :
  List.map text
    (sent_entries
       (snd (step (fst (stopCapture
                          (fst (startCapture (without_body Samples.t0)
                                  (Some (toISOString Samples.t0)) 0 player_page))))
               RootChanged (with_body (Samples.t0 + 800)))))
  = [lit "Closures in JavaScript A closure keeps its scope."].
Proof.
  destruct (body_waiter_outlives_stop UTC.Date_parse getHours getMinutes getSeconds
              player_page (without_body Samples.t0) (with_body (Samples.t0 + 800))
              (Some (toISOString Samples.t0)) 0) as (_ & _ & Hsent & _);
    [reflexivity | reflexivity | reflexivity | discriminate |].
  cbv zeta in Hsent. rewrite Hsent. vm_compute. reflexivity.
Defined.

Lemma start_without_body_in_top_frame_witness :
  snd (startCapture (without_body Samples.t0) (Some (toISOString Samples.t0)) 0 course_page)
  = [Uncaught]
  /\ snd (onStateReply (without_body Samples.t0) 1
            (Some {| Background.reply_isCapturing := true;
                     Background.reply_startTime := Some (toISOString Samples.t0);
                     Background.reply_entryCount := 0 |})
            course_page)
     = [CheckLater 2 100].
Proof.
  destruct (start_without_body_in_top_frame UTC.Date_parse course_page
              (without_body Samples.t0) (Some (toISOString Samples.t0)) 0 1
              {| Background.reply_isCapturing := true;
                 Background.reply_startTime := Some (toISOString Samples.t0);
                 Background.reply_entryCount := 0 |})
    as (Hthrown & _ & _ & _ & _ & _ & _ & Hretry);
    [reflexivity | reflexivity | reflexivity |].
  split; [exact Hthrown |]. rewrite Hretry; reflexivity.
Defined.

Lemma resume_after_navigation_witness :
  let s := Background.vars
             (Background.run UTC.Date_parse UTC.toTimeString Background.boot Samples.one_entry) in
  let resumed :=
    fst (onStateReply (with_body (Samples.t0 + 9000)) 1
           (Some (Background.getState (Some 7) s)) course_page) in
  entryCount resumed = 1 /\ startTime resumed = Some (Some Samples.t0).
Proof.
  cbv zeta.
  destruct (resume_after_navigation UTC.Date_parse
              (Background.vars
                 (Background.run UTC.Date_parse UTC.toTimeString Background.boot
                    Samples.one_entry))
              7 Samples.t0 course_page (with_body (Samples.t0 + 9000)) 1)
    as (message & _ & Hsame & _ & Hcount & Htime & _);
    [vm_compute; reflexivity | vm_compute; reflexivity | vm_compute; reflexivity
    | reflexivity | discriminate |].
  rewrite Hsame, Hcount, Htime. split; vm_compute; reflexivity.
Defined.

End PageWitnesses.

(** ** From a save dot to the download *)

Section SavedImages.

Import ContentScript Page.

Variable Date_parse : jsstring -> option Z.
Variable toTimeString : Z -> jsstring.
Variables getHours getMinutes getSeconds : Z -> Z.

Lemma two_digits (n : Z) :
  0 <= n < 100 ->
  length (padStart 2 48%N (String_of_Z n)) = 2%nat
  /\ Forall (fun c => is_digit c = true) (padStart 2 48%N (String_of_Z n)).
Proof.
  intros Hn. split.
  - rewrite padStart_length.
    pose proof (String_of_Z_short n 2 ltac:(cbn; lia) ltac:(lia)). lia.
  - unfold padStart. apply Forall_app. split.
    + apply List.Forall_forall. intros c Hc. apply repeat_spec in Hc. subst c. reflexivity.
    + apply String_of_Z_digits. lia.
Qed.

(** X24. From a save dot to the download: a click on the dot of an
    image, at a time whose hours, minutes and seconds the engine gives
    within their ranges, asks for the file img-HH-MM-SS.png or
    img-HH-MM-SS.jpg, each of HH, MM and SS two digits; and the background
    script, whether a session is recording or not, downloads the address
    of the image to ACC-, the date of the day, a slash and that name,
    leaving its state as it was. *)
Theorem dot_click_downloads
    (img : image) (clicked handled : Z) (sender_tab : option Z) (s : Background.state) :
  0 <= getHours clicked < 24 ->
  0 <= getMinutes clicked < 60 ->
  0 <= getSeconds clicked < 60 ->
  exists hh mm ss ext,
    onDotClick getHours getMinutes getSeconds clicked img
    = [SendSaveImage (src img) (lit "img-" ++ hh ++ lit "-" ++ mm ++ lit "-" ++ ss
                                ++ lit "." ++ ext)]
    /\ Background.onMessage Date_parse toTimeString sender_tab
         (Background.SaveImage (src img)
            (lit "img-" ++ hh ++ lit "-" ++ mm ++ lit "-" ++ ss ++ lit "." ++ ext))
         handled s
       = (s,
          [Background.DownloadImage (src img)
             (lit "ACC-" ++ Background.getTodayDate handled ++ lit "/"
              ++ lit "img-" ++ hh ++ lit "-" ++ mm ++ lit "-" ++ ss ++ lit "." ++ ext)],
          [], None)
    /\ Forall (fun part => length part = 2%nat /\ Forall (fun c => is_digit c = true) part)
         [hh; mm; ss]
    /\ (ext = lit "png" \/ ext = lit "jpg").
Proof.
  intros Hh Hm Hs.
  exists (padStart 2 48%N (String_of_Z (getHours clicked))),
         (padStart 2 48%N (String_of_Z (getMinutes clicked))),
         (padStart 2 48%N (String_of_Z (getSeconds clicked))),
         (saved_extension (src img)).
  split; [unfold onDotClick, getImageTimestamp; rewrite <- !app_assoc; reflexivity |].
  split; [reflexivity |].
  split; [| apply saved_extension_cases].
  repeat constructor; apply two_digits; lia.
Qed.

End SavedImages.

Lemma dot_click_downloads_witness :
  Page.src PageSamples.diagram = lit "https://example.com/img/Scope.JPEG?v=2"
  /\ Page.onDotClick PageSamples.getHours PageSamples.getMinutes PageSamples.getSeconds
       Samples.t0 PageSamples.diagram
     = [Page.SendSaveImage (Page.src PageSamples.diagram) (lit "img-15-30-45.jpg")]
  /\ Background.onMessage UTC.Date_parse UTC.toTimeString (Some 7)
       (Background.SaveImage (Page.src PageSamples.diagram) (lit "img-15-30-45.jpg"))
       (Samples.t0 + 20) Background.initial_state
     = (Background.initial_state,
        [Background.DownloadImage (Page.src PageSamples.diagram)
           (lit "ACC-2025-01-20/img-15-30-45.jpg")],
        [], None).
Proof.
  destruct (dot_click_downloads UTC.Date_parse UTC.toTimeString
              PageSamples.getHours PageSamples.getMinutes PageSamples.getSeconds
              PageSamples.diagram Samples.t0 (Samples.t0 + 20) (Some 7)
              Background.initial_state)
    as (hh & mm & ss & ext & Hclick & Hsave & _);
    [vm_compute; split; [discriminate | reflexivity] ..|].
  assert (Hname : lit "img-" ++ hh ++ lit "-" ++ mm ++ lit "-" ++ ss ++ lit "." ++ ext
                  = lit "img-15-30-45.jpg").
  { assert (Hsent : Page.onDotClick PageSamples.getHours PageSamples.getMinutes
                      PageSamples.getSeconds Samples.t0 PageSamples.diagram
                    = [Page.SendSaveImage (Page.src PageSamples.diagram)
                         (lit "img-15-30-45.jpg")]) by (vm_compute; reflexivity).
    congruence. }
  rewrite Hname in Hclick, Hsave.
  split; [reflexivity |]. split; [exact Hclick |].
  rewrite Hsave. vm_compute. reflexivity.
Defined.

(** ** Save dots *)

Section SaveDots.

Import ContentScript Page PageFacts.

Variable Date_parse : jsstring -> option Z.
Variables getHours getMinutes getSeconds : Z -> Z.

Local Abbreviation startCapture := (Page.startCapture Date_parse).
Local Abbreviation onMessage := (Page.onMessage Date_parse).
Local Abbreviation onStateReply := (Page.onStateReply Date_parse).
Local Abbreviation step := (Page.step Date_parse getHours getMinutes getSeconds).
Local Abbreviation run := (Page.run Date_parse getHours getMinutes getSeconds).

Lemma dotted_after_app (calls later : list call) (before : list nat) :
  dotted_after (calls ++ later) before = dotted_after later (dotted_after calls before).
Proof.
  revert before. induction calls as [| c calls IH]; intros before; [reflexivity |].
  destruct c; cbn [app dotted_after]; apply IH.
Qed.

Lemma dotted_after_calm (calls : list call) (before : list nat) :
  Forall calm calls -> dotted_after calls before = before.
Proof.
  induction 1 as [| c calls Hc _ IH]; [reflexivity |].
  destruct c; cbn [dotted_after]; first [exact IH | destruct Hc].
Qed.

Lemma calm_no_error (calls : list call) :
  Forall calm calls -> Forall (fun c => c <> Uncaught) calls.
Proof.
  intros Hall. eapply List.Forall_impl; [| exact Hall].
  intros c Hc ->. exact Hc.
Qed.

Lemma dots_kept_moved (p q : page) (dotted : list nat) :
  imageDotsAdded q = imageDotsAdded p -> dots_kept p dotted -> dots_kept q dotted.
Proof. intros Hsame [Hnodup Hin]. split; [exact Hnodup | rewrite Hsame; exact Hin]. Qed.

Lemma neat_quiet (p q : page) (calls : list call) :
  imageDotsAdded q = imageDotsAdded p -> Forall calm calls -> neat p (q, calls).
Proof.
  intros Hsame Hcalm. split; [apply calm_no_error; exact Hcalm |].
  intros dotted Hkept. cbn [fst snd]. rewrite (dotted_after_calm _ _ Hcalm).
  exact (dots_kept_moved p q dotted Hsame Hkept).
Qed.

Lemma neat_same (p : page) : neat p (p, []).
Proof. apply neat_quiet; [reflexivity | constructor]. Qed.

Lemma neat_rebase (p q : page) (r : page * list call) :
  imageDotsAdded q = imageDotsAdded p -> neat q r -> neat p r.
Proof.
  intros Hsame [Hfine Hkeeps]. split; [exact Hfine |].
  intros dotted Hkept. apply Hkeeps. exact (dots_kept_moved p q dotted Hsame Hkept).
Qed.

Lemma neat_then (p : page) (r : page * list call) (change : page -> page) :
  neat p r -> (forall q, imageDotsAdded (change q) = imageDotsAdded q) ->
  neat p (let '(q, calls) := r in (change q, calls)).
Proof.
  intros [Hfine Hkeeps] Hchange. destruct r as [q calls]. cbn [fst snd] in *.
  split; [exact Hfine |]. intros dotted Hkept. cbn [fst snd].
  exact (dots_kept_moved q (change q) _ (Hchange q) (Hkeeps dotted Hkept)).
Qed.

Lemma and_then_neat (p : page) (first : page * list call) (next : page -> page * list call) :
  neat p first -> (forall q, neat q (next q)) -> neat p (and_then first next).
Proof.
  intros [Hfine Hkeeps] Hnext. unfold and_then. destruct first as [p1 calls1].
  destruct (Hnext p1) as [Hfine2 Hkeeps2]. destruct (next p1) as [p2 calls2].
  cbn [fst snd] in *. split; [apply Forall_app; split; assumption |].
  intros dotted Hkept. cbn [fst snd]. rewrite dotted_after_app.
  apply Hkeeps2, Hkeeps, Hkept.
Qed.

Lemma for_each_neat {A : Type} (body : A -> page -> page * list call) (items : list A) :
  (forall item q, neat q (body item q)) -> forall p, neat p (for_each body items p).
Proof.
  intros Hbody. induction items as [| item rest IH]; intros p; cbn [for_each].
  - apply neat_same.
  - apply and_then_neat; [apply Hbody | exact IH].
Qed.

Lemma Filter_calm (effs : list effect) : Forall calm (List.map Filter effs).
Proof. induction effs; constructor; [exact I | assumption]. Qed.

Lemma process_neat (now : Z) (raw : jsstring) (src : source) (p : page) :
  neat p (process now raw src p).
Proof.
  unfold process. destruct (processText (frame_of p) now raw src) as [f effs].
  apply neat_quiet; [reflexivity | apply Filter_calm].
Qed.

Lemma process_if_any_neat (now : Z) (raw : jsstring) (src : source) (p : page) :
  neat p (process_if_any now raw src p).
Proof. destruct raw; [apply neat_same | apply process_neat]. Qed.

Lemma addDotToImage_neat (img : image) (p : page) : neat p (addDotToImage img p).
Proof.
  unfold addDotToImage.
  destruct (shouldAddDot (imageDotsAdded p) img) eqn:Hshould; cbn [negb]; [| apply neat_same].
  assert (Hnew : img_element img ∉ imageDotsAdded p).
  { unfold shouldAddDot in Hshould. destruct (bool_decide (src img = [])); [discriminate |].
    destruct (bool_decide (img_element img ∈ imageDotsAdded p)) eqn:Hin; [discriminate |].
    apply bool_decide_eq_false in Hin. exact Hin. }
  assert (Hgrown : forall dotted, dots_kept p dotted ->
            dots_kept (with_dots ({[ img_element img ]} ∪ imageDotsAdded p) p) dotted
            /\ dots_kept (with_dots ({[ img_element img ]} ∪ imageDotsAdded p) p)
                 (img_element img :: dotted)).
  { intros dotted [Hnodup Hin]. split; (split; [| cbn [imageDotsAdded with_dots]]).
    - exact Hnodup.
    - intros e He. apply elem_of_union_r, Hin, He.
    - constructor; [| exact Hnodup]. intros He. apply Hnew, Hin, He.
    - intros e [<- | He]; [apply elem_of_union_l, elem_of_singleton; reflexivity |].
      apply elem_of_union_r, Hin, He. }
  destruct (parent_position img) as [position |].
  - split.
    + cbn [snd]. destruct (bool_decide (position = lit "static")); repeat constructor;
        discriminate.
    + intros dotted Hkept. cbn [fst snd].
      destruct (bool_decide (position = lit "static")); cbn [app dotted_after];
        apply Hgrown, Hkept.
  - split; [constructor |]. intros dotted Hkept. apply Hgrown, Hkept.
Qed.

Lemma dot_when_loaded_neat (img : image) (p : page) : neat p (dot_when_loaded img p).
Proof.
  unfold dot_when_loaded. destruct (complete img); [apply addDotToImage_neat |].
  apply neat_quiet; [reflexivity | repeat constructor].
Qed.

Lemma scanForImages_neat (w : world) (p : page) : neat p (scanForImages w p).
Proof.
  unfold scanForImages. destruct (_ || _); [apply neat_same |].
  apply for_each_neat. intros img q. apply dot_when_loaded_neat.
Qed.

Lemma captureInitialContent_neat (w : world) (p : page) : neat p (captureInitialContent w p).
Proof.
  unfold captureInitialContent.
  destruct (document_body w) as [[within body] |]; [| apply neat_same].
  apply process_if_any_neat.
Qed.

Lemma process_added_neat (w : world) (placed : bool * node) (p : page) :
  neat p (process_added w placed p).
Proof.
  unfold process_added. destruct placed as [within n].
  assert (Helement : forall images : page -> page * list call,
            (forall q, neat q (images q)) ->
            neat p
              (and_then (process_if_any (clock w) (extractText within n) added p)
                 (fun p1 => if isTopFrame (frame_of p1) && isCapturing (frame_of p1)
                            then images p1 else (p1, [])))).
  { intros images Himages. apply and_then_neat; [apply process_if_any_neat |].
    intros q. destruct (_ && _); [apply Himages | apply neat_same]. }
  destruct n as [data | data | id img | tagName id childNodes].
  - apply process_if_any_neat.
  - apply neat_same.
  - apply (Helement (dot_when_loaded img)). intros q. apply dot_when_loaded_neat.
  - apply (Helement (for_each dot_when_loaded (images_within (ElementNode tagName id childNodes)))).
    intros q. apply for_each_neat. intros img q'. apply dot_when_loaded_neat.
Qed.

Lemma process_mutation_neat (w : world) (m : mutation) (p : page) :
  neat p (process_mutation w m p).
Proof.
  unfold process_mutation. apply and_then_neat.
  - apply for_each_neat. intros placed q. apply process_added_neat.
  - intros q. destruct (type m); [apply neat_same | apply process_if_any_neat].
Qed.

Lemma processPendingMutations_neat (w : world) (p : page) :
  neat p (processPendingMutations w p).
Proof.
  unfold processPendingMutations.
  destruct (pendingMutations (feed_of p)) as [| m rest];
    [apply neat_quiet; [reflexivity | constructor] |].
  match goal with |- neat _ (for_each _ _ ?q) => apply (neat_rebase p q); [reflexivity |] end.
  apply for_each_neat. intros m' q. apply process_mutation_neat.
Qed.

Lemma startObserver_neat (w : world) (p : page) : neat p (startObserver w p).
Proof.
  unfold startObserver. destruct (document_body w) as [body |] eqn:Hbody.
  - apply (neat_then _ (captureInitialContent w p) startObserverOnBody);
      [apply captureInitialContent_neat | reflexivity].
  - apply neat_quiet; [reflexivity | constructor].
Qed.

Lemma onRootMutation_neat (w : world) (p : page) : neat p (onRootMutation w p).
Proof.
  unfold onRootMutation. destruct (document_body w) as [body |] eqn:Hbody.
  - match goal with |- neat _ (let '(_, _) := captureInitialContent w ?q in _) =>
      apply (neat_rebase p q); [reflexivity |];
      apply (neat_then _ (captureInitialContent w q) startObserverOnBody);
      [apply captureInitialContent_neat | reflexivity]
    end.
  - apply neat_same.
Qed.

(** A start ends well, or it is cut short with the dots as they were. *)
Lemma startCapture_neat (w : world) (startTimeISO : option jsstring) (initialCount : Z)
    (p : page) :
  let r := startCapture w startTimeISO initialCount p in
  neat p r \/ (snd r = [Uncaught] /\ imageDotsAdded (fst r) = imageDotsAdded p).
Proof.
  cbv zeta. unfold Page.startCapture.
  destruct (isCapturing (frame_of p)); [left; apply neat_same |].
  cbn [frame_of capturing_afresh isTopFrame].
  destruct (isTopFrame (frame_of p)) eqn:Htop.
  - unfold createIndicator. cbn [frame_of capturing_afresh isTopFrame]. rewrite Htop.
    cbn [negb]. destruct (document_body w) as [body |]; [left | right; split; reflexivity].
    match goal with |- neat _ (and_then (scanForImages w ?q) _) =>
      apply (neat_rebase p q); [reflexivity |]
    end.
    apply and_then_neat; [apply scanForImages_neat | intros q; apply startObserver_neat].
  - left.
    match goal with |- neat _ (startObserver w ?q) =>
      apply (neat_rebase p q); [reflexivity | apply startObserver_neat]
    end.
Qed.

Lemma stopCapture_neat (p : page) : neat p (stopCapture p).
Proof.
  unfold stopCapture. destruct (isCapturing (frame_of p)); cbn [negb]; [| apply neat_same].
  destruct (isTopFrame (frame_of (stopObserver (with_frame (switched false (frame_of p)) p)))).
  - split; [repeat constructor; discriminate |].
    intros dotted _. cbn. split; [constructor | intros e []].
  - apply neat_quiet; [reflexivity | constructor].
Qed.

(** Every handler keeps the dots. *)
Lemma step_keeps_dots (p : page) (ev : event) (w : world) (dotted : list nat) :
  dots_kept p dotted -> dots_kept (fst (step p ev w)) (dotted_after (snd (step p ev w)) dotted).
Proof.
  intros Hkept.
  assert (Hstart : forall iso count,
            dots_kept (fst (startCapture w iso count p))
              (dotted_after (snd (startCapture w iso count p)) dotted)).
  { intros iso count.
    destruct (startCapture_neat w iso count p) as [[_ Hkeeps] | [Hcut Hsame]];
      [apply Hkeeps, Hkept |].
    cbv zeta in Hcut, Hsame. rewrite Hcut. cbn [dotted_after].
    exact (dots_kept_moved p _ dotted Hsame Hkept). }
  assert (Hneat : forall r, neat p r -> dots_kept (fst r) (dotted_after (snd r) dotted)).
  { intros r [_ Hkeeps]. apply Hkeeps, Hkept. }
  destruct ev as [message | mutations | | | value | | | img | img | attempt reply | attempt
                  | attempt | sourceWindow depth];
    cbn [Page.step].
  - destruct message as [startTime entryCount | | count | reason]; cbn [Page.onMessage].
    + apply Hstart.
    + apply Hneat, stopCapture_neat.
    + apply Hneat, neat_quiet; [| constructor].
      unfold updateCount. destruct (indicator_found _); reflexivity.
    + apply Hneat.
      pose proof (stopCapture_neat p) as [Hfine Hkeeps].
      destruct (stopCapture p) as [p1 calls]. cbn [fst snd] in *.
      split; cbn [fst snd].
      * apply Forall_app. split; [exact Hfine |].
        destruct (isTopFrame (frame_of p1)); repeat constructor; discriminate.
      * intros ds Hds. rewrite dotted_after_app.
        destruct (isTopFrame (frame_of p1)); cbn [dotted_after]; apply Hkeeps, Hds.
  - apply Hneat. destruct (Nat.eqb _ 0); apply neat_quiet; reflexivity || constructor.
  - apply Hneat. destruct (timers (feed_of p)) as [| remaining]; [apply neat_same |].
    match goal with |- neat _ (processPendingMutations w ?q) =>
      apply (neat_rebase p q); [reflexivity | apply processPendingMutations_neat]
    end.
  - apply Hneat. destruct (Nat.eqb _ 0); [apply neat_same | apply onRootMutation_neat].
  - apply Hneat, neat_quiet; reflexivity || constructor.
  - apply Hneat. destruct (titleObserver (titling_of p)); apply neat_quiet;
      reflexivity || constructor.
  - apply Hneat. destruct (timerInterval p); [| apply neat_same].
    apply neat_quiet; [| constructor].
    unfold updateTimer. destruct (indicator_found p), (startTime p); reflexivity.
  - apply Hneat, addDotToImage_neat.
  - apply Hneat, neat_quiet; [reflexivity | repeat constructor].
  - unfold Page.onStateReply. destruct reply as [state |]; [| exact Hkept].
    destruct (_ && _); [| exact Hkept].
    specialize (Hstart (Background.reply_startTime state) (Background.reply_entryCount state)).
    destruct (startCapture_neat w (Background.reply_startTime state)
                (Background.reply_entryCount state) p) as [[Hfine _] | [Hcut _]];
      cbv zeta in *;
      destruct (startCapture w (Background.reply_startTime state)
                  (Background.reply_entryCount state) p) as [p1 calls];
      cbn [fst snd] in *.
    + assert (Hcaught : caught calls = (calls, false)).
      { clear - Hfine. induction Hfine as [| c calls Hc _ IH]; [reflexivity |].
        destruct c; cbn [caught]; rewrite ?IH; reflexivity || congruence. }
      rewrite Hcaught. cbn [fst snd]. rewrite app_nil_r. exact Hstart.
    + subst calls. cbn [caught fst snd app] in *.
      rewrite dotted_after_calm; [exact Hstart |].
      unfold onStateFailure. destruct (_ <? 3); repeat constructor.
  - apply Hneat, neat_quiet; [reflexivity |].
    unfold onStateFailure. destruct (_ <? 3); repeat constructor.
  - apply Hneat, neat_quiet; [reflexivity |].
    unfold checkAndResumeCapture. destruct (isCapturing (frame_of p)); repeat constructor.
  - apply Hneat.
    destruct (onFlashMessage (frame_of p) (clock w) sourceWindow depth) as [f effs].
    apply neat_quiet; [reflexivity | apply Filter_calm].
Qed.

(** X25. One dot for an image: whatever the script has handled since
    it was loaded, among the dots put since the dots were last removed no
    image element has two, and every element that has one is in
    imageDotsAdded. *)
Theorem save_dots_put_once
    (top : bool) (path address : jsstring) (frames : list (nat * nat))
    (title : option jsstring) (evs : list (event * world)) :
  let r := run (loaded top path address frames title) evs in
  List.NoDup (dotted_after (snd r) [])
  /\ forall element, In element (dotted_after (snd r) []) -> element ∈ imageDotsAdded (fst r).
Proof.
  cbv zeta. change (dots_kept (fst (run (loaded top path address frames title) evs))
                     (dotted_after (snd (run (loaded top path address frames title) evs)) [])).
  induction evs as [| [ev w] evs IH] using rev_ind.
  - split; [constructor | intros e []].
  - rewrite run_last. cbn [fst snd]. rewrite dotted_after_app.
    apply step_keeps_dots. exact IH.
Qed.

End SaveDots.
